(** * NL-to-SQL assistant: synthesis and safe execution pipeline

    A shallow embedding of the decision logic of [streamlitApp.py]:
    schema discovery ([get_supabase_schema]), prompt composition and
    response cleaning ([nl_to_sql_gemini]), statement dispatch and execution
    ([execute_sql_query]) and the orchestrator ([handle_database_query]).

    Conventions of the model.
    - Python [str] values are Rocq strings.  The character classes and case
      mappings are Python's on the 128 characters of ASCII.  Python's own
      classes go beyond them (a letter with an accent is a word character,
      the long s matches S when case is ignored), so a property that turns
      on a class or on letter case is stated of texts that satisfy
      [isascii], as [str.isascii] tests it.
    - [int] follows the interpreter's default limit of 4300 digits for a
      literal, and [float] rounds a decimal literal to the nearest binary64
      number.
    - The remote store client and the generation endpoint are oracles of a
      [world]; every call made on the store client is appended to a log.
    - A Python exception is the [Raise] outcome carrying the text of
      [str(e)]; [try]/[except Exception] is [catch]. *)

From Stdlib Require Import String Ascii List ZArith Bool Lia DecimalString.
From Stdlib Require Import Floats.SpecFloat.
Import ListNotations.
Open Scope list_scope.
Open Scope string_scope.

Set Implicit Arguments.

(** ** Python string methods *)

Module PyStr.

Definition code (c : ascii) : nat := nat_of_ascii c.

Definition between (lo hi : nat) (c : ascii) : bool :=
  (lo <=? code c)%nat && (code c <=? hi)%nat.

(** [str.isspace] on one ASCII character: TAB..CR, FS..US and the blank. *)
Definition isspace (c : ascii) : bool :=
  between 9 13 c || between 28 32 c.

Definition isdigit_c (c : ascii) : bool := between 48 57 c.
Definition isupper_c (c : ascii) : bool := between 65 90 c.
Definition islower_c (c : ascii) : bool := between 97 122 c.

(** The class [\w] of [re] on ASCII: letters, digits and the underscore. *)
Definition isword (c : ascii) : bool :=
  isdigit_c c || isupper_c c || islower_c c || (code c =? 95)%nat.

Definition lower_c (c : ascii) : ascii :=
  if isupper_c c then ascii_of_nat (code c + 32) else c.

Definition upper_c (c : ascii) : ascii :=
  if islower_c c then ascii_of_nat (code c - 32) else c.

Fixpoint smap (f : ascii -> ascii) (s : string) : string :=
  match s with
  | EmptyString => EmptyString
  | String c t => String (f c) (smap f t)
  end.

Definition lower : string -> string := smap lower_c.
Definition upper : string -> string := smap upper_c.

Definition srev (s : string) : string :=
  string_of_list_ascii (rev (list_ascii_of_string s)).

(** [s.startswith(p)] and [s.endswith(p)]. *)
Definition startswith (s p : string) : bool := String.prefix p s.
Definition endswith (s p : string) : bool := String.prefix (srev p) (srev s).

(** [sub in s]. *)
Fixpoint contains (s sub : string) : bool :=
  if String.prefix sub s then true
  else match s with
       | EmptyString => false
       | String _ t => contains t sub
       end.

Fixpoint lstrip_by (p : ascii -> bool) (s : string) : string :=
  match s with
  | EmptyString => EmptyString
  | String c t => if p c then lstrip_by p t else s
  end.

Definition rstrip_by (p : ascii -> bool) (s : string) : string :=
  srev (lstrip_by p (srev s)).

(** [s.strip()]. *)
Definition strip (s : string) : string :=
  rstrip_by isspace (lstrip_by isspace s).

(** [s.rstrip(chars)] for a one-character [chars]. *)
Definition rstrip_char (ch : ascii) (s : string) : string :=
  rstrip_by (Ascii.eqb ch) s.

Fixpoint drop (n : nat) (s : string) : string :=
  match n, s with
  | O, _ => s
  | S _, EmptyString => EmptyString
  | S m, String _ t => drop m t
  end.

Fixpoint take (n : nat) (s : string) : string :=
  match n, s with
  | O, _ => EmptyString
  | S _, EmptyString => EmptyString
  | S m, String c t => String c (take m t)
  end.

(** The slice [s[1:-1]]. *)
Definition slice_1_m1 (s : string) : string :=
  take (String.length s - 2) (drop 1 s).

(** [s.split(sep)] for a one-character separator: never the empty list. *)
Fixpoint split (sep : ascii) (s : string) : list string :=
  match s with
  | EmptyString => [EmptyString]
  | String c t =>
      if Ascii.eqb c sep then EmptyString :: split sep t
      else match split sep t with
           | [] => [String c EmptyString]
           | h :: r => String c h :: r
           end
  end.

(** [s.split(sep, 1)]: cut at the first separator only. *)
Fixpoint split1 (sep : ascii) (s : string) : list string :=
  match s with
  | EmptyString => [EmptyString]
  | String c t =>
      if Ascii.eqb c sep then [EmptyString; t]
      else match split1 sep t with
           | [] => [String c EmptyString]
           | h :: r => String c h :: r
           end
  end.

(** [s.replace(old, '')] for a non-empty [old]: occurrences are removed
    left to right and never overlap; [skip] counts the characters of the
    occurrence under removal that are still to be dropped. *)
Fixpoint remove_go (old : string) (skip : nat) (s : string) : string :=
  match s with
  | EmptyString => EmptyString
  | String c t =>
      match skip with
      | S k => remove_go old k t
      | O => if String.prefix old s
             then remove_go old (String.length old - 1) t
             else String c (remove_go old 0 t)
      end
  end.

Definition remove_all (old s : string) : string := remove_go old 0 s.

(** [sep.join(items)]. *)
Fixpoint join (sep : string) (items : list string) : string :=
  match items with
  | [] => EmptyString
  | [x] => x
  | x :: r => x ++ sep ++ join sep r
  end.

(** [s.isdigit()] on an ASCII text: non-empty and made of the digits 0
    to 9. *)
Fixpoint all_digits (s : string) : bool :=
  match s with
  | EmptyString => true
  | String c t => isdigit_c c && all_digits t
  end.

Definition isdigit (s : string) : bool :=
  negb (String.eqb s EmptyString) && all_digits s.

(** [s.isascii()]: every character is one of the 128 of ASCII. *)
Fixpoint isascii (s : string) : bool :=
  match s with
  | EmptyString => true
  | String c t => (code c <? 128)%nat && isascii t
  end.

Definition nl : string := String (ascii_of_nat 10) EmptyString.
Definition squote : ascii := ascii_of_nat 39.
Definition dquote : ascii := ascii_of_nat 34.
Definition backslash : ascii := ascii_of_nat 92.

Definition hex_digit (n : nat) : ascii :=
  nth n (list_ascii_of_string "0123456789abcdef") "0"%char.

(** One character inside [repr(s)] written between quotes [q]. *)
Definition repr_char (q c : ascii) : string :=
  if Ascii.eqb c backslash then String backslash (String backslash "")
  else if Ascii.eqb c q then String backslash (String q "")
  else if (code c =? 9)%nat then String backslash "t"
  else if (code c =? 10)%nat then String backslash "n"
  else if (code c =? 13)%nat then String backslash "r"
  else if (code c <? 32)%nat || (code c =? 127)%nat
       then String backslash
              (String "x" (String (hex_digit (code c / 16))
                                  (String (hex_digit (code c mod 16)) "")))
       else String c "".

(** [repr(s)] of an ASCII text: between single quotes, or between double
    quotes when the text holds a single quote and no double quote. *)
Definition py_repr (s : string) : string :=
  let q := if contains s (String squote "") && negb (contains s (String dquote ""))
           then dquote else squote in
  String q (String.concat "" (map (repr_char q) (list_ascii_of_string s))
            ++ String q "").

End PyStr.
Import PyStr.

(** ** Python number parsing: [int(s)] and [float(s)] *)

Module PyNum.

Definition digit_val (c : ascii) : Z := Z.of_nat (code c - 48).

(** Digits with single underscores between them, as [int] and [float]
    accept them; [prev] tells whether the previous character was a digit. *)
Fixpoint int_digits (s : string) (acc : Z) (prev : bool) : option Z :=
  match s with
  | EmptyString => if prev then Some acc else None
  | String c t =>
      if isdigit_c c then int_digits t (10 * acc + digit_val c)%Z true
      else if Ascii.eqb c "_" && prev then int_digits t acc false
      else None
  end.

(** The interpreter's default limit on the number of digits of an integer
    literal, [sys.get_int_max_str_digits()]. *)
Definition int_max_str_digits : N := 4300.

(** The number of digits of a text; signs and underscores do not count. *)
Fixpoint count_digits (s : string) : N :=
  match s with
  | EmptyString => 0%N
  | String c t => if isdigit_c c then N.succ (count_digits t) else count_digits t
  end.

Definition within_int_limit (s : string) : bool :=
  (count_digits s <=? int_max_str_digits)%N.

(** A well-formed literal of more digits than the limit is refused. *)
Definition limited (body : string) (r : option Z) : option Z :=
  match r with
  | Some n => if within_int_limit body then Some n else None
  | None => None
  end.

(** [int(s)] in base 10: surrounding white space is ignored, one sign is
    allowed.  [None] stands for [ValueError]. *)
Definition py_int (s : string) : option Z :=
  match strip s with
  | String "+" t => limited t (int_digits t 0%Z false)
  | String "-" t => option_map Z.opp (limited t (int_digits t 0%Z false))
  | t => limited t (int_digits t 0%Z false)
  end.

(** The digits and underscores in front of a text. *)
Fixpoint digit_run (s : string) : string :=
  match s with
  | EmptyString => EmptyString
  | String c t =>
      if isdigit_c c || Ascii.eqb c "_" then String c (digit_run t)
      else EmptyString
  end.

Definition show_N (n : N) : string := NilEmpty.string_of_uint (N.to_uint n).

Definition limit_message (digits : N) : string :=
  "Exceeds the limit (" ++ show_N int_max_str_digits
  ++ " digits) for integer string conversion: value has " ++ show_N digits
  ++ " digits; use sys.set_int_max_str_digits() to increase the limit".

(** The text of the [ValueError] that [int(s)] raises when it fails: the
    digits in front are counted before what follows them is looked at, so
    a well-formed run beyond the limit is reported as such, and anything
    else as an invalid literal. *)
Definition py_int_error (s : string) : string :=
  let run :=
    digit_run match strip s with
              | String "+" t => t
              | String "-" t => t
              | t => t
              end in
  match int_digits run 0%Z false with
  | Some _ =>
      if within_int_limit run
      then "invalid literal for int() with base 10: " ++ py_repr s
      else limit_message (count_digits run)
  | None => "invalid literal for int() with base 10: " ++ py_repr s
  end.

(** A decimal literal denotes [(-1)^neg * digits * 10^exp]. *)
Record decimal := { d_neg : bool; d_digits : Z; d_exp : Z }.

(** The binary64 number nearest to the value of a decimal literal, ties
    going to the even mantissa: what [float] makes of the literal.  A value
    too large becomes an infinity and one too small a zero. *)
Definition to_double (d : decimal) : spec_float :=
  match d_digits d with
  | Z.pos m =>
      match d_exp d with
      | Z.neg e =>
          let '(q, e2, l) :=
            SFdiv_core_binary 53 1024 (Z.pos m) 0 (Z.pow_pos 10 e) 0 in
          binary_round_aux 53 1024 (d_neg d) q e2 l
      | Z0 => binary_round 53 1024 (d_neg d) m 0
      | Z.pos e => binary_round 53 1024 (d_neg d) (m * Pos.pow 10 e) 0
      end
  | _ => S754_zero (d_neg d)
  end.

(** Every underscore of a float literal must stand between two digits. *)
Fixpoint underscores_ok (s : string) (prev : bool) : bool :=
  match s with
  | EmptyString => true
  | String c t =>
      if Ascii.eqb c "_"
      then prev && match t with
                   | String d _ => isdigit_c d
                   | EmptyString => false
                   end && underscores_ok t false
      else underscores_ok t (isdigit_c c)
  end.

Fixpoint drop_underscores (s : string) : string :=
  match s with
  | EmptyString => EmptyString
  | String c t =>
      if Ascii.eqb c "_" then drop_underscores t
      else String c (drop_underscores t)
  end.

(** The longest run of digits in front of [s]: its value continuing [acc],
    its length, and the rest. *)
Fixpoint take_digits (s : string) (acc : Z) (n : nat) : Z * nat * string :=
  match s with
  | String c t =>
      if isdigit_c c then take_digits t (10 * acc + digit_val c)%Z (S n)
      else (acc, n, s)
  | EmptyString => (acc, n, s)
  end.

(** The exponent part: absent, or [e] or [E], an optional sign and at
    least one digit, up to the end of the literal. *)
Definition parse_exponent (s : string) : option Z :=
  match s with
  | EmptyString => Some 0%Z
  | String c t =>
      if Ascii.eqb (lower_c c) "e" then
        let '(neg, u) :=
          match t with
          | String "+" u => (false, u)
          | String "-" u => (true, u)
          | _ => (false, t)
          end in
        let '(v, n, rest) := take_digits u 0%Z 0 in
        match n, rest with
        | S _, EmptyString => Some (if neg then (- v)%Z else v)
        | _, _ => None
        end
      else None
  end.

Definition parse_decimal (s : string) : option decimal :=
  let '(neg, u) :=
    match s with
    | String "+" u => (false, u)
    | String "-" u => (true, u)
    | _ => (false, s)
    end in
  let '(iv, ilen, r1) := take_digits u 0%Z 0 in
  let '(fv, flen, r2) :=
    match r1 with
    | String "." r => take_digits r iv 0
    | _ => (iv, 0%nat, r1)
    end in
  match (ilen + flen)%nat with
  | O => None
  | S _ =>
      match parse_exponent r2 with
      | Some e => Some {| d_neg := neg; d_digits := fv;
                          d_exp := (e - Z.of_nat flen)%Z |}
      | None => None
      end
  end.

(** [float(s)] on a decimal literal; [None] stands for [ValueError].  The
    program calls it only on tokens that contain a dot, which the spellings
    of infinity and not-a-number do not, so they are not listed. *)
Definition py_float (s : string) : option spec_float :=
  let t := strip s in
  if underscores_ok t false
  then option_map to_double (parse_decimal (drop_underscores t))
  else None.

End PyNum.
Import PyNum.

(** ** A backtracking matcher for the patterns the program uses

    The repetitions that occur in the program apply to one character class
    each, so [Rep] repeats a class.  Alternatives are tried in order and
    repetitions backtrack, as in Python's [re]. *)

Module Re.

Inductive regex : Type :=
| Eps
| Lit (c : ascii)                               (* a literal character *)
| Cls (p : ascii -> bool)                       (* [\w], [\s], [\d], [\S], [.] *)
| Cat (r1 r2 : regex)
| Alt (r1 r2 : regex)
| Rep (greedy : bool) (min : nat) (p : ascii -> bool)
| Opt (r : regex)                               (* [(?:r)?] *)
| Grp (i : nat) (r : regex).                    (* capturing group number [i] *)

Definition captures := list (nat * string).

Fixpoint group (cs : captures) (i : nat) : option string :=
  match cs with
  | [] => None
  | (j, s) :: r => if (i =? j)%nat then Some s else group r i
  end.

(** What was read between the input [s] and its suffix [s']. *)
Definition consumed (s s' : string) : string :=
  take (String.length s - String.length s') s.

Section Matcher.
Variable A : Type.

Fixpoint rep_greedy (p : ascii -> bool) (min : nat) (s : string)
         (k : string -> option A) : option A :=
  let stop := match min with O => k s | S _ => None end in
  match s with
  | String c t =>
      if p c then
        match rep_greedy p (pred min) t k with
        | Some x => Some x
        | None => stop
        end
      else stop
  | EmptyString => stop
  end.

Fixpoint rep_lazy (p : ascii -> bool) (min : nat) (s : string)
         (k : string -> option A) : option A :=
  let more := match s with
              | String c t => if p c then rep_lazy p (pred min) t k else None
              | EmptyString => None
              end in
  match min with
  | O => match k s with
         | Some x => Some x
         | None => more
         end
  | S _ => more
  end.

(** [ic] is the flag [re.IGNORECASE]; it bears on literals only. *)
Fixpoint run (ic : bool) (r : regex) (s : string) (cs : captures)
         (k : string -> captures -> option A) : option A :=
  match r with
  | Eps => k s cs
  | Lit c =>
      match s with
      | String d t =>
          if (if ic then Ascii.eqb (lower_c c) (lower_c d) else Ascii.eqb c d)
          then k t cs else None
      | EmptyString => None
      end
  | Cls p =>
      match s with
      | String d t => if p d then k t cs else None
      | EmptyString => None
      end
  | Cat r1 r2 => run ic r1 s cs (fun s' cs' => run ic r2 s' cs' k)
  | Alt r1 r2 =>
      match run ic r1 s cs k with
      | Some x => Some x
      | None => run ic r2 s cs k
      end
  | Rep true min p => rep_greedy p min s (fun s' => k s' cs)
  | Rep false min p => rep_lazy p min s (fun s' => k s' cs)
  | Opt r1 =>
      match run ic r1 s cs k with
      | Some x => Some x
      | None => k s cs
      end
  | Grp i r1 => run ic r1 s cs (fun s' cs' => k s' ((i, consumed s s') :: cs'))
  end.
End Matcher.

(** A match object: [group(0)] and the numbered groups. *)
Record match_obj := { whole : string; groups : captures }.

(** [re.match(r, s)]: the pattern is tried at the start of [s] only. *)
Definition re_match (ic : bool) (r : regex) (s : string) : option match_obj :=
  run ic r s []
      (fun s' cs => Some {| whole := consumed s s'; groups := cs |}).

(** [re.search(r, s)]: the first position, left to right, where it matches. *)
Fixpoint re_search (ic : bool) (r : regex) (s : string) : option match_obj :=
  match re_match ic r s with
  | Some m => Some m
  | None => match s with
            | String _ t => re_search ic r t
            | EmptyString => None
            end
  end.

(** A literal word, character by character. *)
Fixpoint lits (w : string) : regex :=
  match w with
  | EmptyString => Eps
  | String c t => Cat (Lit c) (lits t)
  end.

Definition any_char (c : ascii) : bool := true.
Definition not_newline (c : ascii) : bool := negb (Ascii.eqb c (ascii_of_nat 10)).
Definition not_space (c : ascii) : bool := negb (isspace c).

Definition ws_star : regex := Rep true 0 isspace.        (* [\s*] *)
Definition ws_plus : regex := Rep true 1 isspace.        (* [\s+] *)
Definition word_plus : regex := Rep true 1 isword.       (* [\w+] *)

Fixpoint cats (rs : list regex) : regex :=
  match rs with
  | [] => Eps
  | r :: t => Cat r (cats t)
  end.

End Re.
Import Re.

(** ** Data model *)

Inductive pyvalue : Type :=
| VNone
| VStr (s : string)
| VInt (n : Z)
| VFloat (x : spec_float).

(** A Python [dict] with string keys: insertion-ordered, keys unique. *)
Definition dict (V : Type) := list (string * V).

Fixpoint dict_get {V : Type} (d : dict V) (k : string) : option V :=
  match d with
  | [] => None
  | (k', v) :: r => if String.eqb k k' then Some v else dict_get r k
  end.

Definition dict_has {V : Type} (d : dict V) (k : string) : bool :=
  match dict_get d k with Some _ => true | None => false end.

(** [d[k] = v]: a present key keeps its place, a new one goes last. *)
Fixpoint dict_set {V : Type} (d : dict V) (k : string) (v : V) : dict V :=
  match d with
  | [] => [(k, v)]
  | (k', v') :: r =>
      if String.eqb k k' then (k, v) :: r else (k', v') :: dict_set r k v
  end.

Definition row := dict pyvalue.

(** The table -> columns mapping. *)
Definition schema := dict (list string).

(** What [get_supabase_schema] returns and [schema_data] holds: the
    dictionary with the single key [error], or a mapping. *)
Inductive schema_result : Type :=
| SchemaError (msg : string)
| SchemaOk (s : schema).

(** A response object of the store client, of the class named [r_class].
    An attribute may be missing ([None]), hold [None] ([Some None]) or hold
    a value; an error value is an object that is truthy and prints as its
    message. *)
Record response (R : Type) : Type :=
  { r_class : string;
    r_error : option (option string);
    r_data : option (option (list R)) }.

Arguments r_class {R} _.
Arguments r_error {R} _.
Arguments r_data {R} _.

(** The calls made on the store client, each ending in [.execute()]. *)
Inductive call : Type :=
| Rpc (fname : string) (sql_query : option string)
| TableInsert (table : string) (data : dict pyvalue)
| TableUpdate (table : string) (data : dict pyvalue) (column : string) (v : pyvalue)
| TableDelete (table : string) (column : string) (v : pyvalue).

Inductive outcome (A : Type) : Type :=
| Ret (a : A)
| Raise (msg : string).

Arguments Ret {A} _.
Arguments Raise {A} _.

(** The body of a generation response, as far as the program reads it:
    every level may be missing. *)
Record part := { p_text : option string }.
Record content := { c_parts : option (list part) }.
Record candidate := { cand_content : option content }.
Record gen_body := { candidates : option (list candidate) }.

Record http_response : Type :=
  { status_code : Z;
    text : string;                 (* [response.text] *)
    json : outcome gen_body }.     (* [response.json()] *)

(** The collaborators.  [discover] answers the calls of schema discovery,
    whose rows carry text; [store] answers the calls of query execution;
    [generate] answers the POST of a prompt.  Within one run of a function
    no call is made twice, so an answer is a function of the call. *)
Record world : Type :=
  { discover : call -> outcome (response (dict string));
    store : call -> outcome (response row);
    generate : string -> outcome http_response }.

(** The result of [execute_sql_query]. *)
Inductive exec_result : Type :=
| Error (msg : string)                               (* [{"error": msg}] *)
| Data (d : option (list row))                       (* [response.data], or [[]] *)
| Message (msg : string) (rows_affected : option nat)
| Warning (msg : string).

(** The result of [nl_to_sql_gemini]. *)
Inductive synthesis : Type :=
| SynError (msg : string)
| Sql (query : string).

Record history_entry : Type :=
  { user_input : string; sql_query : string; result : exec_result }.

(** [st.session_state], as far as the pipeline uses it. *)
Record session : Type :=
  { connected : bool;
    schema_data : option schema_result;
    query_history : list history_entry }.

(** ** Effects: a log of store calls, and exceptions *)

Definition Eff (A : Type) : Type := list call -> outcome A * list call.

Definition ret {A : Type} (a : A) : Eff A := fun log => (Ret a, log).

Definition raise {A : Type} (msg : string) : Eff A := fun log => (Raise msg, log).

Definition bind {A B : Type} (m : Eff A) (k : A -> Eff B) : Eff B :=
  fun log =>
    match m log with
    | (Ret a, log') => k a log'
    | (Raise msg, log') => (Raise msg, log')
    end.

(** [try: m except Exception as e: h(str(e))]. *)
Definition catch {A : Type} (m : Eff A) (h : string -> Eff A) : Eff A :=
  fun log =>
    match m log with
    | (Ret a, log') => (Ret a, log')
    | (Raise msg, log') => h msg log'
    end.

Definition lift {A : Type} (o : outcome A) : Eff A := fun log => (o, log).

Notation "x <- m ;; k" := (bind m (fun x => k))
  (at level 61, m at next level, right associativity).

(** A call on the store client during execution, and during discovery. *)
Definition perform (w : world) (c : call) : Eff (response row) :=
  fun log => (store w c, (log ++ [c])%list).

Definition perform_discovery (w : world) (c : call) : Eff (response (dict string)) :=
  fun log => (discover w c, (log ++ [c])%list).

(** [response.data]: reading a missing attribute raises [AttributeError],
    whose text names the class of the object. *)
Definition attr_data {R : Type} (r : response R) : Eff (option (list R)) :=
  match r_data r with
  | Some d => ret d
  | None => raise ("'" ++ r_class r ++ "' object has no attribute 'data'")
  end.

(** Truth value of [response.data]. *)
Definition truthy {R : Type} (d : option (list R)) : bool :=
  match d with
  | Some (_ :: _) => true
  | _ => false
  end.

(** [hasattr(response, 'error') and response.error]. *)
Definition error_of {R : Type} (r : response R) : option string :=
  match r_error r with
  | Some (Some e) => Some e
  | _ => None
  end.

(** ** [get_supabase_schema] *)

(** The loop that folds the discovery rows into the mapping; a row
    without one of the two keys raises [KeyError]. *)
Fixpoint group_rows (rows : list (dict string)) (sch : schema) : outcome schema :=
  match rows with
  | [] => Ret sch
  | entry :: rest =>
      match dict_get entry "table_name" with
      | None => Raise "'table_name'"
      | Some table =>
          match dict_get entry "column_name" with
          | None => Raise "'column_name'"
          | Some column =>
              let sch1 := if dict_has sch table then sch else dict_set sch table [] in
              let cols := match dict_get sch1 table with Some l => l | None => [] end in
              group_rows rest (dict_set sch1 table (cols ++ [column])%list)
          end
      end
  end.

Definition schema_query : string :=
  nl ++ "        SELECT table_name, column_name" ++
  nl ++ "        FROM information_schema.columns" ++
  nl ++ "        WHERE table_schema = 'public'" ++
  nl ++ "        ORDER BY table_name, ordinal_position" ++
  nl ++ "        ".

(** The inner [try]: [Some] is a returned mapping, [None] falls through
    to the query below, as a caught fault does. *)
Definition schema_primary (w : world) : Eff (option schema) :=
  catch
    (response <- perform_discovery w (Rpc "get_table_schema" None) ;;
     d <- attr_data response ;;
     if truthy d then
       sch <- lift (group_rows (match d with Some l => l | None => [] end) []) ;;
       ret (Some sch)
     else ret None)
    (fun func_error => ret None).

Definition get_supabase_schema (w : world) (st : session) : Eff schema_result :=
  if negb (connected st) then ret (SchemaError "Not connected to database")
  else
    catch
      (first <- schema_primary w ;;
       match first with
       | Some sch => ret (SchemaOk sch)
       | None =>
           response <- perform_discovery w (Rpc "run_sql_query" (Some schema_query)) ;;
           d <- attr_data response ;;
           response <- (if negb (truthy d)
                        then perform_discovery w (Rpc "run_sql" (Some schema_query))
                        else ret response) ;;
           d <- attr_data response ;;
           if truthy d then
             sch <- lift (group_rows (match d with Some l => l | None => [] end) []) ;;
             ret (SchemaOk sch)
           else ret (SchemaError "No data returned from schema query")
       end)
      (fun e => ret (SchemaError ("Exception occurred while fetching schema: " ++ e))).

(** ** [format_schema_for_prompt] and [nl_to_sql_gemini] *)

(** The branch for a list argument is left out: [schema_data] is never a
    list in this program. *)
Definition format_schema_for_prompt (sd : schema_result) : string :=
  "Here is the database schema:" ++ nl ++
  match sd with
  | SchemaOk d =>
      if dict_has d "error" then ""
      else String.concat ""
             (map (fun tc : string * list string =>
                     nl ++ "Table `" ++ fst tc ++ "` with columns: " ++ join ", " (snd tc))
                  d)
  | SchemaError _ => ""
  end.

(** [schema_data is None or (isinstance(schema_data, dict) and "error" in schema_data)] *)
Definition schema_error_of (sd : option schema_result) : bool :=
  match sd with
  | None => true
  | Some (SchemaError _) => true
  | Some (SchemaOk d) => dict_has d "error"
  end.

Definition fallback_description : string :=
  "Generate SQL using the common tables like 'employees', 'customers', 'orders', 'products', or 'refund_requests' with standard columns.".

Definition is_update_of (prompt_lower : string) : bool :=
  contains prompt_lower "update" || contains prompt_lower "modify"
  || contains prompt_lower "change" || contains prompt_lower "set".

Definition is_delete_of (prompt_lower : string) : bool :=
  contains prompt_lower "delete" || contains prompt_lower "remove".

Definition is_insert_of (prompt_lower : string) : bool :=
  contains prompt_lower "insert" || contains prompt_lower "add"
  || contains prompt_lower "create" || contains prompt_lower "new".

Definition is_select_of (prompt_lower : string) : bool :=
  contains prompt_lower "fetch" || contains prompt_lower "show"
  || contains prompt_lower "get" || contains prompt_lower "select"
  || contains prompt_lower "find" || contains prompt_lower "list".

(** The pattern of line 168: one of row, record, id; optional blanks; an
    optional number; optional blanks; the group [\d+]. *)
Definition row_reference_re : regex :=
  cats [Alt (lits "row") (Alt (lits "record") (lits "id"));
        ws_star; Opt (lits "number"); ws_star;
        Grp 1 (Rep true 1 isdigit_c)].

Definition row_id_of (prompt_lower : string) : option string :=
  match re_search false row_reference_re prompt_lower with
  | Some m => group (groups m) 1
  | None => None
  end.

Definition select_guidance : string :=
  nl ++ "For the SELECT query:" ++ nl ++ "- Use PostgreSQL syntax" ++ nl ++
  "- Use single quotes for strings" ++ nl ++
  "- Use ILIKE for case-insensitive matching".

Definition insert_guidance : string :=
  nl ++ "For the INSERT query:" ++ nl ++
  "- Include all relevant columns from the user's request" ++ nl ++
  "- Do NOT include the id column (it's auto-generated)" ++ nl ++
  "- Do NOT include the created_at column (it's auto-generated)" ++ nl ++
  "- Use single quotes for strings".

Definition update_guidance : string :=
  nl ++ "For the UPDATE query:" ++ nl ++
  "- Include all relevant columns to update from the user's request" ++ nl ++
  "- Be sure to include a proper WHERE clause".

Definition delete_guidance : string :=
  nl ++ "For the DELETE query:" ++ nl ++
  "- Include a proper WHERE clause to avoid deleting all records".

(** The line added to the update and delete guidance; a matched row id is
    a non-empty run of digits, hence truthy. *)
Definition row_id_line (row_id : option string) : string :=
  match row_id with
  | Some id => nl ++ "- Use 'WHERE id = " ++ id ++ "' as the condition"
  | None => ""
  end.

(** The [if]/[elif] chain of lines 171-183. *)
Definition operation_guidance_of (prompt_lower : string) : string :=
  let row_id := row_id_of prompt_lower in
  if is_select_of prompt_lower then select_guidance
  else if is_insert_of prompt_lower then insert_guidance
  else if is_update_of prompt_lower then update_guidance ++ row_id_line row_id
  else if is_delete_of prompt_lower then delete_guidance ++ row_id_line row_id
  else "".

Definition common_tables : list string :=
  ["employees"; "customers"; "orders"; "products"; "refund_requests"].

(** [table[:-1]] *)
Definition drop_last (s : string) : string := take (String.length s - 1) s.

Fixpoint table_hint_of (tables : list string) (prompt_lower : string)
         (schema_error : bool) : string :=
  match tables with
  | [] => ""
  | table :: rest =>
      if contains prompt_lower table || contains prompt_lower (drop_last table)
      then (if schema_error
            then nl ++ "You should use the '" ++ table ++ "' table for this query."
            else "")
      else table_hint_of rest prompt_lower schema_error
  end.

Definition refined_prompt_of (sd : option schema_result) (prompt : string) : string :=
  let schema_error := schema_error_of sd in
  let schema_description :=
    match sd with
    | Some d => if schema_error then fallback_description else format_schema_for_prompt d
    | None => fallback_description
    end in
  let prompt_lower := lower prompt in
  schema_description ++ nl ++ nl ++
  "Generate a PostgreSQL query for: " ++ prompt ++ "." ++
  operation_guidance_of prompt_lower ++
  table_hint_of common_tables prompt_lower schema_error ++ nl ++ nl ++
  "Return only the SQL query without any explanation, markdown formatting, or backticks.".

(** The pattern of line 219, under [IGNORECASE | DOTALL]: one of the four
    keywords in a group, then a greedy run of any character. *)
Definition sql_keyword_re : regex :=
  Cat (Grp 1 (Alt (lits "SELECT") (Alt (lits "INSERT")
                (Alt (lits "UPDATE") (lits "DELETE")))))
      (Rep true 0 any_char).

(** Lines 217-222: from the text of the candidate to the returned query. *)
Definition clean_sql (text0 : string) : string :=
  let text1 := strip (remove_all "```" (remove_all "```sql" text0)) in
  match re_search true sql_keyword_re text1 with
  | Some sql_match => strip (whole sql_match)
  | None => strip text1
  end.

(** [candidates[0].get('content', {}).get('parts', [{}])[0].get('text', '')] *)
Definition first_text (c : candidate) : outcome string :=
  let parts :=
    match cand_content c with
    | Some ct => match c_parts ct with
                 | Some ps => ps
                 | None => [ {| p_text := None |} ]
                 end
    | None => [ {| p_text := None |} ]
    end in
  match parts with
  | [] => Raise "list index out of range"
  | p :: _ => Ret (match p_text p with Some t => t | None => "" end)
  end.

Definition out_bind {A B : Type} (o : outcome A) (k : A -> outcome B) : outcome B :=
  match o with
  | Ret a => k a
  | Raise msg => Raise msg
  end.

Definition out_catch {A : Type} (o : outcome A) (h : string -> A) : A :=
  match o with
  | Ret a => a
  | Raise msg => h msg
  end.

Definition nl_to_sql_gemini (w : world) (st : session) (prompt : string) : synthesis :=
  if negb (connected st) then SynError "Not connected to database"
  else
    let refined_prompt := refined_prompt_of (schema_data st) prompt in
    out_catch
      (out_bind (generate w refined_prompt) (fun response =>
         if (status_code response =? 200)%Z then
           out_bind (json response) (fun data =>
             match candidates data with
             | Some (c :: _) =>
                 out_bind (first_text c) (fun text0 => Ret (Sql (clean_sql text0)))
             | _ => Ret (SynError "No candidates returned by Gemini.")
             end)
         else Ret (SynError ("Gemini API error: " ++ text response))))
      (fun e => SynError ("Error calling Gemini API: " ++ e)).

(** ** [execute_sql_query] *)

(** Lines 247-258 and, word for word again, lines 284-295: the decoding of
    a value token of an INSERT values list or of an UPDATE SET clause. *)
Definition decode_value (value : string) : pyvalue :=
  if String.eqb (upper value) "NULL" then VNone
  else if (startswith value "'" && endswith value "'")
          || (startswith value (String dquote "") && endswith value (String dquote ""))
  then VStr (slice_1_m1 value)
  else if contains value "."
  then match py_float value with
       | Some d => VFloat d
       | None => VStr value
       end
  else match py_int value with
       | Some n => VInt n
       | None => VStr value
       end.

(** Lines 302-305 and 331-334: the decoding of the token of a WHERE
    equality. *)
Definition decode_where (where_value : string) : outcome pyvalue :=
  if startswith where_value "'" && endswith where_value "'"
  then Ret (VStr (slice_1_m1 where_value))
  else if isdigit where_value
  then match py_int where_value with
       | Some n => Ret (VInt n)
       | None => Raise (py_int_error where_value)
       end
  else Ret (VStr where_value).

(** The pattern of line 238: insert into, the group [\w+], and two
    parenthesised lazy groups [.*?] around the word values. *)
Definition insert_re : regex :=
  cats [lits "insert"; ws_plus; lits "into"; ws_plus; Grp 1 word_plus; ws_star;
        Lit "("; Grp 2 (Rep false 0 not_newline); Lit ")"; ws_star;
        lits "values"; ws_star;
        Lit "("; Grp 3 (Rep false 0 not_newline); Lit ")"].

(** The pattern of line 271: the words update, set and where around the
    groups [\w+], a lazy [.*?] and, last, a greedy run of [.]. *)
Definition update_re : regex :=
  cats [lits "update"; ws_plus; Grp 1 word_plus; ws_plus; lits "set"; ws_plus;
        Grp 2 (Rep false 0 not_newline); ws_plus; lits "where"; ws_plus;
        Grp 3 (Rep true 0 not_newline)].

(** The pattern of line 318: the words delete and from, the group [\w+],
    and an optional part made of [\s+], where, [\s+] and a group holding
    a greedy run of [.]. *)
Definition delete_re : regex :=
  cats [lits "delete"; ws_plus; lits "from"; ws_plus; Grp 1 word_plus;
        Opt (cats [ws_plus; lits "where"; ws_plus; Grp 2 (Rep true 0 not_newline)])].

(** The pattern of lines 297 and 326, without flags: the group [\w+], an
    equals sign between optional blanks, and the group [\S+]. *)
Definition where_re : regex :=
  cats [Grp 1 word_plus; ws_star; Lit "="; ws_star; Grp 2 (Rep true 1 not_space)].

(** A group that took part in the match. *)
Definition group_str (m : match_obj) (i : nat) : string :=
  match group (groups m) i with
  | Some s => s
  | None => ""
  end.

(** The loop of lines 245-258; [values[i]] past the end raises. *)
Fixpoint insert_data (columns values : list string) (i : nat) (data : dict pyvalue)
  : outcome (dict pyvalue) :=
  match columns with
  | [] => Ret data
  | column :: rest =>
      match nth_error values i with
      | None => Raise "list index out of range"
      | Some value => insert_data rest values (S i) (dict_set data column (decode_value value))
      end
  end.

(** The loop of lines 280-295. *)
Fixpoint update_data (set_items : list string) (data : dict pyvalue) : dict pyvalue :=
  match set_items with
  | [] => data
  | item :: rest =>
      if contains item "=" then
        match map strip (split1 "=" item) with
        | [column; value] => update_data rest (dict_set data column (decode_value value))
        | _ => update_data rest data
        end
      else update_data rest data
  end.

Definition refusal : string :=
  "DELETE without WHERE clause is not allowed for safety. Please specify a WHERE condition.".

(** Lines 262-268: what the response of the structured insert becomes. *)
Definition insert_result (response : response row) : exec_result :=
  match error_of response with
  | Some e => Error ("Insert failed: " ++ e)
  | None =>
      match r_data response with
      | Some d => Data d
      | None => Message "Insert was executed successfully" None
      end
  end.

(** Lines 309-315. *)
Definition update_result (response : response row) : exec_result :=
  match error_of response with
  | Some e => Error ("Update failed: " ++ e)
  | None =>
      match r_data response with
      | Some d => Data d
      | None => Message "Update was executed successfully" None
      end
  end.

(** Lines 338-344: the count is [len(response.data)], or 0 for no data. *)
Definition delete_result (response : response row) : exec_result :=
  match error_of response with
  | Some e => Error ("Delete failed: " ++ e)
  | None =>
      match r_data response with
      | Some d =>
          Message "Delete was executed successfully"
                  (Some (match d with
                         | Some (x :: l) => List.length (x :: l)
                         | _ => O
                         end))
      | None => Message "Delete was executed successfully" None
      end
  end.

(** Lines 237-268.  [None] is control reaching line 346. *)
Definition insert_branch (w : world) (query : string) : Eff (option exec_result) :=
  match re_match true insert_re query with
  | Some m =>
      let table_name := group_str m 1 in
      let columns := map strip (split "," (group_str m 2)) in
      let values := map strip (split "," (group_str m 3)) in
      data <- lift (insert_data columns values 0 []) ;;
      response <- perform w (TableInsert table_name data) ;;
      ret (Some (insert_result response))
  | None => ret None
  end.

(** Lines 270-315. *)
Definition update_branch (w : world) (query : string) : Eff (option exec_result) :=
  match re_match true update_re query with
  | Some m =>
      let table_name := group_str m 1 in
      let set_clause := group_str m 2 in
      let where_clause := group_str m 3 in
      let data := update_data (split "," set_clause) [] in
      match re_match false where_re where_clause with
      | Some where_match =>
          let where_column := group_str where_match 1 in
          where_value <- lift (decode_where (strip (group_str where_match 2))) ;;
          response <- perform w (TableUpdate table_name data where_column where_value) ;;
          ret (Some (update_result response))
      | None => ret None
      end
  | None => ret None
  end.

(** Lines 317-344. *)
Definition delete_branch (w : world) (query : string) : Eff (option exec_result) :=
  match re_match true delete_re query with
  | Some m =>
      let table_name := group_str m 1 in
      match group (groups m) 2 with
      | None | Some EmptyString => ret (Some (Error refusal))
      | Some where_clause =>
          match re_match false where_re where_clause with
          | Some where_match =>
              let where_column := group_str where_match 1 in
              where_value <- lift (decode_where (strip (group_str where_match 2))) ;;
              response <- perform w (TableDelete table_name where_column where_value) ;;
              ret (Some (delete_result response))
          | None => ret None
          end
      end
  | None => ret None
  end.

(** Lines 354-366: what a response of the raw query becomes. *)
Definition raw_result (query : string) (response : response row) : exec_result :=
  match error_of response with
  | Some e => Error ("Database error: " ++ e)
  | None =>
      match r_data response with
      | Some d =>
          if truthy d then Data d
          else
            let q := lower query in
            if contains q "insert" || contains q "update" || contains q "delete" then
              let operation :=
                if contains q "insert" then "insert"
                else if contains q "update" then "update" else "delete" in
              Message ("The " ++ operation ++ " operation was executed successfully") None
            else Data (Some [])
      | None => Warning "Query executed but returned no data attribute"
      end
  end.

(** Lines 346-366: the raw query, with its second procedure name. *)
Definition raw_stage (w : world) (query : string) : Eff exec_result :=
  fun log =>
    match perform w (Rpc "run_sql_query" (Some query)) log with
    | (Ret response, log1) => (Ret (raw_result query response), log1)
    | (Raise _, log1) =>
        match perform w (Rpc "run_sql" (Some query)) log1 with
        | (Ret response, log2) => (Ret (raw_result query response), log2)
        | (Raise e2, log2) => (Ret (Error ("Query failed: " ++ e2)), log2)
        end
    end.

(** The [if]/[elif] dispatch on the leading words. *)
Definition structured_stage (w : world) (query : string) : Eff (option exec_result) :=
  if startswith (lower query) "insert into" then insert_branch w query
  else if startswith (lower query) "update" then update_branch w query
  else if startswith (lower query) "delete from" then delete_branch w query
  else ret None.

Definition execute_sql_query (w : world) (st : session) (query0 : string) : Eff exec_result :=
  if negb (connected st) then ret (Error "Not connected to database")
  else
    catch
      (let query := rstrip_char ";" (strip query0) in
       r <- structured_stage w query ;;
       match r with
       | Some res => ret res
       | None => raw_stage w query
       end)
      (fun error_message => ret (Error ("Query failed: " ++ error_message))).

(** ** [handle_database_query] *)

(** What the function returns: the lone dictionary of the disconnected
    case, or the pair of a result and the statement, if any; [Escaped] is
    an exception leaving the function. *)
Inductive handled : Type :=
| NotConnected (msg : string)
| Handled (result : exec_result) (sql_query : option string)
| Escaped (msg : string).

(** The outcome of a run: the value, the session afterwards, the store
    calls made. *)
Definition handle_database_query (w : world) (st : session) (input : string)
  : handled * session * list call :=
  if negb (connected st) then (NotConnected "Not connected to database", st, [])
  else
    match nl_to_sql_gemini w st input with
    | SynError msg => (Handled (Error msg) None, st, [])
    | Sql sql =>
        match execute_sql_query w st sql [] with
        | (Ret res, log) =>
            (Handled res (Some sql),
             {| connected := connected st;
                schema_data := schema_data st;
                query_history :=
                  (query_history st ++
                   [ {| user_input := input; sql_query := sql; result := res |} ])%list |},
             log)
        | (Raise msg, log) => (Escaped msg, st, log)
        end
    end.

(** ** Worlds and sessions for the examples *)

Definition empty_response : response row :=
  {| r_class := "APIResponse"; r_error := Some None; r_data := Some (Some []) |}.

(** A store that answers every call with no error and no rows. *)
Definition quiet_world : world :=
  {| discover := fun _ => Raise "not available";
     store := fun _ => Ret empty_response;
     generate := fun _ => Raise "not available" |}.

Definition fresh_session : session :=
  {| connected := true; schema_data := None; query_history := [] |}.

Definition failing_endpoint : world :=
  {| discover := fun _ => Raise "not available";
     store := fun _ => Ret empty_response;
     generate := fun _ =>
       Ret {| status_code := 500; text := "internal error";
              json := Raise "no body" |} |}.

(** An endpoint that answers every prompt with one candidate. *)
Definition answering_world (answer : string) : world :=
  {| discover := fun _ => Raise "not available";
     store := fun _ => Ret empty_response;
     generate := fun _ =>
       Ret {| status_code := 200; text := "";
              json := Ret {| candidates :=
                Some [ {| cand_content :=
                  Some {| c_parts := Some [ {| p_text := Some answer |} ] |} |} ] |} |} |}.

(** ** Wording of the specification, for comparison with the code *)

(** The first keyword of [ops], in that order, that [text] contains. *)
Definition first_mentioned (ops : list string) (text : string) : option string :=
  find (fun op => contains text op) ops.

(** The two names under which the raw query is tried. *)
Definition primary_rpc (query : string) : call := Rpc "run_sql_query" (Some query).
Definition secondary_rpc (query : string) : call := Rpc "run_sql" (Some query).

(** The statement [delete from "customers"], with its double quotes. *)
Definition delete_quoted_table : string :=
  "delete from " ++ String dquote ("customers" ++ String dquote "").

(** The trimming of line 235. *)
Definition normalize (query : string) : string := rstrip_char ";" (strip query).

(** The value of a run of digits read in base ten. *)
Fixpoint decimal_value_from (acc : Z) (s : string) : Z :=
  match s with
  | EmptyString => acc
  | String c t => decimal_value_from (10 * acc + digit_val c)%Z t
  end.

Definition decimal_value (s : string) : Z := decimal_value_from 0%Z s.

(** A run of 4301 digits, one more than [int] takes. *)
Definition long_digits : string := string_of_list_ascii (repeat "7"%char 4301).

(** A token that begins and ends with the single quote. *)
Definition single_quoted (tok : string) : bool :=
  startswith tok "'" && endswith tok "'".

(** The token of a WHERE equality as the specification decodes it:
    dequoted if single-quoted, else an integer if all digits, else raw. *)
Definition predicate_value (tok : string) : pyvalue :=
  if single_quoted tok then VStr (slice_1_m1 tok)
  else if isdigit tok then VInt (decimal_value tok)
  else VStr tok.

(** Every character of [s] satisfies [p]. *)
Definition sforall (p : ascii -> bool) (s : string) : bool :=
  forallb p (list_ascii_of_string s).

(** The dictionary that assigning the pairs of [l] in turn builds. *)
Definition dict_of_pairs (l : list (string * pyvalue)) : dict pyvalue :=
  fold_left (fun d kv => dict_set d (fst kv) (snd kv)) l [].

(** The test of lines 249 and 286: the token begins and ends with a single
    quote, or begins and ends with a double quote. *)
Definition quoted (tok : string) : bool :=
  single_quoted tok
  || (startswith tok (String dquote "") && endswith tok (String dquote "")).

(** The four intents, and a precedence among them as an ordered list: the
    guidance is that of the first intent of the list that the text
    matches, and empty if it matches none. *)
Inductive intent : Type := OpSelect | OpInsert | OpUpdate | OpDelete.

Definition matches_intent (op : intent) (prompt_lower : string) : bool :=
  match op with
  | OpSelect => is_select_of prompt_lower
  | OpInsert => is_insert_of prompt_lower
  | OpUpdate => is_update_of prompt_lower
  | OpDelete => is_delete_of prompt_lower
  end.

Definition guidance_for (op : intent) (prompt_lower : string) : string :=
  match op with
  | OpSelect => select_guidance
  | OpInsert => insert_guidance
  | OpUpdate => update_guidance ++ row_id_line (row_id_of prompt_lower)
  | OpDelete => delete_guidance ++ row_id_line (row_id_of prompt_lower)
  end.

Fixpoint guidance_by_precedence (order : list intent) (prompt_lower : string)
  : string :=
  match order with
  | [] => ""
  | op :: rest =>
      if matches_intent op prompt_lower then guidance_for op prompt_lower
      else guidance_by_precedence rest prompt_lower
  end.

(** The precedence the specification states, and the one lines 171-183
    follow. *)
Definition stated_precedence : list intent := [OpUpdate; OpDelete; OpInsert; OpSelect].
Definition coded_precedence : list intent := [OpSelect; OpInsert; OpUpdate; OpDelete].

(** The (table, column) pairs of discovery rows that carry both keys. *)
Fixpoint row_pairs (rows : list (dict string)) : option (list (string * string)) :=
  match rows with
  | [] => Some []
  | entry :: rest =>
      match dict_get entry "table_name", dict_get entry "column_name", row_pairs rest with
      | Some table, Some column, Some ps => Some ((table, column) :: ps)
      | _, _, _ => None
      end
  end.

(** The columns paired with [table], in the order of the rows. *)
Definition columns_of (table : string) (pairs : list (string * string)) : list string :=
  map snd (filter (fun tc => String.eqb (fst tc) table) pairs).

(** The three calls of schema discovery. *)
Definition primary_discovery : call := Rpc "get_table_schema" None.
Definition secondary_discovery : call := Rpc "run_sql_query" (Some schema_query).
Definition tertiary_discovery : call := Rpc "run_sql" (Some schema_query).

(** A store where the first two discovery calls raise and the third has
    rows. *)
Definition two_faults_world : world :=
  {| discover := fun c =>
       match c with
       | Rpc fname _ =>
           if String.eqb fname "run_sql"
           then Ret {| r_class := "APIResponse"; r_error := Some None;
                       r_data := Some (Some [ [("table_name", "orders");
                                               ("column_name", "id")] ]) |}
           else Raise ("no function " ++ fname)
       | _ => Raise "not a discovery call"
       end;
     store := fun _ => Ret empty_response;
     generate := fun _ => Raise "not available" |}.

(** A store where the first discovery call raises, the second answers
    without rows and the third has rows. *)
Definition tertiary_world : world :=
  {| discover := fun c =>
       match c with
       | Rpc fname _ =>
           if String.eqb fname "run_sql"
           then Ret {| r_class := "APIResponse"; r_error := Some None;
                       r_data := Some (Some [ [("table_name", "orders"); ("column_name", "id")];
                                              [("table_name", "items"); ("column_name", "sku")];
                                              [("table_name", "orders"); ("column_name", "total")] ]) |}
           else if String.eqb fname "run_sql_query"
           then Ret {| r_class := "APIResponse"; r_error := Some None;
                       r_data := Some (Some []) |}
           else Raise ("no function " ++ fname)
       | _ => Raise "not a discovery call"
       end;
     store := fun _ => Ret empty_response;
     generate := fun _ => Raise "not available" |}.

(** The statement-leading keywords, and the test that [text] begins with
    one of them, letter case apart. *)
Definition sql_keywords : list string := ["SELECT"; "INSERT"; "UPDATE"; "DELETE"].

Definition begins_with_keyword (text : string) : bool :=
  existsb (fun kw => String.prefix (lower kw) (lower text)) sql_keywords.

(** The text from the first place where a keyword occurs to the end;
    [None] when no keyword occurs. *)
Fixpoint from_first_keyword (text : string) : option string :=
  if begins_with_keyword text then Some text
  else match text with
       | EmptyString => None
       | String _ t => from_first_keyword t
       end.

(** The returned statement as the specification words it: the fence
    markers removed and the text trimmed, then the part from the first
    keyword on, trimmed, or that text unchanged if it has no keyword. *)
Definition cleaned (text0 : string) : string :=
  let unfenced := strip (remove_all "```" (remove_all "```sql" text0)) in
  match from_first_keyword unfenced with
  | Some suffix => strip suffix
  | None => unfenced
  end.

(** The first character, if any, does not satisfy [p]. *)
Definition head_clear (p : ascii -> bool) (s : string) : bool :=
  match s with
  | EmptyString => true
  | String c _ => negb (p c)
  end.

(** ** Further notions for the properties of the code *)

(** The calls of the table interface, as opposed to the procedure calls. *)
Definition is_structured (c : call) : bool :=
  match c with
  | Rpc _ _ => false
  | _ => true
  end.

(** The store answers the first discovery call with rows. *)
Definition primary_rows_world : world :=
  {| discover := fun c =>
       match c with
       | Rpc fname _ =>
           if String.eqb fname "get_table_schema"
           then Ret {| r_class := "APIResponse"; r_error := Some None;
                       r_data := Some (Some [ [("table_name", "orders"); ("column_name", "id")];
                                              [("table_name", "orders"); ("column_name", "total")] ]) |}
           else Raise ("no function " ++ fname)
       | _ => Raise "not a discovery call"
       end;
     store := fun _ => Ret empty_response;
     generate := fun _ => Raise "not available" |}.

(** A store on which every call raises. *)
Definition down_world : world :=
  {| discover := fun _ => Raise "connection reset";
     store := fun _ => Raise "connection reset";
     generate := fun _ => Raise "connection reset" |}.

(** What a branch of the dispatch may do to the log: fall through without
    a call, or end the execution after at most one structured call. *)
Definition branch_shape (o : outcome (option exec_result)) (calls : list call) : Prop :=
  (o = Ret None /\ calls = [])
  \/ (o <> Ret None
      /\ (calls = [] \/ exists c, calls = [c] /\ is_structured c = true)).

(** A non-empty name made of word characters, and a non-empty token
    without white space. *)
Definition is_word_name (s : string) : bool :=
  negb (String.eqb s "") && sforall isword s.

Definition is_token (s : string) : bool :=
  negb (String.eqb s "") && sforall not_space s.

(** The last character exists and is neither white space nor a
    semicolon, so that line 235 leaves the end of the text as it is. *)
Definition ends_clean (s : string) : bool :=
  match srev s with
  | EmptyString => false
  | String c _ => negb (isspace c) && negb (Ascii.eqb ";" c)
  end.

(** The statement [delete from T where C = V], followed by [trailer]. *)
Definition delete_where (table column token trailer : string) : string :=
  "delete from " ++ table ++ " where " ++ column ++ " = " ++ token ++ trailer.

(** The numbers of the capturing groups of a pattern. *)
Fixpoint groups_of (r : regex) : list nat :=
  match r with
  | Eps | Lit _ | Cls _ | Rep _ _ _ => []
  | Cat a b | Alt a b => (groups_of a ++ groups_of b)%list
  | Opt a => groups_of a
  | Grp i a => i :: groups_of a
  end.

(** A call whose table and filter column, if any, are non-empty names
    made of word characters; the procedure calls name no table. *)
Definition well_named (c : call) : bool :=
  match c with
  | Rpc _ _ => true
  | TableInsert table _ => is_word_name table
  | TableUpdate table _ column _ => is_word_name table && is_word_name column
  | TableDelete table column _ => is_word_name table && is_word_name column
  end.

(** The sentence that closes every prompt. *)
Definition final_directive : string :=
  "Return only the SQL query without any explanation, markdown formatting, or backticks.".

(** Lines 404-406: on each run of the script, a connected session without
    schema data fetches the schema and keeps what the fetch returns. *)
Definition ensure_schema (w : world) (st : session) : Eff session :=
  if connected st && match schema_data st with None => true | Some _ => false end
  then fun log =>
         match get_supabase_schema w st log with
         | (Ret r, log') =>
             (Ret {| connected := connected st;
                     schema_data := Some r;
                     query_history := query_history st |}, log')
         | (Raise e, log') => (Raise e, log')
         end
  else ret st.

(** An endpoint whose candidate carries no content. *)
Definition textless_world : world :=
  {| discover := fun _ => Raise "not available";
     store := fun _ => Ret empty_response;
     generate := fun _ =>
       Ret {| status_code := 200; text := "";
              json := Ret {| candidates := Some [ {| cand_content := None |} ] |} |} |}.

(** A text that can stand between the parentheses of an INSERT: on one
    line and without a closing parenthesis. *)
Definition in_parens (c : ascii) : bool :=
  not_newline c && negb (Ascii.eqb ")" c).

(** An item of a list written with commas: free of commas, of closing
    parentheses and of line breaks, and already trimmed. *)
Definition plain_item (x : string) : bool :=
  String.eqb (strip x) x
  && sforall (fun c => in_parens c && negb (Ascii.eqb c ",")) x.

(** The statement [insert into T (c1, c2, ...) values (v1, v2, ...)]. *)
Definition insert_statement (table : string) (columns values : list string) : string :=
  "insert into " ++ table ++ " (" ++ join ", " columns
                 ++ ") values (" ++ join ", " values ++ ")".

(** An item of a SET clause: an assignment, written [column=value], or a
    text without an equals sign. *)
Inductive set_item : Type :=
| Assign (column value : string)
| Bare (text : string).

Definition no_comma (c : ascii) : bool := negb (Ascii.eqb c ",").

Definition no_comma_eq (c : ascii) : bool := no_comma c && negb (Ascii.eqb c "=").

Definition item_text (i : set_item) : string :=
  match i with
  | Assign column value => column ++ "=" ++ value
  | Bare text => text
  end.

(** No comma in the item, and no equals sign besides the one written after
    the column; the value may hold further equals signs. *)
Definition item_ok (i : set_item) : bool :=
  match i with
  | Assign column value => sforall no_comma_eq column && sforall no_comma value
  | Bare text => sforall no_comma_eq text
  end.

Definition set_clause_of (items : list set_item) : string :=
  join "," (map item_text items).

Definition assignments (items : list set_item) : list (string * pyvalue) :=
  flat_map (fun i => match i with
                     | Assign column value => [(strip column, decode_value (strip value))]
                     | Bare _ => []
                     end) items.

(** ** Proof steps *)

(** Decides a fact about one character on the 256 of them. *)
Ltac by_char c :=
  destruct c as [[|] [|] [|] [|] [|] [|] [|] [|]]; vm_compute;
  try reflexivity; try discriminate; intuition congruence.

(** * Properties *)

Unset Implicit Arguments.

Example strip_ex : strip ("  a b ;" ++ nl) = "a b ;".
Proof. reflexivity. Qed.

Example rstrip_ex : rstrip_char ";" "delete from t;;" = "delete from t".
Proof. reflexivity. Qed.

Example split_ex : split "," "a, b,,c" = ["a"; " b"; ""; "c"].
Proof. reflexivity. Qed.

Example split1_ex : split1 "=" "a = b = c" = ["a "; " b = c"].
Proof. reflexivity. Qed.

Example remove_ex : remove_all "```" (remove_all "```sql" "```sql select 1```") = " select 1".
Proof. reflexivity. Qed.

Example slice_ex : slice_1_m1 "'ab'" = "ab" /\ slice_1_m1 "'" = "" /\ slice_1_m1 "" = "".
Proof. repeat split. Qed.

(** ** Running the model on the scenarios of the specification *)

Example scenario_insert :
  execute_sql_query quiet_world fresh_session
    "insert into orders (customer, amount) values ('Alice', 42.5)" []
  = (Ret (Data (Some [])),
     [TableInsert "orders"
        [("customer", VStr "Alice");
         ("amount", VFloat (S754_finite false 5981343255101440 (-47)))]]).
Proof. reflexivity. Qed.

Example scenario_delete_refused :
  execute_sql_query quiet_world fresh_session "delete from customers" []
  = (Ret (Error refusal), []).
Proof. reflexivity. Qed.

Example scenario_short_values :
  execute_sql_query quiet_world fresh_session "insert into t (a, b) values (1)" []
  = (Ret (Error "Query failed: list index out of range"), []).
Proof. reflexivity. Qed.

(** ** Strings: reversal and stripping *)

Lemma srev_involutive : forall s, srev (srev s) = s.
Proof.
  intros s. unfold srev.
  rewrite list_ascii_of_string_of_list_ascii, rev_involutive.
  apply string_of_list_ascii_of_string.
Qed.

Lemma sforall_srev : forall p s, sforall p (srev s) = sforall p s.
Proof.
  intros p s. unfold sforall, srev.
  rewrite list_ascii_of_string_of_list_ascii.
  destruct (forallb p (list_ascii_of_string s)) eqn:E.
  - apply forallb_forall. intros c Hc. apply in_rev in Hc.
    rewrite forallb_forall in E. auto.
  - destruct (forallb p (rev (list_ascii_of_string s))) eqn:E'; [| reflexivity].
    rewrite <- E. symmetry. apply forallb_forall. intros c Hc.
    rewrite forallb_forall in E'. apply E'. apply -> in_rev. exact Hc.
Qed.

Lemma lstrip_by_none :
  forall p s, sforall (fun c => negb (p c)) s = true -> lstrip_by p s = s.
Proof.
  intros p [| c t]; [reflexivity |].
  unfold sforall. simpl. intros H. apply andb_prop in H. destruct H as [H _].
  destruct (p c); [discriminate | reflexivity].
Qed.

Lemma rstrip_by_none :
  forall p s, sforall (fun c => negb (p c)) s = true -> rstrip_by p s = s.
Proof.
  intros p s H. unfold rstrip_by.
  rewrite lstrip_by_none by (rewrite sforall_srev; exact H).
  apply srev_involutive.
Qed.

Lemma strip_none :
  forall s, sforall (fun c => negb (isspace c)) s = true -> strip s = s.
Proof.
  intros s H. unfold strip. rewrite (lstrip_by_none _ _ H).
  apply rstrip_by_none. exact H.
Qed.

Lemma sforall_weaken :
  forall (p q : ascii -> bool) s,
    (forall c, p c = true -> q c = true) ->
    sforall p s = true -> sforall q s = true.
Proof.
  intros p q s Hpq. unfold sforall. rewrite !forallb_forall. auto.
Qed.

Lemma all_digits_sforall : forall s, all_digits s = sforall isdigit_c s.
Proof.
  induction s as [| c t IH]; [reflexivity |].
  unfold sforall in *. simpl. rewrite IH. reflexivity.
Qed.

Lemma digit_not_space : forall c, isdigit_c c = true -> negb (isspace c) = true.
Proof. intros c. by_char c. Qed.

Lemma digit_not_sign :
  forall c, isdigit_c c = true ->
            Ascii.eqb c "+" = false /\ Ascii.eqb c "-" = false
            /\ Ascii.eqb c "." = false /\ Ascii.eqb c squote = false
            /\ Ascii.eqb c dquote = false.
Proof. intros c. by_char c. Qed.

(** ** Strings: quotes, case and digits *)

Lemma startswith_char :
  forall a c t, startswith (String c t) (String a "") = Ascii.eqb a c.
Proof.
  intros a c t. unfold startswith. simpl.
  destruct (ascii_dec a c) as [-> | Hne].
  - rewrite Ascii.eqb_refl. destruct t; reflexivity.
  - symmetry. apply Ascii.eqb_neq. exact Hne.
Qed.

Lemma list_of_append :
  forall a b, list_ascii_of_string (a ++ b)
              = (list_ascii_of_string a ++ list_ascii_of_string b)%list.
Proof.
  induction a as [| c a IH]; intros b; simpl; [reflexivity |].
  rewrite IH. reflexivity.
Qed.

Lemma string_of_app :
  forall l1 l2, string_of_list_ascii (l1 ++ l2)%list
                = string_of_list_ascii l1 ++ string_of_list_ascii l2.
Proof.
  induction l1 as [| c l1 IH]; intros l2; simpl; [reflexivity |].
  rewrite IH. reflexivity.
Qed.

Lemma srev_snoc : forall s c, srev (s ++ String c "") = String c (srev s).
Proof.
  intros s c. unfold srev. rewrite list_of_append, rev_app_distr. reflexivity.
Qed.

Lemma srev_cons : forall s c, srev (String c s) = srev s ++ String c "".
Proof.
  intros s c. unfold srev. simpl. rewrite string_of_app. reflexivity.
Qed.

Lemma length_app :
  forall a b, String.length (a ++ b) = (String.length a + String.length b)%nat.
Proof.
  induction a as [| c a IH]; intros b; simpl; [reflexivity |].
  rewrite IH. reflexivity.
Qed.

Lemma take_app : forall a b, take (String.length a) (a ++ b) = a.
Proof.
  induction a as [| c a IH]; intros b; simpl; [reflexivity |].
  rewrite IH. reflexivity.
Qed.

(** A text between two quote characters: both tests of the ends hold and
    the slice is the text. *)
Lemma wrapped_ends :
  forall q inner,
    let tok := String q (inner ++ String q "") in
    startswith tok (String q "") = true
    /\ endswith tok (String q "") = true
    /\ slice_1_m1 tok = inner.
Proof.
  intros q inner tok. subst tok. repeat split.
  - rewrite startswith_char. apply Ascii.eqb_refl.
  - unfold endswith. change (srev (String q "")) with (String q "").
    rewrite (srev_cons (inner ++ String q "") q), srev_snoc. simpl.
    destruct (ascii_dec q q) as [_ | Hne]; [| contradiction].
    destruct (srev inner ++ String q ""); reflexivity.
  - unfold slice_1_m1. simpl. rewrite length_app. simpl.
    replace (String.length inner + 1 - 1)%nat with (String.length inner) by lia.
    apply take_app.
Qed.

Lemma null_char_cases :
  forall c,
    Ascii.eqb (upper_c c) "N" = Ascii.eqb (lower_c c) "n"
    /\ Ascii.eqb (upper_c c) "U" = Ascii.eqb (lower_c c) "u"
    /\ Ascii.eqb (upper_c c) "L" = Ascii.eqb (lower_c c) "l".
Proof. intros c. by_char c. Qed.

(** Upper-casing to NULL and lower-casing to null are the same test. *)
Lemma upper_null_lower :
  forall tok, String.eqb (upper tok) "NULL" = String.eqb (lower tok) "null".
Proof.
  intros tok.
  destruct tok as [| c1 [| c2 [| c3 [| c4 [| c5 t]]]]]; try reflexivity;
    unfold upper, lower; simpl;
    rewrite ?(proj1 (null_char_cases c1)),
            ?(proj1 (proj2 (null_char_cases c2))),
            ?(proj2 (proj2 (null_char_cases c3))),
            ?(proj2 (proj2 (null_char_cases c4)));
    reflexivity.
Qed.

Lemma quote_not_n :
  forall q, q = squote \/ q = dquote -> Ascii.eqb (upper_c q) "N" = false.
Proof. intros q [-> | ->]; reflexivity. Qed.

Lemma digit_upper_not_n :
  forall c, isdigit_c c = true -> Ascii.eqb (upper_c c) "N" = false.
Proof. intros c. by_char c. Qed.

Lemma contains_cons :
  forall c t sub,
    contains (String c t) sub
    = if startswith (String c t) sub then true else contains t sub.
Proof. reflexivity. Qed.

Lemma contains_dot_digits :
  forall s, all_digits s = true -> contains s "." = false.
Proof.
  induction s as [| c t IH]; intros H; [reflexivity |].
  simpl in H. apply andb_prop in H. destruct H as [Hc Ht].
  destruct (digit_not_sign c Hc) as (_ & _ & Hdot & _).
  rewrite contains_cons, startswith_char, Ascii.eqb_sym, Hdot.
  apply IH. exact Ht.
Qed.

Lemma digits_not_quoted :
  forall s, isdigit s = true -> quoted s = false.
Proof.
  intros [| c t] H; [discriminate |].
  unfold isdigit in H. simpl in H. apply andb_prop in H. destruct H as [Hc _].
  destruct (digit_not_sign c Hc) as (_ & _ & _ & Hs & Hd).
  unfold quoted, single_quoted.
  change "'" with (String squote "").
  rewrite !startswith_char.
  rewrite (Ascii.eqb_sym squote c), (Ascii.eqb_sym dquote c), Hs, Hd.
  reflexivity.
Qed.

(** ** Strings: trimming twice is trimming once *)

Lemma head_clear_lstrip : forall p s, head_clear p (lstrip_by p s) = true.
Proof.
  intros p s. induction s as [| c t IH]; simpl; [reflexivity |].
  destruct (p c) eqn:E; [exact IH |]. simpl. rewrite E. reflexivity.
Qed.

Lemma lstrip_head_clear : forall p s, head_clear p s = true -> lstrip_by p s = s.
Proof.
  intros p [| c t] H; simpl in *; [reflexivity |].
  destruct (p c); [discriminate | reflexivity].
Qed.

Lemma lstrip_suffix : forall p s, exists a, s = a ++ lstrip_by p s.
Proof.
  intros p s. induction s as [| c t [a IH]]; simpl.
  - exists "". reflexivity.
  - destruct (p c).
    + exists (String c a). simpl. rewrite <- IH. reflexivity.
    + exists "". reflexivity.
Qed.

Lemma srev_app : forall a b, srev (a ++ b) = srev b ++ srev a.
Proof.
  intros a b. unfold srev.
  rewrite list_of_append, rev_app_distr. apply string_of_app.
Qed.

Lemma rstrip_prefix : forall p s, exists b, s = rstrip_by p s ++ b.
Proof.
  intros p s. unfold rstrip_by.
  destruct (lstrip_suffix p (srev s)) as [a Ha].
  exists (srev a).
  rewrite <- srev_app, <- Ha. symmetry. apply srev_involutive.
Qed.

Lemma head_clear_rstrip :
  forall p s, head_clear p s = true -> head_clear p (rstrip_by p s) = true.
Proof.
  intros p s H. destruct (rstrip_prefix p s) as [b Hb].
  destruct (rstrip_by p s) as [| c t]; [reflexivity |].
  rewrite Hb in H. exact H.
Qed.

Lemma strip_idempotent : forall s, strip (strip s) = strip s.
Proof.
  intros s. unfold strip at 1.
  rewrite lstrip_head_clear.
  - unfold strip, rstrip_by at 1.
    rewrite lstrip_head_clear.
    + apply srev_involutive.
    + unfold rstrip_by. rewrite srev_involutive. apply head_clear_lstrip.
  - unfold strip. apply head_clear_rstrip, head_clear_lstrip.
Qed.

(** ** Numbers: a run of digits is an integer literal *)

Lemma int_digits_all_digits :
  forall s acc,
    all_digits s = true ->
    int_digits s acc true = Some (decimal_value_from acc s).
Proof.
  induction s as [| c t IH]; intros acc H; simpl in *; [reflexivity |].
  apply andb_prop in H. destruct H as [Hc Ht].
  rewrite Hc. apply IH. exact Ht.
Qed.

Lemma digit_run_all_digits :
  forall s, all_digits s = true -> digit_run s = s.
Proof.
  induction s as [| c t IH]; intros H; [reflexivity |].
  cbn [all_digits] in H. apply andb_prop in H. destruct H as [Hc Ht].
  cbn [digit_run]. rewrite Hc, (IH Ht). reflexivity.
Qed.

Lemma count_digits_all_digits :
  forall s, all_digits s = true -> count_digits s = N.of_nat (String.length s).
Proof.
  induction s as [| c t IH]; intros H; [reflexivity |].
  cbn [all_digits] in H. apply andb_prop in H. destruct H as [Hc Ht].
  cbn [count_digits String.length]. rewrite Hc, (IH Ht). lia.
Qed.

(** [int] on a run of digits: the number it denotes within the limit of
    the interpreter, and beyond it the error that names the limit. *)
Lemma py_int_digits :
  forall s, isdigit s = true ->
            py_int s = (if within_int_limit s then Some (decimal_value s) else None)
            /\ (within_int_limit s = false ->
                py_int_error s = limit_message (count_digits s)).
Proof.
  intros s H. unfold isdigit in H. apply andb_prop in H. destruct H as [Hne Hd].
  unfold py_int, py_int_error.
  rewrite strip_none.
  2:{ rewrite all_digits_sforall in Hd.
      apply (sforall_weaken isdigit_c); [apply digit_not_space | exact Hd]. }
  destruct s as [| c t]; [discriminate |].
  pose proof Hd as Hall.
  simpl in Hd. apply andb_prop in Hd. destruct Hd as [Hc Ht].
  destruct (digit_not_sign c Hc) as (Hplus & Hminus & _).
  assert (Hbody : int_digits (String c t) 0 false = Some (decimal_value (String c t))).
  { simpl. rewrite Hc. apply int_digits_all_digits. exact Ht. }
  assert (H1 : limited (String c t) (int_digits (String c t) 0 false)
               = if within_int_limit (String c t)
                 then Some (decimal_value (String c t)) else None).
  { rewrite Hbody. reflexivity. }
  assert (H2 : within_int_limit (String c t) = false ->
               match int_digits (digit_run (String c t)) 0 false with
               | Some _ =>
                   if within_int_limit (digit_run (String c t))
                   then "invalid literal for int() with base 10: " ++ py_repr (String c t)
                   else limit_message (count_digits (digit_run (String c t)))
               | None => "invalid literal for int() with base 10: " ++ py_repr (String c t)
               end = limit_message (count_digits (String c t))).
  { intros Hl. rewrite (digit_run_all_digits _ Hall), Hbody, Hl. reflexivity. }
  destruct c as [b0 b1 b2 b3 b4 b5 b6 b7].
  destruct b0, b1, b2, b3, b4, b5, b6, b7;
    try (split; [exact H1 | exact H2]);
    try discriminate Hplus; try discriminate Hminus.
Qed.

Lemma py_int_isdigit :
  forall s, isdigit s = true -> within_int_limit s = true ->
            py_int s = Some (decimal_value s).
Proof.
  intros s H Hl. rewrite (proj1 (py_int_digits s H)), Hl. reflexivity.
Qed.

(** Within the limit on the digits, the code and the specification decode
    the token of a WHERE equality alike. *)
Lemma decode_where_predicate_value :
  forall tok, within_int_limit tok = true ->
              decode_where tok = Ret (predicate_value tok).
Proof.
  intros tok Hl. unfold decode_where, predicate_value, single_quoted.
  destruct (startswith tok "'" && endswith tok "'"); [reflexivity |].
  destruct (isdigit tok) eqn:Hd; [| reflexivity].
  rewrite (py_int_isdigit _ Hd Hl). reflexivity.
Qed.


(** Whatever the token, its decoding ends without a call, and it yields a
    value unless the token is a run of digits beyond the limit. *)
Lemma decode_where_cases :
  forall tok,
    (exists v, decode_where tok = Ret v)
    \/ (isdigit tok = true /\ within_int_limit tok = false
        /\ decode_where tok = Raise (limit_message (count_digits tok))).
Proof.
  intros tok. destruct (within_int_limit tok) eqn:Hl.
  - left. eexists. apply decode_where_predicate_value. exact Hl.
  - unfold decode_where.
    destruct (startswith tok "'" && endswith tok "'") eqn:Hq; [left; eauto |].
    destruct (isdigit tok) eqn:Hd; [| left; eauto].
    right. split; [reflexivity | split; [reflexivity |]].
    destruct (py_int_digits tok Hd) as [H1 H2].
    rewrite H1, Hl, (H2 Hl). reflexivity.
Qed.

(** ** Dictionaries *)

Lemma dict_get_none_notin :
  forall (V : Type) (d : dict V) k, dict_get d k = None <-> ~ In k (map fst d).
Proof.
  intros V d k. induction d as [| [k' v] r IH]; simpl.
  - tauto.
  - destruct (String.eqb_spec k k') as [-> | Hne].
    + split; [discriminate | intros H; exfalso; apply H; auto].
    + rewrite IH. split.
      * intros H [E | Hin]; [congruence | auto].
      * intros H Hin. apply H. auto.
Qed.

Lemma dict_set_fresh :
  forall (V : Type) (d : dict V) k v,
    ~ In k (map fst d) -> dict_set d k v = (d ++ [(k, v)])%list.
Proof.
  intros V d k v. induction d as [| [k' v'] r IH]; simpl; intros H.
  - reflexivity.
  - destruct (String.eqb_spec k k') as [-> | Hne].
    + exfalso. apply H. auto.
    + rewrite IH by (intros Hin; apply H; auto). reflexivity.
Qed.

Lemma fold_dict_set_nodup :
  forall (l d : list (string * pyvalue)),
    NoDup (map fst d ++ map fst l)%list ->
    fold_left (fun d kv => dict_set d (fst kv) (snd kv)) l d = (d ++ l)%list.
Proof.
  induction l as [| [k v] l IH]; intros d H; simpl.
  - rewrite app_nil_r. reflexivity.
  - simpl in H. pose proof (NoDup_remove_2 _ _ _ H) as Hk.
    rewrite dict_set_fresh by (intros Hin; apply Hk; apply in_or_app; auto).
    rewrite IH.
    + rewrite <- app_assoc. reflexivity.
    + rewrite map_app, <- app_assoc. simpl. exact H.
Qed.

Lemma dict_of_pairs_nodup :
  forall l, NoDup (map fst l) -> dict_of_pairs l = l.
Proof.
  intros l H. unfold dict_of_pairs. rewrite fold_dict_set_nodup; auto.
Qed.

(** ** The matcher on the keyword pattern *)

Lemma take_all : forall s, take (String.length s) s = s.
Proof.
  induction s as [| c t IH]; simpl; [reflexivity |]. rewrite IH. reflexivity.
Qed.

Lemma consumed_all : forall s, consumed s "" = s.
Proof.
  intros s. unfold consumed. simpl. rewrite Nat.sub_0_r. apply take_all.
Qed.

(** A literal word under [IGNORECASE] is a test of the prefix on the
    lower-cased texts. *)
Lemma run_lits :
  forall (A : Type) (w s : string) (cs : captures)
         (k : string -> captures -> option A),
    run true (lits w) s cs k
    = if String.prefix (lower w) (lower s)
      then k (drop (String.length w) s) cs
      else None.
Proof.
  intros A w. induction w as [| c w IH]; intros s cs k.
  - simpl. destruct (lower s); reflexivity.
  - destruct s as [| d t]; [reflexivity |].
    cbn [lits run lower smap String.length drop String.prefix].
    fold (lower w). fold (lower t).
    destruct (ascii_dec (lower_c c) (lower_c d)) as [E | Hne].
    + rewrite E, Ascii.eqb_refl. apply IH.
    + apply Ascii.eqb_neq in Hne. rewrite Hne. reflexivity.
Qed.

(** A greedy run of any character reads to the end when the rest of the
    pattern accepts the end. *)
Lemma rep_greedy_any :
  forall (A : Type) (s : string) (k : string -> option A) (v : A),
    k "" = Some v -> rep_greedy any_char 0 s k = Some v.
Proof.
  intros A s k v H. induction s as [| c t IH]; simpl.
  - exact H.
  - rewrite IH. reflexivity.
Qed.

Lemma re_match_keyword :
  forall s,
    (begins_with_keyword s = true ->
     exists m, re_match true sql_keyword_re s = Some m /\ whole m = s)
    /\ (begins_with_keyword s = false -> re_match true sql_keyword_re s = None).
Proof.
  intros s. unfold re_match, sql_keyword_re, begins_with_keyword, sql_keywords.
  cbn [run existsb]. rewrite !run_lits.
  destruct (String.prefix (lower "SELECT") (lower s)).
  { split; [intros _ | discriminate].
    erewrite rep_greedy_any by reflexivity.
    eexists. split; [reflexivity | apply consumed_all]. }
  destruct (String.prefix (lower "INSERT") (lower s)).
  { split; [intros _ | discriminate].
    erewrite rep_greedy_any by reflexivity.
    eexists. split; [reflexivity | apply consumed_all]. }
  destruct (String.prefix (lower "UPDATE") (lower s)).
  { split; [intros _ | discriminate].
    erewrite rep_greedy_any by reflexivity.
    eexists. split; [reflexivity | apply consumed_all]. }
  destruct (String.prefix (lower "DELETE") (lower s)).
  { split; [intros _ | discriminate].
    erewrite rep_greedy_any by reflexivity.
    eexists. split; [reflexivity | apply consumed_all]. }
  split; [discriminate | reflexivity].
Qed.

Lemma re_search_keyword :
  forall s,
    match from_first_keyword s with
    | Some suffix =>
        exists m, re_search true sql_keyword_re s = Some m /\ whole m = suffix
    | None => re_search true sql_keyword_re s = None
    end.
Proof.
  induction s as [| c t IH].
  - vm_compute. reflexivity.
  - cbn [from_first_keyword re_search].
    destruct (re_match_keyword (String c t)) as [Hy Hn].
    destruct (begins_with_keyword (String c t)).
    + destruct (Hy eq_refl) as (m & Hm & Hw). rewrite Hm. eauto.
    + rewrite (Hn eq_refl). exact IH.
Qed.

(** The code cleans the text of a candidate as the specification says. *)
Lemma clean_sql_cleaned : forall text0, clean_sql text0 = cleaned text0.
Proof.
  intros text0. unfold clean_sql, cleaned.
  set (t := strip (remove_all "```" (remove_all "```sql" text0))).
  pose proof (re_search_keyword t) as H.
  destruct (from_first_keyword t) as [suffix |].
  - destruct H as (m & -> & <-). reflexivity.
  - rewrite H. apply strip_idempotent.
Qed.

(** ** The executor never lets an exception out *)

Lemma catch_ret_total :
  forall (A : Type) (m : Eff A) (h : string -> A) (log : list call),
    exists a log', catch m (fun e => ret (h e)) log = (Ret a, log').
Proof.
  intros A m h log. unfold catch, ret.
  destruct (m log) as [[a | msg] log']; eauto.
Qed.

Lemma execute_sql_query_returns :
  forall w st query log,
    exists res log', execute_sql_query w st query log = (Ret res, log').
Proof.
  intros w st query log. unfold execute_sql_query.
  destruct (connected st); simpl.
  - apply (catch_ret_total _ _ (fun e => Error ("Query failed: " ++ e))).
  - unfold ret. eauto.
Qed.

(** ** Dispatch on the leading words *)

Lemma prefix_head :
  forall a p s, String.prefix (String a p) s = true -> exists t, s = String a t.
Proof.
  intros a p [| b t]; simpl; [discriminate |].
  destruct (ascii_dec a b) as [-> | _]; [eauto | discriminate].
Qed.

Lemma dispatch_delete :
  forall w query,
    startswith (lower query) "delete from" = true ->
    structured_stage w query = delete_branch w query.
Proof.
  intros w query H. unfold structured_stage, startswith in *.
  destruct (prefix_head _ _ _ H) as [t E]. rewrite E in *.
  simpl in *. rewrite H. reflexivity.
Qed.

Lemma dispatch_update :
  forall w query,
    startswith (lower query) "update" = true ->
    structured_stage w query = update_branch w query.
Proof.
  intros w query H. unfold structured_stage, startswith in *.
  destruct (prefix_head _ _ _ H) as [t E]. rewrite E in *.
  simpl in *. rewrite H. reflexivity.
Qed.

Lemma execute_connected :
  forall w st q,
    connected st = true ->
    execute_sql_query w st q
    = catch (r <- structured_stage w (normalize q) ;;
             match r with
             | Some res => ret res
             | None => raw_stage w (normalize q)
             end)
            (fun e => ret (Error ("Query failed: " ++ e))).
Proof. intros w st q H. unfold execute_sql_query. rewrite H. reflexivity. Qed.

(** ** C1: deletes without a WHERE clause *)

(** The refusal, where the code does give it: the statement passes the
    test on its leading words, matches the pattern, and its WHERE group is
    absent or empty.  No call is made on the store. *)
Lemma delete_without_where_refused :
  forall (w : world) (st : session) (q : string) (m : match_obj),
    connected st = true ->
    startswith (lower (normalize q)) "delete from" = true ->
    re_match true delete_re (normalize q) = Some m ->
    group (groups m) 2 = None \/ group (groups m) 2 = Some "" ->
    execute_sql_query w st q [] = (Ret (Error refusal), []).
Proof.
  intros w st q m Hc Hgate Hm Hw.
  rewrite (execute_connected w st q Hc), (dispatch_delete w _ Hgate).
  unfold catch, bind, delete_branch. rewrite Hm.
  destruct Hw as [-> | ->]; reflexivity.
Qed.

(** C1.  The refusal can be bypassed: a DELETE without WHERE whose two
    leading words are two blanks apart fails the test on the leading words
    and goes to the raw query, so the store is called with it; with a store
    that answers without rows the result is the success message of the raw
    path, not the refusal.  So does a DELETE without WHERE that passes the
    test but not the pattern, its table name being in double quotes. *)
Theorem delete_two_blanks_bypasses_refusal :
  (forall w : world,
      exists (res : exec_result) (rest : list call),
        execute_sql_query w fresh_session "delete  from customers" []
        = (Ret res, primary_rpc "delete  from customers" :: rest)
        /\ res <> Error refusal)
  /\ execute_sql_query quiet_world fresh_session "delete  from customers" []
     = (Ret (Message "The delete operation was executed successfully" None),
        [primary_rpc "delete  from customers"])
  /\ execute_sql_query quiet_world fresh_session delete_quoted_table []
     = (Ret (Message "The delete operation was executed successfully" None),
        [primary_rpc delete_quoted_table]).
Proof.
  split; [| split; reflexivity].
  intros w.
  rewrite (execute_connected w fresh_session _ eq_refl).
  change (normalize "delete  from customers") with "delete  from customers".
  unfold catch, bind.
  change (structured_stage w "delete  from customers" [])
    with (@Ret (option exec_result) None, @nil call).
  unfold raw_stage, perform, primary_rpc, secondary_rpc. simpl app.
  destruct (store w (Rpc "run_sql_query" (Some "delete  from customers")))
    as [resp | e].
  - eexists. eexists. split; [reflexivity |].
    unfold raw_result.
    destruct (error_of resp); [discriminate |].
    destruct (r_data resp) as [d |]; [| discriminate].
    destruct (truthy d); discriminate.
  - destruct (store w (Rpc "run_sql" (Some "delete  from customers")))
      as [resp | e2].
    + eexists. eexists. split; [reflexivity |].
      unfold raw_result.
      destruct (error_of resp); [discriminate |].
      destruct (r_data resp) as [d |]; [| discriminate].
      destruct (truthy d); discriminate.
    + eexists. eexists. split; [reflexivity |]. discriminate.
Qed.

(** ** C2: which guidance the prompt carries *)

Lemma prefix_app : forall s t, String.prefix s (s ++ t) = true.
Proof.
  induction s as [| c s IH]; intros t; simpl.
  - destruct t; reflexivity.
  - destruct (ascii_dec c c) as [_ | Hne]; [apply IH | contradiction].
Qed.

Lemma contains_prefix : forall sub rest, contains (sub ++ rest) sub = true.
Proof.
  intros sub rest.
  assert (U : forall s, String.prefix sub s = true -> contains s sub = true).
  { intros [| c t] H; cbn [contains]; rewrite H; reflexivity. }
  apply U, prefix_app.
Qed.

Lemma contains_app_r :
  forall x y sub, contains y sub = true -> contains (x ++ y) sub = true.
Proof.
  induction x as [| c x IH]; intros y sub H; [exact H |].
  change (String c x ++ y) with (String c (x ++ y)).
  rewrite contains_cons. destruct (startswith (String c (x ++ y)) sub); auto.
Qed.

Lemma sapp_assoc : forall a b c : string, (a ++ b) ++ c = a ++ (b ++ c).
Proof.
  induction a as [| x a IH]; intros b c; simpl; [reflexivity |].
  rewrite IH. reflexivity.
Qed.

(** The guidance stands in the prompt, after the request. *)
Lemma prompt_carries_guidance :
  forall sd prompt tail,
    contains (refined_prompt_of sd prompt)
             (operation_guidance_of (lower prompt)) = true
    /\ (operation_guidance_of (lower prompt) = update_guidance ++ tail ->
        contains (refined_prompt_of sd prompt) update_guidance = true).
Proof.
  intros sd prompt tail. unfold refined_prompt_of.
  split.
  - cbv zeta; do 6 apply contains_app_r. apply contains_prefix.
  - intros ->. cbv zeta; do 6 apply contains_app_r. rewrite sapp_assoc.
    apply contains_prefix.
Qed.

(** C2, as stated, fails: the request below matches the update and the
    delete keywords, and also a select keyword; the guidance differs from
    the one the stated precedence picks, and the prompt does not carry the
    UPDATE guidance. *)
Lemma update_delete_request_gets_select_guidance :
  is_update_of (lower "Update or delete the listed rows") = true
  /\ is_delete_of (lower "Update or delete the listed rows") = true
  /\ operation_guidance_of (lower "Update or delete the listed rows")
     <> guidance_by_precedence stated_precedence
                               (lower "Update or delete the listed rows")
  /\ contains (refined_prompt_of None "Update or delete the listed rows")
              update_guidance = false.
Proof.
  split; [reflexivity | split; [reflexivity | split]].
  - vm_compute. discriminate.
  - vm_compute. reflexivity.
Qed.

(** C2, amended.  The guidance is chosen by the fixed precedence select,
    insert, update, delete, the first match in that order, and it stands in
    the composed prompt; for an input that matches both the update and the
    delete keywords and neither the select nor the insert keywords, it is
    the UPDATE guidance, which the prompt then contains. *)
Theorem guidance_follows_coded_precedence :
  forall (sd : option schema_result) (prompt : string),
    operation_guidance_of (lower prompt)
    = guidance_by_precedence coded_precedence (lower prompt)
    /\ contains (refined_prompt_of sd prompt)
                (operation_guidance_of (lower prompt)) = true
    /\ (is_update_of (lower prompt) = true ->
        is_delete_of (lower prompt) = true ->
        is_select_of (lower prompt) = false ->
        is_insert_of (lower prompt) = false ->
        operation_guidance_of (lower prompt)
        = update_guidance ++ row_id_line (row_id_of (lower prompt))
        /\ contains (refined_prompt_of sd prompt) update_guidance = true).
Proof.
  intros sd prompt. split; [| split].
  - unfold operation_guidance_of, coded_precedence. simpl.
    destruct (is_select_of (lower prompt)); [reflexivity |].
    destruct (is_insert_of (lower prompt)); [reflexivity |].
    destruct (is_update_of (lower prompt)); [reflexivity |].
    destruct (is_delete_of (lower prompt)); reflexivity.
  - apply (prompt_carries_guidance sd prompt "").
  - intros Hu Hd Hs Hi.
    assert (E : operation_guidance_of (lower prompt)
                = update_guidance ++ row_id_line (row_id_of (lower prompt))).
    { unfold operation_guidance_of. rewrite Hs, Hi, Hu. reflexivity. }
    split; [exact E |].
    exact (proj2 (prompt_carries_guidance sd prompt _) E).
Qed.

Lemma guidance_follows_coded_precedence_witness :
  operation_guidance_of (lower "Update or delete row 7")
  = update_guidance ++ nl ++ "- Use 'WHERE id = 7' as the condition"
  /\ contains (refined_prompt_of None "Update or delete row 7") update_guidance = true.
Proof.
  exact (proj2 (proj2 (guidance_follows_coded_precedence None "Update or delete row 7"))
           eq_refl eq_refl eq_refl eq_refl).
Defined.

(** ** C3: the value tokens of INSERT and UPDATE *)

Lemma quote_not_space :
  forall q, q = squote \/ q = dquote -> isspace q = false.
Proof. intros q [-> | ->]; reflexivity. Qed.

Lemma strip_wrapped :
  forall q inner,
    q = squote \/ q = dquote ->
    strip (String q (inner ++ String q "")) = String q (inner ++ String q "").
Proof.
  intros q inner Hq. unfold strip, rstrip_by. simpl lstrip_by.
  rewrite (quote_not_space q Hq).
  rewrite (srev_cons (inner ++ String q "") q), srev_snoc. simpl.
  rewrite (quote_not_space q Hq).
  rewrite (srev_cons (srev inner ++ String q "") q), srev_snoc, srev_involutive.
  reflexivity.
Qed.

Lemma decode_value_not_null :
  forall tok,
    String.eqb (lower tok) "null" = false ->
    decode_value tok
    = if quoted tok then VStr (slice_1_m1 tok)
      else if contains tok "."
           then match py_float tok with Some d => VFloat d | None => VStr tok end
           else match py_int tok with Some n => VInt n | None => VStr tok end.
Proof.
  intros tok H. unfold decode_value. rewrite upper_null_lower, H. reflexivity.
Qed.

(** C3, as stated, fails: an unquoted token with a dot that is not a float
    literal stays a string, and a signed integer, which is neither all
    digits nor dotted, becomes an integer rather than the raw string. *)
Lemma dotted_token_kept_raw :
  (quoted "1.2.3" = false /\ contains "1.2.3" "." = true
   /\ decode_value "1.2.3" = VStr "1.2.3"
   /\ forall d, decode_value "1.2.3" <> VFloat d)
  /\
  (String.eqb (lower "-5") "null" = false /\ quoted "-5" = false
   /\ isdigit "-5" = false /\ contains "-5" "." = false
   /\ decode_value "-5" = VInt (-5)
   /\ decode_value "-5" <> VStr "-5").
Proof.
  repeat split; try reflexivity; intros; vm_compute; discriminate.
Qed.

(** C3, amended.  NULL in any letter case decodes to null.  A text between
    two single quotes or between two double quotes decodes to that text, in
    the INSERT loop and in the UPDATE loop alike, both using [decode_value];
    more generally a token that passes the test of the quotes loses its
    first and last character.  A token made of the digits 0 to 9 decodes to
    the integer it denotes when it has at most 4300 of them, and to itself
    beyond, where [int] refuses it.  Any other token with a dot decodes to
    a float if [float] accepts it and to itself otherwise; any other token
    without a dot decodes to an integer if [int] accepts it and to itself
    otherwise. *)
Theorem decode_value_cases :
  forall tok : string,
    (lower tok = "null" -> decode_value tok = VNone)
    /\ (forall q inner,
           q = squote \/ q = dquote ->
           tok = String q (inner ++ String q "") ->
           decode_value tok = VStr inner
           /\ insert_data ["c"] [tok] 0 [] = Ret [("c", VStr inner)]
           /\ update_data ["c=" ++ tok] [] = [("c", VStr inner)])
    /\ (lower tok <> "null" -> quoted tok = true ->
        decode_value tok = VStr (slice_1_m1 tok))
    /\ (isdigit tok = true ->
        decode_value tok
        = if within_int_limit tok then VInt (decimal_value tok) else VStr tok)
    /\ (lower tok <> "null" -> quoted tok = false -> contains tok "." = true ->
        decode_value tok
        = match py_float tok with Some d => VFloat d | None => VStr tok end)
    /\ (lower tok <> "null" -> quoted tok = false -> contains tok "." = false ->
        decode_value tok
        = match py_int tok with Some n => VInt n | None => VStr tok end).
Proof.
  intros tok.
  assert (Hneq : lower tok <> "null" -> String.eqb (lower tok) "null" = false).
  { intros H. apply String.eqb_neq. exact H. }
  split; [| split; [| split; [| split; [| split]]]].
  - intros H. unfold decode_value. rewrite upper_null_lower, H. reflexivity.
  - intros q inner Hq ->.
    assert (Hdec : decode_value (String q (inner ++ String q "")) = VStr inner).
    { destruct (wrapped_ends q inner) as (Hs & He & Hsl).
      unfold decode_value.
      replace (String.eqb (upper (String q (inner ++ String q ""))) "NULL")
        with false.
      2:{ unfold upper. simpl. rewrite (quote_not_n q Hq). reflexivity. }
      destruct Hq as [-> | ->].
      - change "'" with (String squote "").
        rewrite Hs, He, Hsl. reflexivity.
      - rewrite Hs, He, Hsl. rewrite orb_true_r. reflexivity. }
    split; [exact Hdec | split].
    + simpl. rewrite Hdec. reflexivity.
    + unfold update_data.
      assert (Hc : contains ("c=" ++ String q (inner ++ String q "")) "=" = true)
        by reflexivity.
      rewrite Hc.
      change (map strip (split1 "=" ("c=" ++ String q (inner ++ String q ""))))
        with ["c"; strip (String q (inner ++ String q ""))].
      rewrite (strip_wrapped q inner Hq), Hdec. reflexivity.
  - intros Hn Hq. rewrite (decode_value_not_null _ (Hneq Hn)), Hq. reflexivity.
  - intros Hd.
    assert (Hn : String.eqb (lower tok) "null" = false).
    { destruct tok as [| c t]; [discriminate |].
      unfold isdigit in Hd. simpl in Hd. apply andb_prop in Hd. destruct Hd as [Hc _].
      rewrite <- upper_null_lower. unfold upper. simpl.
      rewrite (digit_upper_not_n c Hc). reflexivity. }
    rewrite (decode_value_not_null _ Hn), (digits_not_quoted _ Hd).
    rewrite contains_dot_digits, (proj1 (py_int_digits _ Hd)).
    + destruct (within_int_limit tok); reflexivity.
    + unfold isdigit in Hd. apply andb_prop in Hd. apply Hd.
  - intros Hn Hq Hdot.
    rewrite (decode_value_not_null _ (Hneq Hn)), Hq, Hdot. reflexivity.
  - intros Hn Hq Hdot.
    rewrite (decode_value_not_null _ (Hneq Hn)), Hq, Hdot. reflexivity.
Qed.

Lemma decode_value_cases_witness :
  decode_value "nUlL" = VNone
  /\ decode_value "'O Brien'" = VStr "O Brien"
  /\ decode_value "0042" = VInt 42
  /\ decode_value long_digits = VStr long_digits
  /\ decode_value "42.5" = VFloat (S754_finite false 5981343255101440 (-47))
  /\ decode_value "now()" = VStr "now()".
Proof.
  split; [| split; [| split; [| split; [| split]]]].
  - exact (proj1 (decode_value_cases "nUlL") eq_refl).
  - exact (proj1 (proj1 (proj2 (decode_value_cases "'O Brien'"))
                    squote "O Brien" (or_introl eq_refl) eq_refl)).
  - exact (proj1 (proj2 (proj2 (proj2 (decode_value_cases "0042")))) eq_refl).
  - refine (eq_trans (proj1 (proj2 (proj2 (proj2 (decode_value_cases long_digits)))) _) _);
      vm_compute; reflexivity.
  - refine (proj1 (proj2 (proj2 (proj2 (proj2 (decode_value_cases "42.5")))))
                  _ eq_refl eq_refl).
    vm_compute. discriminate.
  - refine (proj2 (proj2 (proj2 (proj2 (proj2 (decode_value_cases "now()")))))
                  _ eq_refl eq_refl).
    vm_compute. discriminate.
Defined.

(* The property of C4 stands at the end of the file, after the lemmas on
   the patterns that its proof uses. *)

(** ** C5: schema discovery *)

Lemma dict_get_set_same :
  forall (V : Type) (d : dict V) k v, dict_get (dict_set d k v) k = Some v.
Proof.
  intros V d k v. induction d as [| [k' v'] r IH]; simpl.
  - rewrite String.eqb_refl. reflexivity.
  - destruct (String.eqb_spec k k') as [-> | Hne]; simpl.
    + rewrite String.eqb_refl. reflexivity.
    + destruct (String.eqb_spec k k'); [contradiction | exact IH].
Qed.

Lemma dict_get_set_other :
  forall (V : Type) (d : dict V) k k' v,
    k' <> k -> dict_get (dict_set d k v) k' = dict_get d k'.
Proof.
  intros V d k k' v Hne. induction d as [| [k0 v0] r IH]; simpl.
  - destruct (String.eqb_spec k' k); [contradiction | reflexivity].
  - destruct (String.eqb_spec k k0) as [-> | Hk]; simpl.
    + destruct (String.eqb_spec k' k0); [contradiction | reflexivity].
    + destruct (String.eqb_spec k' k0); [reflexivity | exact IH].
Qed.

(** The loop groups the columns by table, in the order of the rows, after
    what the mapping already holds. *)
Lemma group_rows_lookup :
  forall (rows : list (dict string)) (pairs : list (string * string)) (acc : schema),
    row_pairs rows = Some pairs ->
    exists sch,
      group_rows rows acc = Ret sch
      /\ forall t,
          dict_get sch t
          = match dict_get acc t with
            | Some l => Some (l ++ columns_of t pairs)%list
            | None => match columns_of t pairs with
                      | [] => None
                      | cs => Some cs
                      end
            end.
Proof.
  induction rows as [| entry rest IH]; intros pairs acc H; simpl in H.
  - injection H as <-. exists acc. split; [reflexivity |].
    intros t. unfold columns_of. simpl.
    destruct (dict_get acc t); [rewrite app_nil_r |]; reflexivity.
  - destruct (dict_get entry "table_name") as [table |] eqn:Et; [| discriminate].
    destruct (dict_get entry "column_name") as [column |] eqn:Ec; [| discriminate].
    destruct (row_pairs rest) as [ps |] eqn:Er; [| discriminate].
    injection H as <-.
    cbn [group_rows]. rewrite Et, Ec.
    set (sch1 := if dict_has acc table then acc else dict_set acc table []).
    set (cols := match dict_get sch1 table with Some l => l | None => [] end).
    destruct (IH ps (dict_set sch1 table (cols ++ [column])%list) eq_refl)
      as (sch & Hrun & Hget).
    exists sch. split; [exact Hrun |].
    intros t. rewrite Hget. unfold columns_of. cbn [filter fst map snd].
    destruct (String.eqb_spec table t) as [<- | Hne].
    + rewrite dict_get_set_same. subst cols sch1. unfold dict_has.
      destruct (dict_get acc table) as [l |] eqn:Ea.
      * rewrite Ea. rewrite <- app_assoc. reflexivity.
      * rewrite dict_get_set_same. reflexivity.
    + rewrite dict_get_set_other by congruence.
      assert (E1 : dict_get sch1 t = dict_get acc t).
      { subst sch1. destruct (dict_has acc table); [reflexivity |].
        apply dict_get_set_other. congruence. }
      rewrite E1. reflexivity.
Qed.

Lemma schema_primary_fails :
  forall w : world,
    (exists e, discover w primary_discovery = Raise e)
    \/ (exists r d, discover w primary_discovery = Ret r
                    /\ r_data r = Some d /\ truthy d = false) ->
    schema_primary w [] = (Ret None, [primary_discovery]).
Proof.
  intros w H. unfold schema_primary, catch, bind, perform_discovery.
  fold primary_discovery. simpl.
  destruct H as [[e ->] | (r & d & -> & Hd & Ht)].
  - reflexivity.
  - unfold attr_data. rewrite Hd. unfold ret. rewrite Ht. reflexivity.
Qed.

(** C5, as stated, fails: when the first two discovery calls raise and the
    third has rows, the fetch ends with the error built from the second
    fault; the third call is not made. *)
Lemma secondary_fault_ends_discovery :
  (exists e, discover two_faults_world primary_discovery = Raise e)
  /\ (exists e, discover two_faults_world secondary_discovery = Raise e)
  /\ (exists r row rows, discover two_faults_world tertiary_discovery = Ret r
                         /\ r_data r = Some (Some (row :: rows)))
  /\ get_supabase_schema two_faults_world fresh_session []
     = (Ret (SchemaError
               "Exception occurred while fetching schema: no function run_sql_query"),
        [primary_discovery; secondary_discovery])
  /\ forall sch, fst (get_supabase_schema two_faults_world fresh_session [])
                 <> Ret (SchemaOk sch).
Proof.
  split; [eexists; reflexivity |].
  split; [eexists; reflexivity |].
  split; [do 3 eexists; split; reflexivity |].
  split; [reflexivity |].
  intros sch. vm_compute. discriminate.
Qed.

(** C5, amended.  The fetch first makes the structured discovery call.
    When that call raises or has no rows, it makes the raw query under its
    first name; when this answers without rows, it makes the raw query under
    its second name; when this has rows, the fetch returns the mapping built
    from these rows alone, each table with its columns in the order of the
    rows.  When the raw query under its first name raises, the fetch returns
    an error and the third call is not made. *)
Theorem schema_from_tertiary_rows :
  forall (w : world) (st : session),
    connected st = true ->
    (exists e, discover w primary_discovery = Raise e)
    \/ (exists r d, discover w primary_discovery = Ret r
                    /\ r_data r = Some d /\ truthy d = false) ->
    (forall r2 d2 r3 row rows pairs,
        discover w secondary_discovery = Ret r2 ->
        r_data r2 = Some d2 -> truthy d2 = false ->
        discover w tertiary_discovery = Ret r3 ->
        r_data r3 = Some (Some (row :: rows)) ->
        row_pairs (row :: rows) = Some pairs ->
        exists sch,
          get_supabase_schema w st []
          = (Ret (SchemaOk sch),
             [primary_discovery; secondary_discovery; tertiary_discovery])
          /\ forall t, dict_get sch t
                       = match columns_of t pairs with
                         | [] => None
                         | cs => Some cs
                         end)
    /\ (forall e2,
           discover w secondary_discovery = Raise e2 ->
           get_supabase_schema w st []
           = (Ret (SchemaError ("Exception occurred while fetching schema: " ++ e2)),
              [primary_discovery; secondary_discovery])).
Proof.
  intros w st Hc Hprim.
  pose proof (schema_primary_fails w Hprim) as Hp.
  split.
  - intros r2 d2 r3 row rows pairs H2 Hd2 Ht2 H3 Hd3 Hpairs.
    destruct (group_rows_lookup (row :: rows) pairs [] Hpairs) as (sch & Hrun & Hget).
    exists sch. split; [| exact Hget].
    clear Hget. unfold get_supabase_schema. rewrite Hc. change (negb true) with false.
    unfold catch, bind. cbv beta iota. rewrite Hp.
    unfold perform_discovery. fold secondary_discovery. rewrite H2.
    unfold attr_data at 1. rewrite Hd2. unfold ret at 1. rewrite Ht2.
    change (negb false) with true. cbv beta iota.
    fold tertiary_discovery. rewrite H3.
    unfold attr_data. rewrite Hd3. unfold ret at 1.
    cbn [truthy]. unfold lift. rewrite Hrun. reflexivity.
  - intros e2 H2.
    unfold get_supabase_schema. rewrite Hc. change (negb true) with false.
    unfold catch, bind. cbv beta iota. rewrite Hp.
    unfold perform_discovery. fold secondary_discovery. rewrite H2. reflexivity.
Qed.

Lemma schema_from_tertiary_rows_witness :
  exists sch,
    get_supabase_schema tertiary_world fresh_session []
    = (Ret (SchemaOk sch),
       [primary_discovery; secondary_discovery; tertiary_discovery])
    /\ forall t, dict_get sch t
                 = match columns_of t [("orders", "id"); ("items", "sku");
                                       ("orders", "total")] with
                   | [] => None
                   | cs => Some cs
                   end.
Proof.
  refine (proj1 (schema_from_tertiary_rows tertiary_world fresh_session eq_refl
                   (or_introl (ex_intro _ "no function get_table_schema" eq_refl)))
                _ (Some []) _ _ _ _ eq_refl eq_refl eq_refl eq_refl eq_refl eq_refl).
Defined.

(** ** C6: the statement returned by the synthesizer *)



(** ** C7: a synthesis error ends the request *)

(** C7.  When synthesis yields an error, [handle_database_query] returns
    that error with no statement, makes no call on the store and leaves the
    session, hence the history, as it was; a response of the generation
    endpoint with a status other than 200 is such a case, the error being
    the body of the response. *)
Theorem synthesis_error_returned_unexecuted :
  forall (w : world) (st : session) (input : string),
    connected st = true ->
    (forall msg,
        nl_to_sql_gemini w st input = SynError msg ->
        handle_database_query w st input = (Handled (Error msg) None, st, []))
    /\
    (forall resp,
        generate w (refined_prompt_of (schema_data st) input) = Ret resp ->
        status_code resp <> 200%Z ->
        handle_database_query w st input
        = (Handled (Error ("Gemini API error: " ++ text resp)) None, st, [])).
Proof.
  intros w st input Hc. split.
  - intros msg Hsyn. unfold handle_database_query.
    rewrite Hc, Hsyn. reflexivity.
  - intros resp Hgen Hstatus. unfold handle_database_query.
    rewrite Hc. simpl.
    unfold nl_to_sql_gemini. rewrite Hc, Hgen. simpl.
    destruct (Z.eqb_spec (status_code resp) 200) as [E | _]; [contradiction |].
    reflexivity.
Qed.

Lemma synthesis_error_returned_unexecuted_witness :
  handle_database_query failing_endpoint fresh_session "show all orders"
  = (Handled (Error "Gemini API error: internal error") None, fresh_session, []).
Proof.
  refine (proj2 (synthesis_error_returned_unexecuted failing_endpoint fresh_session
                   "show all orders" eq_refl) _ eq_refl _).
  simpl. discriminate.
Defined.

(** ** C8: what a successful raw query returns *)

Lemma no_mutation_none :
  forall q,
    first_mentioned ["insert"; "update"; "delete"] q = None ->
    (contains q "insert" || contains q "update" || contains q "delete") = false.
Proof.
  intros q. unfold first_mentioned. simpl.
  destruct (contains q "insert"); [discriminate |].
  destruct (contains q "update"); [discriminate |].
  destruct (contains q "delete"); [discriminate | reflexivity].
Qed.

Lemma first_mentioned_mutation :
  forall q op,
    first_mentioned ["insert"; "update"; "delete"] q = Some op ->
    (contains q "insert" || contains q "update" || contains q "delete") = true
    /\ op = (if contains q "insert" then "insert"
             else if contains q "update" then "update" else "delete").
Proof.
  intros q op. unfold first_mentioned. simpl.
  destruct (contains q "insert"); [intros [= <-]; auto |].
  destruct (contains q "update"); [intros [= <-]; auto |].
  destruct (contains q "delete"); [intros [= <-]; auto | discriminate].
Qed.

(** The raw stage, when one of its two calls answers. *)
Lemma raw_stage_answer :
  forall (w : world) (query : string) (resp : response row) (log : list call),
    store w (primary_rpc query) = Ret resp
    \/ ((exists e, store w (primary_rpc query) = Raise e)
        /\ store w (secondary_rpc query) = Ret resp) ->
    fst (raw_stage w query log) = Ret (raw_result query resp).
Proof.
  intros w query resp log H. unfold raw_stage, perform, primary_rpc, secondary_rpc in *.
  destruct H as [H | [[e H1] H2]].
  - rewrite H. reflexivity.
  - rewrite H1, H2. reflexivity.
Qed.

(** C8.  A statement that reaches the raw query, one of whose two calls
    answers with a response without a truthy error: row data is returned as
    it is; a data attribute without rows gives, when the lower-cased
    statement contains insert, update or delete, the message naming the
    first of the three, in that order, that it contains, and the empty row
    set otherwise; a response without a data attribute gives the warning.
    The empty row set and the warning are different results. *)
Theorem raw_success_outcomes :
  forall (w : world) (st : session) (q : string) (resp : response row),
    connected st = true ->
    structured_stage w (normalize q) [] = (Ret None, []) ->
    store w (primary_rpc (normalize q)) = Ret resp
    \/ ((exists e, store w (primary_rpc (normalize q)) = Raise e)
        /\ store w (secondary_rpc (normalize q)) = Ret resp) ->
    error_of resp = None ->
    let res := fst (execute_sql_query w st q []) in
    (forall rows, r_data resp = Some (Some rows) -> rows <> [] ->
                  res = Ret (Data (Some rows)))
    /\ (forall d op,
           r_data resp = Some d -> truthy d = false ->
           first_mentioned ["insert"; "update"; "delete"] (lower (normalize q)) = Some op ->
           res = Ret (Message ("The " ++ op ++ " operation was executed successfully") None))
    /\ (forall d,
           r_data resp = Some d -> truthy d = false ->
           first_mentioned ["insert"; "update"; "delete"] (lower (normalize q)) = None ->
           res = Ret (Data (Some [])))
    /\ (r_data resp = None ->
        res = Ret (Warning "Query executed but returned no data attribute"))
    /\ Data (Some []) <> Warning "Query executed but returned no data attribute".
Proof.
  intros w st q resp Hc Hstruct Hans Herr res.
  assert (Hres : res = Ret (raw_result (normalize q) resp)).
  { subst res. rewrite (execute_connected w st q Hc).
    unfold catch, bind. rewrite Hstruct.
    pose proof (raw_stage_answer w (normalize q) resp [] Hans) as Hraw.
    destruct (raw_stage w (normalize q) []) as [[r | e] log']; simpl in *;
      [exact Hraw | discriminate]. }
  rewrite Hres. unfold raw_result. rewrite Herr.
  repeat split.
  - intros rows Hd Hne. rewrite Hd.
    destruct rows; [contradiction | reflexivity].
  - intros d op Hd Ht Hop. rewrite Hd, Ht.
    destruct (first_mentioned_mutation _ _ Hop) as [Hany ->].
    rewrite Hany. reflexivity.
  - intros d Hd Ht Hnone. rewrite Hd, Ht, (no_mutation_none _ Hnone). reflexivity.
  - intros Hd. rewrite Hd. reflexivity.
  - discriminate.
Qed.

Lemma raw_success_outcomes_witness :
  fst (execute_sql_query quiet_world fresh_session "select * from updates;" [])
  = Ret (Message "The update operation was executed successfully" None).
Proof.
  refine (proj1 (proj2 (raw_success_outcomes quiet_world fresh_session
                          "select * from updates;" empty_response
                          eq_refl eq_refl (or_introl eq_refl) eq_refl))
                (Some []) "update" eq_refl eq_refl _).
  vm_compute. reflexivity.
Defined.

(** ** C9: an INSERT with more values than columns *)

Lemma nth_error_skipn :
  forall (A : Type) (l : list A) i x,
    nth_error l i = Some x -> skipn i l = x :: skipn (S i) l.
Proof.
  intros A l. induction l as [| a l IH]; intros [| i] x H; simpl in *;
    try discriminate.
  - injection H as ->. reflexivity.
  - apply IH. exact H.
Qed.

(** The loop reads the value at the position of each column and nothing
    else. *)
Lemma insert_data_combine :
  forall (columns values : list string) (i : nat) (data : dict pyvalue),
    (i + List.length columns <= List.length values)%nat ->
    insert_data columns values i data
    = Ret (fold_left (fun d kv => dict_set d (fst kv) (snd kv))
                     (combine columns (map decode_value (skipn i values))) data).
Proof.
  induction columns as [| column rest IH]; intros values i data H; simpl in *.
  - reflexivity.
  - destruct (nth_error values i) as [value |] eqn:E.
    + rewrite IH by lia. rewrite (nth_error_skipn _ _ _ _ E). reflexivity.
    + apply nth_error_None in E. lia.
Qed.

Lemma combine_firstn :
  forall (A B : Type) (l : list A) (l' : list B),
    combine l (firstn (List.length l) l') = combine l l'.
Proof.
  intros A B l. induction l as [| a l IH]; intros [| b l']; simpl; auto.
  rewrite IH. reflexivity.
Qed.

Lemma map_fst_combine :
  forall (A B : Type) (l : list A) (l' : list B),
    (List.length l <= List.length l')%nat -> map fst (combine l l') = l.
Proof.
  intros A B l. induction l as [| a l IH]; intros [| b l'] H; simpl in *;
    try reflexivity; try lia.
  rewrite IH by lia. reflexivity.
Qed.

(** C9.  An INSERT that passes the test on its leading words and matches
    the pattern, with more value tokens than columns: the store receives
    one call, the structured insert of the dictionary built by assigning to
    each listed column, in order, the decoded token at its position; the
    tokens past the last column play no part (the same dictionary comes from
    the value list cut to the number of columns), and the result is that of
    the store's answer alone.  With distinct column names the dictionary is
    exactly the list of those pairs. *)
Theorem surplus_values_discarded :
  forall (w : world) (st : session) (q : string) (m : match_obj),
    connected st = true ->
    startswith (lower (normalize q)) "insert into" = true ->
    re_match true insert_re (normalize q) = Some m ->
    let columns := map strip (split "," (group_str m 2)) in
    let values := map strip (split "," (group_str m 3)) in
    (List.length columns < List.length values)%nat ->
    let pairs := combine columns (map decode_value values) in
    let c := TableInsert (group_str m 1) (dict_of_pairs pairs) in
    execute_sql_query w st q []
    = (Ret (match store w c with
            | Ret r => insert_result r
            | Raise e => Error ("Query failed: " ++ e)
            end), [c])
    /\ pairs = combine columns
                 (map decode_value (firstn (List.length columns) values))
    /\ (NoDup columns -> dict_of_pairs pairs = pairs).
Proof.
  intros w st q m Hc Hgate Hm columns values Hlen pairs c.
  split; [| split].
  - rewrite (execute_connected w st q Hc).
    unfold structured_stage. rewrite Hgate.
    unfold catch, bind, insert_branch. rewrite Hm.
    fold columns. fold values. unfold bind, lift.
    rewrite insert_data_combine by (simpl; lia).
    simpl skipn. fold pairs. unfold perform.
    change (fold_left (fun d kv => dict_set d (fst kv) (snd kv)) pairs [])
      with (dict_of_pairs pairs).
    simpl. fold c. destruct (store w c); reflexivity.
  - unfold pairs. symmetry. rewrite <- firstn_map. apply combine_firstn.
  - intros Hnd. apply dict_of_pairs_nodup. unfold pairs.
    rewrite map_fst_combine; [exact Hnd |].
    rewrite length_map. lia.
Qed.

Lemma surplus_values_discarded_witness :
  execute_sql_query quiet_world fresh_session
    "insert into orders (customer, amount) values ('Alice', 42, 'extra', 9)" []
  = (Ret (Data (Some [])),
     [TableInsert "orders" [("customer", VStr "Alice"); ("amount", VInt 42)]]).
Proof.
  exact (proj1 (surplus_values_discarded quiet_world fresh_session
           "insert into orders (customer, amount) values ('Alice', 42, 'extra', 9)"
           {| whole := "insert into orders (customer, amount) values ('Alice', 42, 'extra', 9)";
              groups := [(3%nat, "'Alice', 42, 'extra', 9");
                         (2%nat, "customer, amount");
                         (1%nat, "orders")] |}
           eq_refl eq_refl eq_refl ltac:(vm_compute; lia))).
Defined.

(** ** C10: the history *)

(** C10.  When synthesis returns a statement, the run ends with exactly
    one entry appended to the history, made of the input, the statement
    and the result of its execution, whatever that result is, an error
    included; the earlier entries, the cached schema and the connection
    flag are unchanged. *)
Theorem one_history_entry_per_statement :
  forall (w : world) (st : session) (input sql : string),
    connected st = true ->
    nl_to_sql_gemini w st input = Sql sql ->
    exists (res : exec_result) (log : list call) (st' : session),
      execute_sql_query w st sql [] = (Ret res, log)
      /\ handle_database_query w st input = (Handled res (Some sql), st', log)
      /\ query_history st'
         = (query_history st
            ++ [ {| user_input := input; sql_query := sql; result := res |} ])%list
      /\ schema_data st' = schema_data st
      /\ connected st' = connected st.
Proof.
  intros w st input sql Hc Hsyn.
  destruct (execute_sql_query_returns w st sql []) as (res & log & Hex).
  exists res, log.
  eexists. split; [exact Hex |].
  unfold handle_database_query. rewrite Hc, Hsyn. simpl. rewrite Hex.
  split; [reflexivity |]. simpl. auto.
Qed.

Lemma one_history_entry_per_statement_witness :
  exists (res : exec_result) (log : list call) (st' : session),
    execute_sql_query (answering_world "delete from customers") fresh_session
                      "delete from customers" [] = (Ret res, log)
    /\ handle_database_query (answering_world "delete from customers") fresh_session
                             "remove every customer"
       = (Handled res (Some "delete from customers"), st', log)
    /\ query_history st'
       = (query_history fresh_session
          ++ [ {| user_input := "remove every customer";
                  sql_query := "delete from customers"; result := res |} ])%list
    /\ schema_data st' = schema_data fresh_session
    /\ connected st' = connected fresh_session.
Proof.
  apply (one_history_entry_per_statement
           (answering_world "delete from customers") fresh_session
           "remove every customer" "delete from customers").
  - reflexivity.
  - vm_compute. reflexivity.
Defined.

(** * Further properties of the code *)

(** ** Faults stay inside the functions *)

Lemma get_supabase_schema_returns :
  forall w st log,
    exists r log', get_supabase_schema w st log = (Ret r, log').
Proof.
  intros w st log. unfold get_supabase_schema.
  destruct (connected st); simpl.
  - apply (catch_ret_total _ _
             (fun e => SchemaError ("Exception occurred while fetching schema: " ++ e))).
  - unfold ret. eauto.
Qed.

(** X1.  Neither the executor nor the schema fetch lets an exception out:
    whatever the store does, and from any log, each returns a value. *)
Theorem remote_faults_contained :
  forall (w : world) (st : session) (q : string) (log : list call),
    (exists res log', execute_sql_query w st q log = (Ret res, log'))
    /\ (exists r log', get_supabase_schema w st log = (Ret r, log')).
Proof.
  intros w st q log. split.
  - apply execute_sql_query_returns.
  - apply get_supabase_schema_returns.
Qed.

(** ** The calls that an execution makes *)

Lemma insert_branch_shape :
  forall w q log,
    exists o calls, insert_branch w q log = (o, (log ++ calls)%list)
                    /\ branch_shape o calls.
Proof.
  intros w q log. unfold insert_branch.
  destruct (re_match true insert_re q) as [m |].
  - unfold bind, lift.
    destruct (insert_data _ _ 0 []) as [data | e].
    + unfold perform.
      destruct (store w (TableInsert (group_str m 1) data)) as [resp | e];
        eexists; eexists; (split; [reflexivity |]); right;
        (split; [discriminate | right; eexists; split; reflexivity]).
    + exists (Raise e), []. rewrite app_nil_r. split; [reflexivity |].
      right. split; [discriminate | left; reflexivity].
  - exists (Ret None), []. rewrite app_nil_r. split; [reflexivity |].
    left. split; reflexivity.
Qed.

Lemma update_branch_shape :
  forall w q log,
    exists o calls, update_branch w q log = (o, (log ++ calls)%list)
                    /\ branch_shape o calls.
Proof.
  intros w q log. unfold update_branch.
  destruct (re_match true update_re q) as [m |].
  - destruct (re_match false where_re (group_str m 3)) as [wm |].
    + unfold bind, lift.
      destruct (decode_where _) as [v | e0].
      * unfold perform.
        match goal with |- context [store w ?c] => destruct (store w c) as [resp | e] end;
          eexists; eexists; (split; [reflexivity |]); right;
          (split; [discriminate | right; eexists; split; reflexivity]).
      * exists (Raise e0), []. rewrite app_nil_r. split; [reflexivity |].
        right. split; [discriminate | left; reflexivity].
    + exists (Ret None), []. rewrite app_nil_r. split; [reflexivity |].
      left. split; reflexivity.
  - exists (Ret None), []. rewrite app_nil_r. split; [reflexivity |].
    left. split; reflexivity.
Qed.

Lemma delete_branch_shape :
  forall w q log,
    exists o calls, delete_branch w q log = (o, (log ++ calls)%list)
                    /\ branch_shape o calls.
Proof.
  intros w q log. unfold delete_branch.
  assert (Hrefuse : exists o calls,
             ret (Some (Error refusal)) log = (o, (log ++ calls)%list)
             /\ branch_shape o calls).
  { exists (Ret (Some (Error refusal))), []. rewrite app_nil_r.
    split; [reflexivity |]. right. split; [discriminate | left; reflexivity]. }
  destruct (re_match true delete_re q) as [m |].
  - destruct (group (groups m) 2) as [[| a wc] |]; try exact Hrefuse.
    destruct (re_match false where_re (String a wc)) as [wm |].
    + unfold bind, lift.
      destruct (decode_where _) as [v | e0].
      * unfold perform.
        match goal with |- context [store w ?c] => destruct (store w c) as [resp | e] end;
          eexists; eexists; (split; [reflexivity |]); right;
          (split; [discriminate | right; eexists; split; reflexivity]).
      * exists (Raise e0), []. rewrite app_nil_r. split; [reflexivity |].
        right. split; [discriminate | left; reflexivity].
    + exists (Ret None), []. rewrite app_nil_r. split; [reflexivity |].
      left. split; reflexivity.
  - exists (Ret None), []. rewrite app_nil_r. split; [reflexivity |].
    left. split; reflexivity.
Qed.

Lemma structured_stage_shape :
  forall w q log,
    exists o calls, structured_stage w q log = (o, (log ++ calls)%list)
                    /\ branch_shape o calls.
Proof.
  intros w q log. unfold structured_stage.
  destruct (startswith (lower q) "insert into"); [apply insert_branch_shape |].
  destruct (startswith (lower q) "update"); [apply update_branch_shape |].
  destruct (startswith (lower q) "delete from"); [apply delete_branch_shape |].
  exists (Ret None), []. rewrite app_nil_r. split; [reflexivity |].
  left. split; reflexivity.
Qed.

Lemma raw_stage_log :
  forall w query log,
    exists res calls,
      raw_stage w query log = (Ret res, (log ++ calls)%list)
      /\ (calls = [primary_rpc query]
          \/ calls = [primary_rpc query; secondary_rpc query]).
Proof.
  intros w query log. unfold raw_stage, perform.
  fold (primary_rpc query). fold (secondary_rpc query).
  destruct (store w (primary_rpc query)) as [resp | e].
  - eexists. eexists. split; [reflexivity | left; reflexivity].
  - destruct (store w (secondary_rpc query)) as [resp | e2];
      rewrite <- app_assoc; eexists; eexists;
      (split; [reflexivity | right; reflexivity]).
Qed.

(** X2.  The calls that one execution adds to the log are of four shapes
    only: none; a single structured call; the raw query under its first
    name; the raw query under its first, then its second name.  So a
    structured call is never followed by a raw query, and the raw query
    carries the statement as trimmed by line 235. *)
Theorem execution_call_shapes :
  forall (w : world) (st : session) (q : string) (log : list call),
    exists calls,
      snd (execute_sql_query w st q log) = (log ++ calls)%list
      /\ (calls = []
          \/ (exists c, calls = [c] /\ is_structured c = true)
          \/ calls = [primary_rpc (normalize q)]
          \/ calls = [primary_rpc (normalize q); secondary_rpc (normalize q)]).
Proof.
  intros w st q log.
  destruct (connected st) eqn:Hc.
  - rewrite (execute_connected w st q Hc). unfold catch, bind.
    destruct (structured_stage_shape w (normalize q) log)
      as (o & calls & -> & [[-> ->] | [Hne Hcalls]]).
    + rewrite app_nil_r.
      destruct (raw_stage_log w (normalize q) log) as (res & calls & -> & Hcalls).
      exists calls. split; [reflexivity |]. tauto.
    + exists calls. split.
      * destruct o as [[res |] | e]; try reflexivity. contradiction.
      * tauto.
  - unfold execute_sql_query. rewrite Hc. exists []. rewrite app_nil_r.
    split; [reflexivity | left; reflexivity].
Qed.

(** X3.  A statement whose leading words are none of insert into, update
    and delete from goes to the raw query.  If the first name answers, the
    second is not tried; if both raise, the result is the error built from
    the second fault. *)
Theorem raw_fallback_chain :
  forall (w : world) (st : session) (q : string),
    connected st = true ->
    startswith (lower (normalize q)) "insert into" = false ->
    startswith (lower (normalize q)) "update" = false ->
    startswith (lower (normalize q)) "delete from" = false ->
    (forall resp,
        store w (primary_rpc (normalize q)) = Ret resp ->
        execute_sql_query w st q []
        = (Ret (raw_result (normalize q) resp), [primary_rpc (normalize q)]))
    /\ (forall e1 resp,
           store w (primary_rpc (normalize q)) = Raise e1 ->
           store w (secondary_rpc (normalize q)) = Ret resp ->
           execute_sql_query w st q []
           = (Ret (raw_result (normalize q) resp),
              [primary_rpc (normalize q); secondary_rpc (normalize q)]))
    /\ (forall e1 e2,
           store w (primary_rpc (normalize q)) = Raise e1 ->
           store w (secondary_rpc (normalize q)) = Raise e2 ->
           execute_sql_query w st q []
           = (Ret (Error ("Query failed: " ++ e2)),
              [primary_rpc (normalize q); secondary_rpc (normalize q)])).
Proof.
  intros w st q Hc Hi Hu Hd.
  rewrite (execute_connected w st q Hc).
  unfold catch, bind, structured_stage. rewrite Hi, Hu, Hd.
  unfold ret, raw_stage, perform.
  fold (primary_rpc (normalize q)). fold (secondary_rpc (normalize q)).
  repeat split.
  - intros resp ->. reflexivity.
  - intros e1 resp -> ->. reflexivity.
  - intros e1 e2 -> ->. reflexivity.
Qed.

Lemma raw_fallback_chain_witness :
  execute_sql_query down_world fresh_session "select 1;" []
  = (Ret (Error "Query failed: connection reset"),
     [primary_rpc "select 1"; secondary_rpc "select 1"]).
Proof.
  exact (proj2 (proj2 (raw_fallback_chain down_world fresh_session "select 1;"
                         eq_refl eq_refl eq_refl eq_refl))
           "connection reset" "connection reset" eq_refl eq_refl).
Defined.

(** ** Schema discovery: its calls and its mapping *)

Lemma dict_set_keys_nodup :
  forall (V : Type) (d : dict V) k v,
    NoDup (map fst d) -> NoDup (map fst (dict_set d k v)).
Proof.
  intros V d k v H.
  destruct (dict_get d k) eqn:E.
  - assert (Hk : map fst (dict_set d k v) = map fst d).
    { clear H. induction d as [| [k' v'] r IH]; [discriminate |].
      simpl in *. destruct (String.eqb_spec k k') as [-> | Hne]; simpl.
      - reflexivity.
      - rewrite (IH E). reflexivity. }
    rewrite Hk. exact H.
  - apply dict_get_none_notin in E.
    rewrite dict_set_fresh by exact E.
    rewrite map_app. simpl.
    apply NoDup_app; [exact H | repeat constructor; auto | ].
    intros x Hx [<- | []]. contradiction.
Qed.

Lemma group_rows_keys_nodup :
  forall rows acc sch,
    NoDup (map fst acc) -> group_rows rows acc = Ret sch -> NoDup (map fst sch).
Proof.
  induction rows as [| entry rest IH]; intros acc sch Hacc H; simpl in H.
  - injection H as <-. exact Hacc.
  - destruct (dict_get entry "table_name") as [table |]; [| discriminate].
    destruct (dict_get entry "column_name") as [column |]; [| discriminate].
    apply IH in H; [exact H |].
    apply dict_set_keys_nodup.
    destruct (dict_has acc table); [exact Hacc | apply dict_set_keys_nodup, Hacc].
Qed.

Lemma group_rows_missing_key :
  forall rows acc,
    row_pairs rows = None -> exists msg, group_rows rows acc = Raise msg.
Proof.
  induction rows as [| entry rest IH]; intros acc H; simpl in H; [discriminate |].
  simpl.
  destruct (dict_get entry "table_name") as [table |]; [| eauto].
  destruct (dict_get entry "column_name") as [column |]; [| eauto].
  destruct (row_pairs rest) eqn:E; [discriminate |].
  apply IH. reflexivity.
Qed.

(** X4.  The grouping of discovery rows.  When every row carries both
    keys, the result lists each table of the rows, and no other, once: a
    table is a key exactly when some row names it, and it then holds the
    columns of its rows, in the order of the rows; in particular every
    column of every row stands under its table.  When some row lacks a
    key, the grouping raises. *)
Theorem grouping_of_rows :
  forall rows : list (dict string),
    match row_pairs rows with
    | Some pairs =>
        exists sch,
          group_rows rows [] = Ret sch
          /\ NoDup (map fst sch)
          /\ (forall t, dict_get sch t
                        = match columns_of t pairs with
                          | [] => None
                          | cs => Some cs
                          end)
          /\ (forall t c, In (t, c) pairs ->
                          exists cs, dict_get sch t = Some cs /\ In c cs)
    | None => exists msg, group_rows rows [] = Raise msg
    end.
Proof.
  intros rows. destruct (row_pairs rows) as [pairs |] eqn:E.
  - destruct (group_rows_lookup rows pairs [] E) as (sch & Hrun & Hget).
    exists sch. split; [exact Hrun | split; [| split]].
    + apply (group_rows_keys_nodup rows [] sch); [constructor | exact Hrun].
    + intros t. rewrite Hget. reflexivity.
    + intros t c Hin.
      assert (Hc : In c (columns_of t pairs)).
      { unfold columns_of. apply in_map_iff. exists (t, c). split; [reflexivity |].
        apply filter_In. split; [exact Hin | apply String.eqb_refl]. }
      rewrite Hget. cbn [dict_get].
      destruct (columns_of t pairs) as [| c0 cs0]; [contradiction |].
      eexists. split; [reflexivity | exact Hc].
  - apply group_rows_missing_key. exact E.
Qed.

(** X5.  The calls of a schema fetch are the three discovery calls in
    their fixed order, cut after the first, the second or the third; a
    connected session always makes the first, a disconnected one none. *)
Theorem discovery_call_order :
  forall (w : world) (st : session),
    exists r calls,
      get_supabase_schema w st [] = (Ret r, calls)
      /\ (if connected st
          then calls = [primary_discovery]
               \/ calls = [primary_discovery; secondary_discovery]
               \/ calls = [primary_discovery; secondary_discovery; tertiary_discovery]
          else calls = [] /\ r = SchemaError "Not connected to database").
Proof.
  intros w st. unfold get_supabase_schema.
  destruct (connected st); cbn [negb].
  2:{ eexists. eexists. split; [reflexivity | split; reflexivity]. }
  assert (Hp : exists o, schema_primary w [] = (Ret o, [primary_discovery])).
  { unfold schema_primary, catch, bind, perform_discovery.
    fold primary_discovery. simpl.
    destruct (discover w primary_discovery) as [r1 | e];
      [| cbv [ret]; eauto].
    unfold attr_data, ret, raise, lift.
    destruct (r_data r1) as [d |]; [| cbv [ret]; eauto].
    destruct (truthy d); [| cbv [ret]; eauto].
    destruct (group_rows _ []); cbv [ret]; eauto. }
  destruct Hp as [o Hp].
  unfold catch at 1, bind at 1. cbv beta iota. rewrite Hp.
  destruct o as [sch |].
  { eexists. eexists. split; [reflexivity | left; reflexivity]. }
  unfold bind, perform_discovery. fold secondary_discovery. simpl app.
  destruct (discover w secondary_discovery) as [r2 | e2].
  2:{ eexists. eexists. split; [reflexivity | right; left; reflexivity]. }
  unfold attr_data at 1.
  destruct (r_data r2) as [d2 |] eqn:Hd2.
  2:{ eexists. eexists. split; [reflexivity | right; left; reflexivity]. }
  unfold ret at 1.
  destruct (truthy d2) eqn:Ht2; cbn [negb].
  - unfold ret at 1. unfold attr_data. rewrite Hd2. unfold ret at 1. rewrite Ht2.
    unfold lift. destruct (group_rows _ []);
      eexists; eexists; (split; [reflexivity | right; left; reflexivity]).
  - fold tertiary_discovery. simpl app.
    destruct (discover w tertiary_discovery) as [r3 | e3].
    2:{ eexists. eexists. split; [reflexivity | right; right; reflexivity]. }
    unfold attr_data.
    destruct (r_data r3) as [d3 |].
    2:{ eexists. eexists. split; [reflexivity | right; right; reflexivity]. }
    unfold ret at 1. destruct (truthy d3).
    + unfold lift. destruct (group_rows _ []);
        eexists; eexists; (split; [reflexivity | right; right; reflexivity]).
    + eexists. eexists. split; [reflexivity | right; right; reflexivity].
Qed.

(** X6.  When the first discovery call answers with rows that carry both
    keys, the fetch returns the mapping of these rows and makes no other
    call. *)
Theorem primary_rows_suffice :
  forall (w : world) (st : session) (r1 : response (dict string))
         (row : dict string) (rows : list (dict string))
         (pairs : list (string * string)),
    connected st = true ->
    discover w primary_discovery = Ret r1 ->
    r_data r1 = Some (Some (row :: rows)) ->
    row_pairs (row :: rows) = Some pairs ->
    exists sch,
      get_supabase_schema w st [] = (Ret (SchemaOk sch), [primary_discovery])
      /\ forall t, dict_get sch t
                   = match columns_of t pairs with
                     | [] => None
                     | cs => Some cs
                     end.
Proof.
  intros w st r1 row rows pairs Hc H1 Hd Hp.
  destruct (group_rows_lookup (row :: rows) pairs [] Hp) as (sch & Hrun & Hget).
  exists sch. split; [| exact Hget]. clear Hget.
  unfold get_supabase_schema. rewrite Hc. change (negb true) with false.
  unfold catch at 1, bind at 1. cbv beta iota.
  assert (E : schema_primary w [] = (Ret (Some sch), [primary_discovery])).
  { unfold schema_primary, catch, bind, perform_discovery.
    fold primary_discovery. rewrite H1.
    unfold attr_data. rewrite Hd. unfold ret at 1. cbn [truthy].
    unfold lift. rewrite Hrun. reflexivity. }
  rewrite E. reflexivity.
Qed.

Lemma primary_rows_suffice_witness :
  exists sch,
    get_supabase_schema primary_rows_world fresh_session []
    = (Ret (SchemaOk sch), [primary_discovery])
    /\ forall t, dict_get sch t
                 = match columns_of t [("orders", "id"); ("orders", "total")] with
                   | [] => None
                   | cs => Some cs
                   end.
Proof.
  exact (primary_rows_suffice primary_rows_world fresh_session _ _ _ _
           eq_refl eq_refl eq_refl eq_refl).
Defined.

(** ** INSERT: the value list against the column list *)

Lemma insert_data_short :
  forall (columns values : list string) (i : nat) (data : dict pyvalue),
    (i <= List.length values)%nat ->
    (List.length values < i + List.length columns)%nat ->
    insert_data columns values i data = Raise "list index out of range".
Proof.
  induction columns as [| column rest IH]; intros values i data Hi H; simpl in *.
  - lia.
  - destruct (nth_error values i) as [value |] eqn:E; [| reflexivity].
    assert (i < List.length values)%nat by (apply nth_error_Some; congruence).
    apply IH; lia.
Qed.

(** X7.  An INSERT that passes the test on its leading words and matches
    the pattern, with fewer value tokens than columns, ends with the error
    of the failed index; no call is made on the store. *)
Theorem missing_values_fail_before_store :
  forall (w : world) (st : session) (q : string) (m : match_obj),
    connected st = true ->
    startswith (lower (normalize q)) "insert into" = true ->
    re_match true insert_re (normalize q) = Some m ->
    (List.length (split "," (group_str m 3))
     < List.length (split "," (group_str m 2)))%nat ->
    execute_sql_query w st q []
    = (Ret (Error "Query failed: list index out of range"), []).
Proof.
  intros w st q m Hc Hgate Hm Hlen.
  rewrite (execute_connected w st q Hc).
  unfold structured_stage. rewrite Hgate.
  unfold catch, bind, insert_branch. rewrite Hm.
  unfold bind, lift.
  rewrite insert_data_short by (rewrite !length_map; simpl; lia).
  reflexivity.
Qed.

Lemma missing_values_fail_before_store_witness :
  execute_sql_query down_world fresh_session
    "INSERT INTO orders (customer, amount, note) VALUES ('Alice', 42)" []
  = (Ret (Error "Query failed: list index out of range"), []).
Proof.
  exact (missing_values_fail_before_store down_world fresh_session
           "INSERT INTO orders (customer, amount, note) VALUES ('Alice', 42)"
           {| whole := "INSERT INTO orders (customer, amount, note) VALUES ('Alice', 42)";
              groups := [(3%nat, "'Alice', 42");
                         (2%nat, "customer, amount, note");
                         (1%nat, "orders")] |}
           eq_refl eq_refl eq_refl ltac:(vm_compute; lia)).
Defined.

Lemma dict_get_app :
  forall (V : Type) (d1 d2 : dict V) k,
    dict_get (d1 ++ d2)%list k
    = match dict_get d1 k with
      | Some v => Some v
      | None => dict_get d2 k
      end.
Proof.
  intros V d1 d2 k. induction d1 as [| [k' v'] r IH]; simpl; [reflexivity |].
  destruct (String.eqb k k'); [reflexivity | exact IH].
Qed.

(** Assigning pairs in turn: a key holds the value of its last pair. *)
Lemma fold_dict_set_lookup :
  forall (l acc : list (string * pyvalue)) k,
    dict_get (fold_left (fun d kv => dict_set d (fst kv) (snd kv)) l acc) k
    = match dict_get (rev l) k with
      | Some v => Some v
      | None => dict_get acc k
      end.
Proof.
  induction l as [| [k0 v0] l IH]; intros acc k; simpl; [reflexivity |].
  rewrite IH, dict_get_app. simpl.
  destruct (dict_get (rev l) k); [reflexivity |].
  destruct (String.eqb_spec k k0) as [-> | Hne].
  - apply dict_get_set_same.
  - apply dict_get_set_other. exact Hne.
Qed.

Lemma fold_dict_set_keys_nodup :
  forall (l acc : list (string * pyvalue)),
    NoDup (map fst acc) ->
    NoDup (map fst (fold_left (fun d kv => dict_set d (fst kv) (snd kv)) l acc)).
Proof.
  induction l as [| [k0 v0] l IH]; intros acc H; simpl; [exact H |].
  apply IH, dict_set_keys_nodup, H.
Qed.

(** X8.  With at least as many value tokens as columns, the loop of the
    INSERT branch builds a dictionary in which every column stands once; a
    column listed several times holds the decoded token of its last
    position. *)
Theorem repeated_column_keeps_last :
  forall (columns values : list string),
    (List.length columns <= List.length values)%nat ->
    exists data,
      insert_data columns values 0 [] = Ret data
      /\ NoDup (map fst data)
      /\ forall c, dict_get data c
                   = dict_get (rev (combine columns (map decode_value values))) c.
Proof.
  intros columns values H.
  eexists. split; [apply insert_data_combine; simpl; exact H |].
  simpl skipn. split.
  - apply fold_dict_set_keys_nodup. constructor.
  - intros c. rewrite fold_dict_set_lookup.
    destruct (dict_get (rev (combine columns (map decode_value values))) c);
      reflexivity.
Qed.

Lemma repeated_column_keeps_last_witness :
  exists data,
    insert_data ["a"; "b"; "a"] ["1"; "2"; "3"] 0 [] = Ret data
    /\ NoDup (map fst data)
    /\ forall c, dict_get data c
                 = dict_get (rev (combine ["a"; "b"; "a"]
                                          (map decode_value ["1"; "2"; "3"]))) c.
Proof.
  exact (repeated_column_keeps_last ["a"; "b"; "a"] ["1"; "2"; "3"]
           ltac:(simpl; lia)).
Defined.

(** ** The token of a WHERE equality against a value token *)

Lemma decimal_value_from_nonneg :
  forall s acc, (0 <= acc)%Z -> (0 <= decimal_value_from acc s)%Z.
Proof.
  induction s as [| c t IH]; intros acc H; cbn [decimal_value_from]; [exact H |].
  apply IH. unfold digit_val. lia.
Qed.

(** X9.  The token of a WHERE equality, for an ASCII token: it never
    decodes to null, to a float or to a negative integer.  It decodes to a
    string or to a natural number, and the one case in which the decoding
    raises is a run of more than 4300 digits, refused by [int].  The word
    NULL, in any letter case, stays the string it is, whereas as a value
    token it is null. *)
Theorem where_token_range :
  forall tok : string,
    isascii tok = true ->
    ((exists s, decode_where tok = Ret (VStr s))
     \/ (exists n, decode_where tok = Ret (VInt n) /\ (0 <= n)%Z)
     \/ (isdigit tok = true /\ within_int_limit tok = false
         /\ decode_where tok = Raise (limit_message (count_digits tok))))
    /\ (lower tok = "null" ->
        decode_where tok = Ret (VStr tok) /\ decode_value tok = VNone).
Proof.
  intros tok _. split.
  - destruct (decode_where_cases tok) as [[v Hv] | H]; [| right; right; exact H].
    revert Hv. unfold decode_where.
    destruct (startswith tok "'" && endswith tok "'"); [intros _; left; eauto |].
    destruct (isdigit tok) eqn:Hd; [| intros _; left; eauto].
    rewrite (proj1 (py_int_digits tok Hd)).
    destruct (within_int_limit tok); [| discriminate].
    intros _. right. left. eexists. split; [reflexivity |].
    apply decimal_value_from_nonneg. lia.
  - intros H. split.
    + unfold decode_where.
      destruct tok as [| c1 [| c2 [| c3 [| c4 [| c5 t]]]]]; try discriminate H.
      unfold lower in H. simpl in H.
      injection H as H1 H2 H3 H4.
      assert (Hq : single_quoted (String c1 (String c2 (String c3 (String c4 "")))) = false).
      { unfold single_quoted. change "'" with (String squote "").
        rewrite startswith_char.
        destruct (Ascii.eqb_spec squote c1) as [<- | _]; [discriminate H1 | reflexivity]. }
      assert (Hd : isdigit (String c1 (String c2 (String c3 (String c4 "")))) = false).
      { unfold isdigit. simpl.
        destruct (isdigit_c c1) eqn:E; [| reflexivity].
        exfalso. revert E H1. clear. by_char c1. }
      unfold single_quoted in Hq. rewrite Hq, Hd. reflexivity.
    + unfold decode_value. rewrite upper_null_lower, H. reflexivity.
Qed.

Lemma where_token_range_witness :
  decode_where "NULL" = Ret (VStr "NULL") /\ decode_value "NULL" = VNone.
Proof.
  exact (proj2 (where_token_range "NULL" eq_refl) eq_refl).
Defined.

(** ** Numeric literals among the value tokens *)

Lemma sforall_app :
  forall p a b, sforall p (a ++ b) = sforall p a && sforall p b.
Proof.
  intros p a b. unfold sforall. rewrite list_of_append. apply forallb_app.
Qed.

Lemma int_digits_isdigit :
  forall s, isdigit s = true -> int_digits s 0 false = Some (decimal_value s).
Proof.
  intros [| c t] H; [discriminate |].
  unfold isdigit in H. simpl in H. apply andb_prop in H. destruct H as [Hc Ht].
  cbn [int_digits]. rewrite Hc. apply int_digits_all_digits. exact Ht.
Qed.

Lemma isdigit_all_digits : forall s, isdigit s = true -> all_digits s = true.
Proof.
  intros s H. unfold isdigit in H. apply andb_prop in H. apply H.
Qed.

Lemma digits_no_space :
  forall s, all_digits s = true -> sforall (fun c => negb (isspace c)) s = true.
Proof.
  intros s H. rewrite all_digits_sforall in H.
  apply (sforall_weaken isdigit_c); [apply digit_not_space | exact H].
Qed.

(** X10.  A run of at most 4300 of the digits 0 to 9 after a minus or a
    plus sign, as a value token of an INSERT or an UPDATE, decodes to the
    integer of that sign. *)
Theorem signed_integer_tokens :
  forall ds : string,
    isdigit ds = true ->
    within_int_limit ds = true ->
    decode_value ("-" ++ ds) = VInt (- decimal_value ds)
    /\ decode_value ("+" ++ ds) = VInt (decimal_value ds).
Proof.
  intros ds H Hl. pose proof (isdigit_all_digits ds H) as Hall.
  assert (Hgen : forall sg : ascii,
             (sg = "-" \/ sg = "+")%char ->
             decode_value (String sg ds)
             = match py_int (String sg ds) with
               | Some n => VInt n
               | None => VStr (String sg ds)
               end).
  { intros sg Hsg. unfold decode_value.
    assert (E1 : String.eqb (upper (String sg ds)) "NULL" = false)
      by (destruct Hsg as [-> | ->]; reflexivity).
    assert (E2 : contains (String sg ds) "." = false).
    { rewrite contains_cons, startswith_char.
      replace (Ascii.eqb "." sg) with false by (destruct Hsg as [-> | ->]; reflexivity).
      apply contains_dot_digits, Hall. }
    rewrite E1, E2. change "'" with (String squote "").
    rewrite !startswith_char.
    replace (Ascii.eqb squote sg) with false by (destruct Hsg as [-> | ->]; reflexivity).
    replace (Ascii.eqb dquote sg) with false by (destruct Hsg as [-> | ->]; reflexivity).
    reflexivity. }
  assert (Hstrip : forall sg : ascii,
             (sg = "-" \/ sg = "+")%char -> strip (String sg ds) = String sg ds).
  { intros sg Hsg. apply strip_none.
    change (String sg ds) with (String sg "" ++ ds).
    rewrite sforall_app, (digits_no_space ds Hall).
    destruct Hsg as [-> | ->]; reflexivity. }
  split.
  - change ("-" ++ ds) with (String "-" ds).
    rewrite (Hgen "-"%char (or_introl eq_refl)).
    unfold py_int. rewrite (Hstrip "-"%char (or_introl eq_refl)).
    rewrite (int_digits_isdigit ds H). unfold limited. rewrite Hl. reflexivity.
  - change ("+" ++ ds) with (String "+" ds).
    rewrite (Hgen "+"%char (or_intror eq_refl)).
    unfold py_int. rewrite (Hstrip "+"%char (or_intror eq_refl)).
    rewrite (int_digits_isdigit ds H). unfold limited. rewrite Hl. reflexivity.
Qed.

Lemma signed_integer_tokens_witness :
  decode_value "-17" = VInt (-17) /\ decode_value "+17" = VInt 17.
Proof.
  exact (signed_integer_tokens "17" eq_refl eq_refl).
Defined.

Lemma append_nil_r_local : forall s : string, s ++ "" = s.
Proof.
  induction s as [| c t IH]; simpl; [reflexivity |]. rewrite IH. reflexivity.
Qed.

Lemma take_digits_app :
  forall ds rest acc n,
    all_digits ds = true ->
    head_clear isdigit_c rest = true ->
    take_digits (ds ++ rest) acc n
    = (decimal_value_from acc ds, (n + String.length ds)%nat, rest).
Proof.
  induction ds as [| c t IH]; intros rest acc n Hd Hr.
  - cbn [append decimal_value_from String.length]. rewrite Nat.add_0_r.
    destruct rest as [| d r]; [reflexivity |].
    cbn [head_clear] in Hr. cbn [take_digits].
    destruct (isdigit_c d); [discriminate | reflexivity].
  - cbn [all_digits] in Hd. apply andb_prop in Hd. destruct Hd as [Hc Ht].
    cbn [append take_digits decimal_value_from String.length]. rewrite Hc.
    rewrite (IH rest _ (S n) Ht Hr). f_equal. f_equal. lia.
Qed.

Lemma decimal_value_from_app :
  forall a b acc,
    decimal_value_from acc (a ++ b)
    = decimal_value_from (decimal_value_from acc a) b.
Proof.
  induction a as [| c t IH]; intros b acc; cbn [append decimal_value_from];
    [reflexivity | apply IH].
Qed.

Lemma no_underscore_ok :
  forall s prev,
    sforall (fun c => negb (Ascii.eqb c "_")) s = true ->
    underscores_ok s prev = true /\ drop_underscores s = s.
Proof.
  induction s as [| c t IH]; intros prev H; [split; reflexivity |].
  unfold sforall in H. simpl in H. apply andb_prop in H. destruct H as [Hc Ht].
  cbn [underscores_ok drop_underscores].
  destruct (Ascii.eqb c "_"); [discriminate |].
  destruct (IH (isdigit_c c) Ht) as [H1 H2]. rewrite H1, H2. split; reflexivity.
Qed.

Lemma digit_not_underscore :
  forall c, isdigit_c c = true -> negb (Ascii.eqb c "_") = true.
Proof. intros c. by_char c. Qed.

Lemma unsigned_head :
  forall c rest,
    Ascii.eqb c "+" = false -> Ascii.eqb c "-" = false ->
    match String c rest with
    | String "+" u => (false, u)
    | String "-" u => (true, u)
    | _ => (false, String c rest)
    end = (false, String c rest).
Proof.
  intros c rest Hp Hm.
  destruct c as [b0 b1 b2 b3 b4 b5 b6 b7].
  destruct b0, b1, b2, b3, b4, b5, b6, b7;
    try reflexivity; try discriminate Hp; discriminate Hm.
Qed.

(** The facts about a literal made of digits around one dot that the
    decoding goes through. *)
Lemma plain_decimal_facts :
  forall ip fp,
    all_digits ip = true -> all_digits fp = true ->
    let tok := ip ++ String "." fp in
    String.eqb (upper tok) "NULL" = false
    /\ quoted tok = false
    /\ contains tok "." = true
    /\ strip tok = tok
    /\ underscores_ok tok false = true
    /\ drop_underscores tok = tok
    /\ exists c rest, tok = String c rest
                      /\ Ascii.eqb c "+" = false /\ Ascii.eqb c "-" = false.
Proof.
  intros ip fp Hi Hf tok.
  assert (Hhead : exists c rest,
             tok = String c rest
             /\ (isdigit_c c = true \/ c = "."%char)).
  { subst tok. destruct ip as [| c t].
    - exists "."%char, fp. split; [reflexivity | right; reflexivity].
    - cbn [all_digits] in Hi. apply andb_prop in Hi.
      exists c, (t ++ String "." fp). split; [reflexivity | left; apply Hi]. }
  destruct Hhead as (c & rest & Etok & Hc).
  assert (Hsym : Ascii.eqb (upper_c c) "N" = false
                 /\ Ascii.eqb squote c = false /\ Ascii.eqb dquote c = false
                 /\ Ascii.eqb c "+" = false /\ Ascii.eqb c "-" = false).
  { destruct Hc as [Hc | ->]; [| repeat split; reflexivity].
    destruct (digit_not_sign c Hc) as (H1 & H2 & _ & H4 & H5).
    rewrite (Ascii.eqb_sym squote c), (Ascii.eqb_sym dquote c).
    repeat split; auto. apply digit_upper_not_n, Hc. }
  destruct Hsym as (Hn & Hsq & Hdq & Hplus & Hminus).
  assert (Hns : sforall (fun c => negb (isspace c)) tok = true).
  { subst tok. change (String "." fp) with ("." ++ fp).
    rewrite !sforall_app, (digits_no_space ip Hi), (digits_no_space fp Hf).
    reflexivity. }
  assert (Hnu : sforall (fun c => negb (Ascii.eqb c "_")) tok = true).
  { subst tok. change (String "." fp) with ("." ++ fp).
    rewrite !sforall_app.
    rewrite all_digits_sforall in Hi, Hf.
    rewrite (sforall_weaken isdigit_c _ ip digit_not_underscore Hi).
    rewrite (sforall_weaken isdigit_c _ fp digit_not_underscore Hf).
    reflexivity. }
  repeat split.
  - rewrite Etok. unfold upper. simpl. rewrite Hn. reflexivity.
  - rewrite Etok. unfold quoted, single_quoted.
    change "'" with (String squote "").
    rewrite !startswith_char, Hsq, Hdq. reflexivity.
  - subst tok. apply contains_app_r.
    apply (contains_prefix "." fp).
  - apply strip_none, Hns.
  - apply (no_underscore_ok tok false Hnu).
  - apply (no_underscore_ok tok false Hnu).
  - exists c, rest. auto.
Qed.

(** X11.  A value token made of the digits 0 to 9, a dot and digits, with
    a digit on at least one side, is read as the decimal number it writes,
    all the digits as one number scaled down by the number of digits after
    the dot, and decodes to the binary64 float nearest to that number. *)
Theorem plain_decimal_tokens :
  forall ip fp : string,
    all_digits ip = true -> all_digits fp = true ->
    (String.length ip + String.length fp <> 0)%nat ->
    decode_value (ip ++ "." ++ fp)
    = VFloat (to_double {| d_neg := false;
                           d_digits := decimal_value (ip ++ fp);
                           d_exp := - Z.of_nat (String.length fp) |}).
Proof.
  intros ip fp Hi Hf Hlen.
  change (ip ++ "." ++ fp) with (ip ++ String "." fp).
  destruct (plain_decimal_facts ip fp Hi Hf)
    as (Hn & Hq & Hdot & Hstrip & Hu & Hdrop & c & rest & Etok & Hplus & Hminus).
  unfold quoted, single_quoted in Hq.
  unfold decode_value. rewrite Hn, Hq, Hdot.
  unfold py_float. rewrite Hstrip, Hu, Hdrop.
  unfold parse_decimal. rewrite Etok, (unsigned_head c rest Hplus Hminus).
  rewrite <- Etok.
  rewrite (take_digits_app ip (String "." fp) 0 0 Hi eq_refl).
  rewrite <- (append_nil_r_local fp) at 1.
  rewrite (take_digits_app fp "" _ 0 Hf eq_refl).
  cbn [Nat.add].
  destruct (String.length ip + String.length fp)%nat eqn:E; [contradiction |].
  cbn [parse_exponent].
  rewrite <- decimal_value_from_app. reflexivity.
Qed.

Lemma plain_decimal_tokens_witness :
  decode_value "42.50" = VFloat (S754_finite false 5981343255101440 (-47))
  /\ decode_value "9007199254740993.0"
     = VFloat (S754_finite false 4503599627370496 1).
Proof.
  split.
  - exact (plain_decimal_tokens "42" "50" eq_refl eq_refl ltac:(discriminate)).
  - exact (plain_decimal_tokens "9007199254740993" "0" eq_refl eq_refl
             ltac:(discriminate)).
Defined.

(** ** The matcher on texts of a known shape *)

Lemma lower_app : forall a b, lower (a ++ b) = lower a ++ lower b.
Proof.
  induction a as [| c a IH]; intros b; [reflexivity |].
  unfold lower in *. simpl. rewrite IH. reflexivity.
Qed.

Lemma drop_app : forall a b, drop (String.length a) (a ++ b) = b.
Proof.
  induction a as [| c a IH]; intros b; [reflexivity | exact (IH b)].
Qed.

Lemma consumed_app : forall a b, consumed (a ++ b) b = a.
Proof.
  intros a b. unfold consumed. rewrite length_app.
  replace (String.length a + String.length b - String.length b)%nat
    with (String.length a) by lia.
  apply take_app.
Qed.

(** A literal word in front of the text is read, whatever its case. *)
Lemma run_lits_app :
  forall (A : Type) (w rest : string) (cs : captures)
         (k : string -> captures -> option A),
    run true (lits w) (w ++ rest) cs k = k rest cs.
Proof.
  intros A w rest cs k. rewrite run_lits, lower_app, prefix_app, drop_app.
  reflexivity.
Qed.

(** A greedy repetition reads the whole run of its class when the rest of
    the pattern accepts what follows the run. *)
Lemma rep_greedy_run :
  forall (A : Type) (p : ascii -> bool) (run0 rest : string) (min : nat)
         (k : string -> option A) (x : A),
    sforall p run0 = true ->
    head_clear p rest = true ->
    (min <= String.length run0)%nat ->
    k rest = Some x ->
    rep_greedy p min (run0 ++ rest) k = Some x.
Proof.
  intros A p run0. induction run0 as [| c t IH]; intros rest min k x Hr Hh Hm Hk.
  - simpl in Hm. assert (min = 0)%nat by lia. subst min.
    cbn [append]. destruct rest as [| d r]; cbn [rep_greedy]; [exact Hk |].
    cbn [head_clear] in Hh. destruct (p d); [discriminate | exact Hk].
  - unfold sforall in Hr. simpl in Hr. apply andb_prop in Hr. destruct Hr as [Hc Ht].
    cbn [append rep_greedy]. rewrite Hc.
    rewrite (IH rest (pred min) k x Ht Hh); [reflexivity | simpl in Hm; lia | exact Hk].
Qed.

(** A repetition that needs a character of its class fails where none
    stands. *)
Lemma rep_greedy_none :
  forall (A : Type) (p : ascii -> bool) (s : string) (n : nat)
         (k : string -> option A),
    head_clear p s = true -> rep_greedy p (S n) s k = None.
Proof.
  intros A p [| c t] n k H; cbn [rep_greedy]; [reflexivity |].
  cbn [head_clear] in H. destruct (p c); [discriminate | reflexivity].
Qed.

Lemma head_clear_word_name :
  forall (p : ascii -> bool) s rest,
    negb (String.eqb s "") = true ->
    (forall c, In c (list_ascii_of_string s) -> p c = false) ->
    head_clear p (s ++ rest) = true.
Proof.
  intros p [| c t] rest Hne H; [discriminate |].
  cbn [append head_clear]. rewrite (H c); [reflexivity | left; reflexivity].
Qed.

Lemma word_not_space : forall c, isword c = true -> isspace c = false.
Proof. intros c. by_char c. Qed.

Lemma word_not_newline : forall c, isword c = true -> not_newline c = true.
Proof. intros c. by_char c. Qed.

Lemma not_space_not_newline : forall c, not_space c = true -> not_newline c = true.
Proof. intros c. by_char c. Qed.

Lemma sforall_in :
  forall p s c, sforall p s = true -> In c (list_ascii_of_string s) -> p c = true.
Proof.
  intros p s c H Hin. unfold sforall in H. rewrite forallb_forall in H. auto.
Qed.

(** ** Line 235 on a text with clean ends *)

Lemma ends_clean_app :
  forall a b, ends_clean b = true -> ends_clean (a ++ b) = true.
Proof.
  intros a b H. unfold ends_clean in *. rewrite srev_app.
  destruct (srev b) as [| c t]; [discriminate | exact H].
Qed.

Lemma normalize_clean :
  forall s,
    head_clear isspace s = true -> ends_clean s = true -> normalize s = s.
Proof.
  intros s Hh He. unfold normalize, strip, rstrip_char.
  rewrite (lstrip_head_clear isspace s Hh).
  unfold ends_clean in He.
  destruct (srev s) as [| c t] eqn:E; [discriminate |].
  apply andb_prop in He. destruct He as [Hs Hsemi].
  assert (R1 : rstrip_by isspace s = s).
  { unfold rstrip_by. rewrite E. cbn [lstrip_by].
    destruct (isspace c); [discriminate |]. rewrite <- E. apply srev_involutive. }
  rewrite R1. unfold rstrip_by. rewrite E. cbn [lstrip_by].
  destruct (Ascii.eqb ";" c); [discriminate |]. rewrite <- E. apply srev_involutive.
Qed.

(** ** The patterns on a DELETE of a known shape *)

Lemma word_name_parts :
  forall s, is_word_name s = true ->
            negb (String.eqb s "") = true /\ sforall isword s = true
            /\ (1 <= String.length s)%nat.
Proof.
  intros s H. unfold is_word_name in H. apply andb_prop in H. destruct H as [H1 H2].
  repeat split; auto. destruct s; [discriminate | simpl; lia].
Qed.

Lemma token_parts :
  forall s, is_token s = true ->
            negb (String.eqb s "") = true /\ sforall not_space s = true
            /\ (1 <= String.length s)%nat.
Proof.
  intros s H. unfold is_token in H. apply andb_prop in H. destruct H as [H1 H2].
  repeat split; auto. destruct s; [discriminate | simpl; lia].
Qed.

(** The equality pattern reads the column, the sign and the token, and
    leaves what follows the token. *)
Lemma where_re_on_equality :
  forall column token trailer,
    is_word_name column = true ->
    is_token token = true ->
    head_clear not_space trailer = true ->
    re_match false where_re (column ++ " = " ++ token ++ trailer)
    = Some {| whole := column ++ " = " ++ token;
              groups := [(2%nat, token); (1%nat, column)] |}.
Proof.
  intros column token trailer Hc Ht Htr.
  destruct (word_name_parts column Hc) as (Hcne & Hcw & Hcl).
  destruct (token_parts token Ht) as (Htne & Hts & Htl).
  unfold re_match, where_re, cats, word_plus, ws_star. cbn [run].
  apply rep_greedy_run; [exact Hcw | reflexivity | exact Hcl |].
  apply (rep_greedy_run _ isspace " " (String "=" (String " " (token ++ trailer))));
    [reflexivity | reflexivity | simpl; lia |].
  cbn [Ascii.eqb Bool.eqb].
  apply (rep_greedy_run _ isspace " " (token ++ trailer)); [reflexivity | | simpl; lia |].
  { apply head_clear_word_name; [exact Htne |].
    intros c Hin. pose proof (sforall_in _ _ _ Hts Hin) as H.
    unfold not_space in H. destruct (isspace c); [discriminate | reflexivity]. }
  apply rep_greedy_run; [exact Hts | exact Htr | exact Htl |].
  f_equal. f_equal.
  - change (column ++ " = " ++ token ++ trailer)
      with (column ++ (" = " ++ (token ++ trailer))).
    rewrite <- (sapp_assoc " = " token trailer), <- (sapp_assoc column (" = " ++ token) trailer).
    apply consumed_app.
  - rewrite consumed_app.
    change (column ++ " = " ++ token ++ trailer)
      with (column ++ (" = " ++ token ++ trailer)).
    rewrite consumed_app. reflexivity.
Qed.

(** The DELETE pattern reads the table and takes the rest of the line as
    the WHERE clause. *)
Lemma delete_re_on_where :
  forall table clause,
    is_word_name table = true ->
    head_clear isspace clause = true ->
    sforall not_newline clause = true ->
    re_match true delete_re ("delete from " ++ table ++ " where " ++ clause)
    = Some {| whole := "delete from " ++ table ++ " where " ++ clause;
              groups := [(2%nat, clause); (1%nat, table)] |}.
Proof.
  intros table clause Hc Hh Hn.
  destruct (word_name_parts table Hc) as (Hcne & Hcw & Hcl).
  set (q := "delete from " ++ table ++ " where " ++ clause).
  unfold re_match, delete_re.
  change q with ("delete" ++ (" " ++ ("from" ++ (" " ++ (table ++ (" " ++ ("where" ++ (" " ++ clause)))))))).
  unfold cats, word_plus, ws_plus. cbn [run]. rewrite run_lits_app.
  apply (rep_greedy_run _ isspace " "); [reflexivity | reflexivity | simpl; lia |].
  rewrite run_lits_app.
  apply (rep_greedy_run _ isspace " "); [reflexivity | | simpl; lia |].
  { apply head_clear_word_name; [exact Hcne |].
    intros c Hin. apply word_not_space. exact (sforall_in _ _ _ Hcw Hin). }
  apply rep_greedy_run; [exact Hcw | reflexivity | exact Hcl |].
  rewrite consumed_app.
  match goal with
  | |- match ?t with Some x => Some x | None => _ end = _ =>
      assert (E : t = Some {| whole := q; groups := [(2%nat, clause); (1%nat, table)] |})
  end.
  { apply (rep_greedy_run _ isspace " "); [reflexivity | reflexivity | simpl; lia |].
    rewrite run_lits_app.
    apply (rep_greedy_run _ isspace " "); [reflexivity | exact Hh | simpl; lia |].
    rewrite <- (append_nil_r_local clause) at 1.
    apply rep_greedy_run; [exact Hn | reflexivity | lia |].
    f_equal. f_equal.
    - apply consumed_all.
    - rewrite consumed_all. reflexivity. }
  rewrite E. reflexivity.
Qed.

(** The DELETE pattern on a table name that no WHERE part follows: the
    WHERE group stays absent. *)
Lemma delete_re_without_where :
  forall table trailer,
    is_word_name table = true ->
    head_clear isword trailer = true ->
    head_clear isspace trailer = true ->
    re_match true delete_re ("delete from " ++ table ++ trailer)
    = Some {| whole := "delete from " ++ table;
              groups := [(1%nat, table)] |}.
Proof.
  intros table trailer Hc Hw Hs.
  destruct (word_name_parts table Hc) as (Hcne & Hcw & Hcl).
  unfold re_match, delete_re.
  change ("delete from " ++ table ++ trailer)
    with ("delete" ++ (" " ++ ("from" ++ (" " ++ (table ++ trailer))))).
  unfold cats, word_plus, ws_plus. cbn [run]. rewrite run_lits_app.
  apply (rep_greedy_run _ isspace " "); [reflexivity | reflexivity | simpl; lia |].
  rewrite run_lits_app.
  apply (rep_greedy_run _ isspace " "); [reflexivity | | simpl; lia |].
  { apply head_clear_word_name; [exact Hcne |].
    intros c Hin. apply word_not_space. exact (sforall_in _ _ _ Hcw Hin). }
  apply rep_greedy_run; [exact Hcw | exact Hw | exact Hcl |].
  rewrite (rep_greedy_none _ isspace trailer 0 _ Hs).
  f_equal. f_equal.
  - change ("delete" ++ " " ++ "from" ++ " " ++ table ++ trailer)
      with ("delete from " ++ (table ++ trailer)).
    rewrite <- (sapp_assoc "delete from " table trailer).
    apply consumed_app.
  - rewrite consumed_app. reflexivity.
Qed.

(** ** DELETE statements of a known shape, end to end *)

(** A DELETE that passes the test on its leading words and matches its
    pattern with a WHERE clause matching the equality: the token is decoded
    and, unless that raises, the one call is the structured delete. *)
Lemma delete_equality_run :
  forall (w : world) (st : session) (q wc : string) (m wm : match_obj),
    connected st = true ->
    startswith (lower (normalize q)) "delete from" = true ->
    re_match true delete_re (normalize q) = Some m ->
    group (groups m) 2 = Some wc -> wc <> "" ->
    re_match false where_re wc = Some wm ->
    execute_sql_query w st q []
    = match decode_where (strip (group_str wm 2)) with
      | Ret v =>
          let c := TableDelete (group_str m 1) (group_str wm 1) v in
          (Ret (match store w c with
                | Ret r => delete_result r
                | Raise e => Error ("Query failed: " ++ e)
                end), [c])
      | Raise e => (Ret (Error ("Query failed: " ++ e)), [])
      end.
Proof.
  intros w st q wc m wm Hc Hgate Hm Hg Hne Hwm.
  rewrite (execute_connected w st q Hc), (dispatch_delete w _ Hgate).
  unfold catch, bind, delete_branch. rewrite Hm, Hg.
  destruct wc as [| a wc']; [contradiction |].
  rewrite Hwm. unfold bind, lift.
  destruct (decode_where (strip (group_str wm 2))) as [v | e]; [| reflexivity].
  unfold perform. cbn [app].
  destruct (store w (TableDelete (group_str m 1) (group_str wm 1) v)); reflexivity.
Qed.

Lemma token_strip : forall v, is_token v = true -> strip v = v.
Proof.
  intros v H. destruct (token_parts v H) as (_ & Hs & _).
  apply strip_none. exact Hs.
Qed.

(** The statement [delete from T where C = V] followed by [trailer]: what
    the execution does is decided by the decoding of [V]. *)
Lemma delete_where_run :
  forall (w : world) (st : session) (table column token trailer : string),
    connected st = true ->
    is_word_name table = true ->
    is_word_name column = true ->
    is_token token = true ->
    head_clear not_space trailer = true ->
    sforall not_newline trailer = true ->
    ends_clean (token ++ trailer) = true ->
    execute_sql_query w st (delete_where table column token trailer) []
    = match decode_where token with
      | Ret v =>
          let c := TableDelete table column v in
          (Ret (match store w c with
                | Ret r => delete_result r
                | Raise e => Error ("Query failed: " ++ e)
                end), [c])
      | Raise e => (Ret (Error ("Query failed: " ++ e)), [])
      end.
Proof.
  intros w st table column token trailer Hc Ht Hcol Htok Htr Hnl Hend.
  destruct (word_name_parts column Hcol) as (Hcne & Hcw & _).
  destruct (token_parts token Htok) as (_ & Hts & _).
  set (clause := column ++ " = " ++ token ++ trailer).
  assert (Hnorm : normalize (delete_where table column token trailer)
                  = delete_where table column token trailer).
  { apply normalize_clean; [reflexivity |].
    unfold delete_where. do 5 apply ends_clean_app. exact Hend. }
  assert (Hclause_head : head_clear isspace clause = true).
  { apply head_clear_word_name; [exact Hcne |].
    intros ch Hin. apply word_not_space. exact (sforall_in _ _ _ Hcw Hin). }
  assert (Hclause_nl : sforall not_newline clause = true).
  { unfold clause. rewrite !sforall_app, Hnl.
    rewrite (sforall_weaken isword not_newline column word_not_newline Hcw).
    rewrite (sforall_weaken not_space not_newline token not_space_not_newline Hts).
    reflexivity. }
  assert (Hne : clause <> "").
  { unfold clause. destruct column; [discriminate | discriminate]. }
  pose proof (delete_equality_run w st
                (delete_where table column token trailer) clause
                {| whole := "delete from " ++ table ++ " where " ++ clause;
                   groups := [(2%nat, clause); (1%nat, table)] |}
                {| whole := column ++ " = " ++ token;
                   groups := [(2%nat, token); (1%nat, column)] |}
                Hc) as H.
  rewrite Hnorm in H.
  specialize (H eq_refl (delete_re_on_where table clause Ht Hclause_head Hclause_nl)
                eq_refl Hne (where_re_on_equality column token trailer Hcol Htok Htr)).
  cbn [group_str groups group Nat.eqb] in H.
  rewrite (token_strip token Htok) in H. exact H.
Qed.

Lemma delete_where_call :
  forall (w : world) (st : session) (table column token trailer : string),
    connected st = true ->
    is_word_name table = true ->
    is_word_name column = true ->
    is_token token = true ->
    within_int_limit token = true ->
    head_clear not_space trailer = true ->
    sforall not_newline trailer = true ->
    ends_clean (token ++ trailer) = true ->
    let c := TableDelete table column (predicate_value token) in
    execute_sql_query w st (delete_where table column token trailer) []
    = (Ret (match store w c with
            | Ret r => delete_result r
            | Raise e => Error ("Query failed: " ++ e)
            end), [c]).
Proof.
  intros w st table column token trailer Hc Ht Hcol Htok Hl Htr Hnl Hend c.
  rewrite (delete_where_run w st table column token trailer
             Hc Ht Hcol Htok Htr Hnl Hend).
  rewrite (decode_where_predicate_value token Hl). reflexivity.
Qed.

(** X12.  The statement [delete from T where C = V], for a table and a
    column made of word characters and an ASCII token without white space,
    of at most 4300 digits, that does not end in a semicolon, makes exactly
    one call on the store: the structured delete on [T] filtered on [C] by
    the decoded token; the result is that of the store's answer. *)
Theorem delete_statement_round_trip :
  forall (w : world) (st : session) (table column token : string),
    connected st = true ->
    is_word_name table = true ->
    is_word_name column = true ->
    is_token token = true ->
    isascii token = true ->
    within_int_limit token = true ->
    ends_clean token = true ->
    let c := TableDelete table column (predicate_value token) in
    execute_sql_query w st
      ("delete from " ++ table ++ " where " ++ column ++ " = " ++ token) []
    = (Ret (match store w c with
            | Ret r => delete_result r
            | Raise e => Error ("Query failed: " ++ e)
            end), [c]).
Proof.
  intros w st table column token Hc Ht Hcol Htok _ Hl Hend c.
  pose proof (delete_where_call w st table column token "" Hc Ht Hcol Htok Hl
                eq_refl eq_refl) as H.
  unfold delete_where in H. rewrite (append_nil_r_local token) in H.
  exact (H Hend).
Qed.

Lemma delete_statement_round_trip_witness :
  execute_sql_query quiet_world fresh_session
    ("delete from " ++ "order_items" ++ " where " ++ "sku" ++ " = " ++ "'A-17'") []
  = (Ret (Message "Delete was executed successfully" (Some 0%nat)),
     [TableDelete "order_items" "sku" (VStr "A-17")]).
Proof.
  exact (delete_statement_round_trip quiet_world fresh_session
           "order_items" "sku" "'A-17'"
           eq_refl eq_refl eq_refl eq_refl eq_refl eq_refl eq_refl).
Defined.

(** X13.  Whatever follows the first equality of the WHERE clause on the
    same line, after a blank, is ignored: for an ASCII statement whose
    token has at most 4300 digits, the statement with the longer condition
    makes the same structured delete, filtered on the first equality
    alone. *)
Theorem where_tail_ignored :
  forall (w : world) (st : session) (table column token tail : string),
    connected st = true ->
    is_word_name table = true ->
    is_word_name column = true ->
    is_token token = true ->
    isascii token = true ->
    within_int_limit token = true ->
    isascii tail = true ->
    sforall not_newline tail = true ->
    ends_clean tail = true ->
    let c := TableDelete table column (predicate_value token) in
    execute_sql_query w st
      ("delete from " ++ table ++ " where " ++ column ++ " = " ++ token
                      ++ " " ++ tail) []
    = (Ret (match store w c with
            | Ret r => delete_result r
            | Raise e => Error ("Query failed: " ++ e)
            end), [c]).
Proof.
  intros w st table column token tail Hc Ht Hcol Htok _ Hl _ Hnl Hend c.
  apply (delete_where_call w st table column token (" " ++ tail) Hc Ht Hcol Htok Hl).
  - reflexivity.
  - change (" " ++ tail) with (String " " tail).
    unfold sforall in *. simpl. exact Hnl.
  - apply ends_clean_app. apply (ends_clean_app " " tail). exact Hend.
Qed.

Lemma where_tail_ignored_witness :
  execute_sql_query quiet_world fresh_session
    ("delete from " ++ "orders" ++ " where " ++ "id" ++ " = " ++ "7"
                    ++ " " ++ "and status = 'void'") []
  = (Ret (Message "Delete was executed successfully" (Some 0%nat)),
     [TableDelete "orders" "id" (VInt 7)]).
Proof.
  exact (where_tail_ignored quiet_world fresh_session
           "orders" "id" "7" "and status = 'void'"
           eq_refl eq_refl eq_refl eq_refl eq_refl eq_refl eq_refl eq_refl eq_refl).
Defined.

(** X14.  The statement [delete from T], alone or followed at once by an
    ASCII character that is neither a word character nor white space, is
    refused without any call on the store; this includes a schema-qualified
    table name, even when a WHERE clause follows it. *)
Theorem delete_refused_by_shape :
  forall (w : world) (st : session) (table trailer : string),
    connected st = true ->
    is_word_name table = true ->
    isascii trailer = true ->
    head_clear isword trailer = true ->
    head_clear isspace trailer = true ->
    ends_clean (table ++ trailer) = true ->
    execute_sql_query w st ("delete from " ++ table ++ trailer) []
    = (Ret (Error refusal), []).
Proof.
  intros w st table trailer Hc Ht _ Hw Hs Hend.
  assert (Hnorm : normalize ("delete from " ++ table ++ trailer)
                  = "delete from " ++ table ++ trailer).
  { apply normalize_clean; [reflexivity |].
    apply (ends_clean_app "delete from " (table ++ trailer)). exact Hend. }
  apply (delete_without_where_refused w st _
           {| whole := "delete from " ++ table; groups := [(1%nat, table)] |} Hc).
  - rewrite Hnorm. reflexivity.
  - rewrite Hnorm. apply delete_re_without_where; assumption.
  - left. reflexivity.
Qed.

Lemma delete_refused_by_shape_witness :
  execute_sql_query quiet_world fresh_session
    ("delete from " ++ "public" ++ ".customers where id = 7") []
  = (Ret (Error refusal), []).
Proof.
  exact (delete_refused_by_shape quiet_world fresh_session
           "public" ".customers where id = 7"
           eq_refl eq_refl eq_refl eq_refl eq_refl eq_refl).
Defined.

(** ** What a match can have captured *)

Lemma rep_greedy_inv :
  forall (A : Type) (p : ascii -> bool) (s : string) (min : nat)
         (k : string -> option A) (x : A),
    rep_greedy p min s k = Some x ->
    exists run0 rest,
      s = run0 ++ rest /\ sforall p run0 = true
      /\ (min <= String.length run0)%nat /\ k rest = Some x.
Proof.
  intros A p s. induction s as [| c t IH]; intros min k x H; cbn [rep_greedy] in H.
  - destruct min; [| discriminate]. exists "", "". repeat split; auto.
  - assert (Hstop : match min with O => k (String c t) | S _ => None end = Some x ->
                    exists run0 rest,
                      String c t = run0 ++ rest /\ sforall p run0 = true
                      /\ (min <= String.length run0)%nat /\ k rest = Some x).
    { destruct min; [| discriminate]. intros Hk.
      exists "", (String c t). repeat split; auto. }
    destruct (p c) eqn:Hc; [| exact (Hstop H)].
    destruct (rep_greedy p (pred min) t k) as [y |] eqn:E; [| exact (Hstop H)].
    injection H as <-.
    destruct (IH _ _ _ E) as (run0 & rest & -> & Hr & Hm & Hk).
    exists (String c run0), rest. repeat split; auto.
    + unfold sforall in *. simpl. rewrite Hc, Hr. reflexivity.
    + simpl. lia.
Qed.

Lemma rep_lazy_inv :
  forall (A : Type) (p : ascii -> bool) (s : string) (min : nat)
         (k : string -> option A) (x : A),
    rep_lazy p min s k = Some x -> exists rest, k rest = Some x.
Proof.
  intros A p s. induction s as [| c t IH]; intros min k x H; cbn [rep_lazy] in H.
  - destruct min; [| discriminate].
    destruct (k "") eqn:E; [injection H as <-; eauto | discriminate].
  - assert (Hmore : (if p c then rep_lazy p (pred min) t k else None) = Some x ->
                    exists rest, k rest = Some x).
    { destruct (p c); [apply IH | discriminate]. }
    destruct min; [| exact (Hmore H)].
    destruct (k (String c t)) eqn:E; [injection H as <-; eauto | exact (Hmore H)].
Qed.

(** A successful run ends in its continuation, which receives the
    captures of before under those the pattern added. *)
Lemma run_inv :
  forall (A : Type) (ic : bool) (r : regex) (s : string) (cs : captures)
         (k : string -> captures -> option A) (x : A),
    run ic r s cs k = Some x ->
    exists s' new,
      k s' (new ++ cs)%list = Some x
      /\ forall g, In g new -> In (fst g) (groups_of r).
Proof.
  intros A ic r. induction r as [| c | p | r1 IH1 r2 IH2 | r1 IH1 r2 IH2
                                 | greedy min p | r1 IH1 | i r1 IH1];
    intros s cs k x H; cbn [run groups_of] in *.
  - exists s, []. split; [exact H | intros g []].
  - destruct s as [| d t]; [discriminate |].
    destruct (if ic then Ascii.eqb (lower_c c) (lower_c d) else Ascii.eqb c d);
      [| discriminate].
    exists t, []. split; [exact H | intros g []].
  - destruct s as [| d t]; [discriminate |].
    destruct (p d); [| discriminate].
    exists t, []. split; [exact H | intros g []].
  - destruct (IH1 _ _ _ _ H) as (s1 & new1 & H1 & Hn1).
    destruct (IH2 _ _ _ _ H1) as (s2 & new2 & H2 & Hn2).
    exists s2, (new2 ++ new1)%list. rewrite <- app_assoc. split; [exact H2 |].
    intros g Hg. apply in_app_or in Hg. apply in_or_app.
    destruct Hg; [right | left]; auto.
  - destruct (run ic r1 s cs k) as [y |] eqn:E.
    + injection H as <-. destruct (IH1 _ _ _ _ E) as (s1 & new1 & H1 & Hn1).
      exists s1, new1. split; [exact H1 |]. intros g Hg. apply in_or_app. auto.
    + destruct (IH2 _ _ _ _ H) as (s2 & new2 & H2 & Hn2).
      exists s2, new2. split; [exact H2 |]. intros g Hg. apply in_or_app. auto.
  - destruct greedy.
    + destruct (rep_greedy_inv _ _ _ _ _ _ H) as (run0 & rest & _ & _ & _ & Hk).
      exists rest, []. split; [exact Hk | intros g []].
    + destruct (rep_lazy_inv _ _ _ _ _ _ H) as (rest & Hk).
      exists rest, []. split; [exact Hk | intros g []].
  - destruct (run ic r1 s cs k) as [y |] eqn:E.
    + injection H as <-. exact (IH1 _ _ _ _ E).
    + exists s, []. split; [exact H | intros g []].
  - destruct (IH1 _ _ _ _ H) as (s1 & new1 & H1 & Hn1).
    exists s1, ((i, consumed s s1) :: new1). split; [exact H1 |].
    intros g [<- | Hg]; [left; reflexivity | right; auto].
Qed.

Lemma group_skip :
  forall (new cs : captures) (i : nat),
    (forall g, In g new -> fst g <> i) ->
    group (new ++ cs)%list i = group cs i.
Proof.
  induction new as [| [j s] new IH]; intros cs i H; [reflexivity |].
  cbn [app group].
  destruct (Nat.eqb_spec i j) as [-> | _].
  - exfalso. apply (H (j, s)); [left; reflexivity | reflexivity].
  - apply IH. intros g Hg. apply H. right. exact Hg.
Qed.

(** The parts of a pattern that capture nothing pass the captures on. *)
Lemma run_cats_prefix :
  forall (A : Type) (ic : bool) (pre : list regex) (r : regex) (s : string)
         (cs : captures) (k : string -> captures -> option A) (x : A),
    Forall (fun r0 => groups_of r0 = []) pre ->
    run ic (cats (pre ++ [r])%list) s cs k = Some x ->
    exists s1, run ic r s1 cs (fun s' cs' => k s' cs') = Some x.
Proof.
  intros A ic pre. induction pre as [| r0 pre IH]; intros r s cs k x Hpre H.
  - cbn [app cats run] in H. exists s. exact H.
  - inversion Hpre as [| ? ? Hr0 Hpre']; subst.
    cbn [app cats run] in H.
    destruct (run_inv _ _ _ _ _ _ _ H) as (s1 & new & H1 & Hn).
    assert (new = []).
    { destruct new as [| g new']; [reflexivity |].
      specialize (Hn g (or_introl eq_refl)). rewrite Hr0 in Hn. destruct Hn. }
    subst new. exact (IH r s1 cs k x Hpre' H1).
Qed.

(** A match of a pattern made of parts without groups, then group 1 on a
    repetition of one class, then parts without group 1: group 1 holds a
    run of that class, at least as long as the repetition asks. *)
Lemma first_group_class :
  forall (ic : bool) (pre : list regex) (p : ascii -> bool) (min : nat)
         (post : regex) (s : string) (m : match_obj),
    Forall (fun r0 => groups_of r0 = []) pre ->
    ~ In 1%nat (groups_of post) ->
    re_match ic (cats (pre ++ [Cat (Grp 1 (Rep true min p)) post])%list) s = Some m ->
    exists wd,
      group (groups m) 1 = Some wd
      /\ sforall p wd = true /\ (min <= String.length wd)%nat.
Proof.
  intros ic pre p min post s m Hpre Hpost H. unfold re_match in H.
  destruct (run_cats_prefix _ _ _ _ _ _ _ _ Hpre H) as (s1 & H1).
  cbn [run] in H1.
  destruct (rep_greedy_inv _ _ _ _ _ _ H1) as (run0 & rest & -> & Hr & Hm & Hk).
  rewrite consumed_app in Hk.
  destruct (run_inv _ _ _ _ _ _ _ Hk) as (s2 & new & H2 & Hn).
  injection H2 as <-. exists run0. cbn [groups].
  rewrite group_skip.
  - cbn [group Nat.eqb]. auto.
  - intros g Hg E. apply Hpost. rewrite <- E. apply Hn. exact Hg.
Qed.

Lemma word_run_name :
  forall wd, sforall isword wd = true -> (1 <= String.length wd)%nat ->
             is_word_name wd = true.
Proof.
  intros [| c t] H Hl; [simpl in Hl; lia |].
  unfold is_word_name. rewrite H. reflexivity.
Qed.

Lemma insert_re_table :
  forall q m, re_match true insert_re q = Some m ->
              is_word_name (group_str m 1) = true.
Proof.
  intros q m H.
  destruct (first_group_class true
              [lits "insert"; ws_plus; lits "into"; ws_plus] isword 1
              (cats [ws_star; Lit "("; Grp 2 (Rep false 0 not_newline); Lit ")";
                     ws_star; lits "values"; ws_star;
                     Lit "("; Grp 3 (Rep false 0 not_newline); Lit ")"])
              q m) as (wd & Hg & Hw & Hl).
  - repeat constructor.
  - cbn. intuition discriminate.
  - exact H.
  - unfold group_str. rewrite Hg. apply word_run_name; assumption.
Qed.

Lemma update_re_table :
  forall q m, re_match true update_re q = Some m ->
              is_word_name (group_str m 1) = true.
Proof.
  intros q m H.
  destruct (first_group_class true
              [lits "update"; ws_plus] isword 1
              (cats [ws_plus; lits "set"; ws_plus;
                     Grp 2 (Rep false 0 not_newline); ws_plus; lits "where"; ws_plus;
                     Grp 3 (Rep true 0 not_newline)])
              q m) as (wd & Hg & Hw & Hl).
  - repeat constructor.
  - cbn. intuition discriminate.
  - exact H.
  - unfold group_str. rewrite Hg. apply word_run_name; assumption.
Qed.

Lemma delete_re_table :
  forall q m, re_match true delete_re q = Some m ->
              is_word_name (group_str m 1) = true.
Proof.
  intros q m H.
  destruct (first_group_class true
              [lits "delete"; ws_plus; lits "from"; ws_plus] isword 1
              (cats [Opt (cats [ws_plus; lits "where"; ws_plus;
                                Grp 2 (Rep true 0 not_newline)])])
              q m) as (wd & Hg & Hw & Hl).
  - repeat constructor.
  - cbn. intuition discriminate.
  - exact H.
  - unfold group_str. rewrite Hg. apply word_run_name; assumption.
Qed.

Lemma where_re_column :
  forall wc m, re_match false where_re wc = Some m ->
               is_word_name (group_str m 1) = true.
Proof.
  intros wc m H.
  destruct (first_group_class false [] isword 1
              (cats [ws_star; Lit "="; ws_star; Grp 2 (Rep true 1 not_space)])
              wc m) as (wd & Hg & Hw & Hl).
  - constructor.
  - cbn. intuition discriminate.
  - exact H.
  - unfold group_str. rewrite Hg. apply word_run_name; assumption.
Qed.

(** ** The names that reach the table interface *)

Lemma insert_branch_named :
  forall w q log,
    Forall (fun c => well_named c = true) log ->
    Forall (fun c => well_named c = true) (snd (insert_branch w q log)).
Proof.
  intros w q log Hlog. unfold insert_branch.
  destruct (re_match true insert_re q) as [m |] eqn:Hm; [| exact Hlog].
  unfold bind, lift.
  destruct (insert_data _ _ 0 []) as [data | e]; [| exact Hlog].
  unfold perform.
  assert (Forall (fun c => well_named c = true)
                 (log ++ [TableInsert (group_str m 1) data])%list).
  { apply Forall_app. split; [exact Hlog |].
    constructor; [| constructor]. exact (insert_re_table q m Hm). }
  destruct (store w (TableInsert (group_str m 1) data)); exact H.
Qed.

Lemma update_branch_named :
  forall w q log,
    Forall (fun c => well_named c = true) log ->
    Forall (fun c => well_named c = true) (snd (update_branch w q log)).
Proof.
  intros w q log Hlog. unfold update_branch.
  destruct (re_match true update_re q) as [m |] eqn:Hm; [| exact Hlog].
  destruct (re_match false where_re (group_str m 3)) as [wm |] eqn:Hwm;
    [| exact Hlog].
  unfold bind, lift.
  destruct (decode_where _) as [v | e0]; [| exact Hlog].
  unfold perform.
  match goal with
  | |- context [store w ?cl] =>
      assert (Forall (fun c0 => well_named c0 = true) (log ++ [cl])%list)
  end.
  { apply Forall_app. split; [exact Hlog |].
    constructor; [| constructor]. cbn [well_named].
    rewrite (update_re_table q m Hm), (where_re_column _ wm Hwm). reflexivity. }
  match goal with
  | |- context [store w ?c] => destruct (store w c); exact H
  end.
Qed.

Lemma delete_branch_named :
  forall w q log,
    Forall (fun c => well_named c = true) log ->
    Forall (fun c => well_named c = true) (snd (delete_branch w q log)).
Proof.
  intros w q log Hlog. unfold delete_branch.
  destruct (re_match true delete_re q) as [m |] eqn:Hm; [| exact Hlog].
  destruct (group (groups m) 2) as [[| a wc] |]; try exact Hlog.
  destruct (re_match false where_re (String a wc)) as [wm |] eqn:Hwm;
    [| exact Hlog].
  unfold bind, lift.
  destruct (decode_where _) as [v | e0]; [| exact Hlog].
  unfold perform.
  match goal with
  | |- context [store w ?cl] =>
      assert (Forall (fun c0 => well_named c0 = true) (log ++ [cl])%list)
  end.
  { apply Forall_app. split; [exact Hlog |].
    constructor; [| constructor]. cbn [well_named].
    rewrite (delete_re_table q m Hm), (where_re_column _ wm Hwm). reflexivity. }
  match goal with
  | |- context [store w ?c] => destruct (store w c); exact H
  end.
Qed.

(** X15.  Every call that the execution of an ASCII statement makes on
    the table interface names a table, and for an update or a delete a
    filter column, that is a non-empty run of the word characters of ASCII:
    letters, digits and the underscore.  No other text of the statement can
    reach the place of a name. *)
Theorem structured_calls_well_named :
  forall (w : world) (st : session) (q : string),
    isascii q = true ->
    Forall (fun c => well_named c = true) (snd (execute_sql_query w st q [])).
Proof.
  intros w st q _.
  destruct (connected st) eqn:Hc.
  2:{ unfold execute_sql_query. rewrite Hc. constructor. }
  rewrite (execute_connected w st q Hc). unfold catch, bind.
  assert (Hs : Forall (fun c => well_named c = true)
                      (snd (structured_stage w (normalize q) []))).
  { unfold structured_stage.
    destruct (startswith (lower (normalize q)) "insert into");
      [apply insert_branch_named; constructor |].
    destruct (startswith (lower (normalize q)) "update");
      [apply update_branch_named; constructor |].
    destruct (startswith (lower (normalize q)) "delete from");
      [apply delete_branch_named; constructor |].
    constructor. }
  destruct (structured_stage w (normalize q) []) as [[[res |] | e] log1];
    cbn [snd] in Hs; try exact Hs.
  destruct (raw_stage_log w (normalize q) log1) as (res & calls & -> & Hcalls).
  cbn [snd]. apply Forall_app. split; [exact Hs |].
  destruct Hcalls as [-> | ->]; repeat constructor.
Qed.

Lemma structured_calls_well_named_witness :
  Forall (fun c => well_named c = true)
         (snd (execute_sql_query quiet_world fresh_session
                 "update order_items set qty = 2 where sku = 'A-17';" [])).
Proof.
  exact (structured_calls_well_named quiet_world fresh_session
           "update order_items set qty = 2 where sku = 'A-17';" eq_refl).
Defined.

(** ** The row reference of a request *)

Lemma re_search_inv :
  forall ic r s m,
    re_search ic r s = Some m -> exists s1, re_match ic r s1 = Some m.
Proof.
  intros ic r s. induction s as [| c t IH]; intros m H; cbn [re_search] in H.
  - destruct (re_match ic r "") eqn:E; [injection H as <-; eauto | discriminate].
  - destruct (re_match ic r (String c t)) eqn:E; [injection H as <-; eauto |].
    exact (IH m H).
Qed.

(** X16.  The row id drawn from an ASCII request, which the update and
    delete guidance quotes in its suggested condition, is always a
    non-empty run of the digits 0 to 9. *)
Theorem row_id_is_digits :
  forall (prompt id : string),
    isascii prompt = true ->
    row_id_of (lower prompt) = Some id -> isdigit id = true.
Proof.
  intros prompt id _. generalize (lower prompt). clear prompt.
  intros prompt_lower H. unfold row_id_of in H.
  destruct (re_search false row_reference_re prompt_lower) as [m |] eqn:E;
    [| discriminate].
  destruct (re_search_inv _ _ _ _ E) as (s1 & Hm).
  destruct (first_group_class false
              [Alt (lits "row") (Alt (lits "record") (lits "id"));
               ws_star; Opt (lits "number"); ws_star] isdigit_c 1 Eps s1 m)
    as (wd & Hg & Hw & Hl).
  - repeat constructor.
  - intros [].
  - exact Hm.
  - rewrite Hg in H. injection H as <-.
    unfold isdigit. rewrite all_digits_sforall, Hw.
    destruct wd; [simpl in Hl; lia | reflexivity].
Qed.

Lemma row_id_is_digits_witness : isdigit "42" = true.
Proof.
  exact (row_id_is_digits "Change the price in record number 42" "42"
           eq_refl eq_refl).
Defined.

(** ** The cleaned statement *)

Lemma lstrip_suffix_run :
  forall p s, exists a, s = a ++ lstrip_by p s /\ sforall p a = true.
Proof.
  intros p s. induction s as [| c t (a & IH & Ha)]; simpl.
  - exists "". split; reflexivity.
  - destruct (p c) eqn:E.
    + exists (String c a). split.
      * simpl. rewrite <- IH. reflexivity.
      * unfold sforall in *. simpl. rewrite E, Ha. reflexivity.
    + exists "". split; reflexivity.
Qed.

Lemma rstrip_prefix_run :
  forall p s, exists b, s = rstrip_by p s ++ b /\ sforall p b = true.
Proof.
  intros p s. unfold rstrip_by.
  destruct (lstrip_suffix_run p (srev s)) as (a & Ha & Hp).
  exists (srev a). split.
  - rewrite <- srev_app, <- Ha. symmetry. apply srev_involutive.
  - rewrite sforall_srev. exact Hp.
Qed.

Lemma lower_keeps_space : forall c, isspace (lower_c c) = isspace c.
Proof. intros c. by_char c. Qed.

(** A prefix without white space survives the removal of trailing white
    space. *)
Lemma prefix_before_spaces :
  forall kw r b,
    sforall (fun c => negb (isspace c)) kw = true ->
    sforall isspace b = true ->
    String.prefix kw (lower (r ++ b)) = true ->
    String.prefix kw (lower r) = true.
Proof.
  induction kw as [| c kw IH]; intros r b Hkw Hb H.
  - destruct (lower r); reflexivity.
  - unfold sforall in Hkw. simpl in Hkw. apply andb_prop in Hkw.
    destruct Hkw as [Hc Hkw].
    destruct r as [| d r].
    + cbn [append] in H. destruct b as [| e b]; [discriminate H |].
      unfold lower in H. cbn [smap String.prefix] in H.
      destruct (ascii_dec c (lower_c e)) as [-> | _]; [| discriminate].
      unfold sforall in Hb. simpl in Hb. apply andb_prop in Hb.
      rewrite lower_keeps_space in Hc. rewrite (proj1 Hb) in Hc. discriminate.
    + unfold lower in *. cbn [append smap String.prefix] in *.
      destruct (ascii_dec c (lower_c d)); [| discriminate].
      exact (IH r b Hkw Hb H).
Qed.

Lemma begins_head_clear :
  forall s, begins_with_keyword s = true -> head_clear isspace s = true.
Proof.
  intros [| c t] H; [reflexivity |].
  cbn [head_clear]. rewrite <- lower_keeps_space.
  unfold begins_with_keyword, sql_keywords, lower in H.
  cbn [existsb smap String.prefix] in H.
  repeat match type of H with
         | context [ascii_dec ?a (lower_c c)] =>
             destruct (ascii_dec a (lower_c c)) as [<- | _]; [reflexivity |]
         end.
  discriminate.
Qed.

Lemma begins_strip :
  forall s, begins_with_keyword s = true -> begins_with_keyword (strip s) = true.
Proof.
  intros s H. unfold strip.
  rewrite (lstrip_head_clear isspace s (begins_head_clear s H)).
  destruct (rstrip_prefix_run isspace s) as (b & Hs & Hb).
  unfold begins_with_keyword, sql_keywords in *. cbn [existsb] in *.
  rewrite Hs in H.
  assert (Hk : forall kw,
             sforall (fun c => negb (isspace c)) (lower kw) = true ->
             String.prefix (lower kw) (lower (rstrip_by isspace s ++ b)) = true ->
             String.prefix (lower kw) (lower (rstrip_by isspace s)) = true).
  { intros kw Hkw Hp. exact (prefix_before_spaces _ _ b Hkw Hb Hp). }
  apply orb_prop in H. destruct H as [H | H].
  { rewrite (Hk "SELECT" eq_refl H). reflexivity. }
  apply orb_prop in H. destruct H as [H | H].
  { rewrite (Hk "INSERT" eq_refl H), orb_true_r. reflexivity. }
  apply orb_prop in H. destruct H as [H | H].
  { rewrite (Hk "UPDATE" eq_refl H), !orb_true_r. reflexivity. }
  apply orb_prop in H. destruct H as [H | H]; [| discriminate].
  rewrite (Hk "DELETE" eq_refl H), !orb_true_r. reflexivity.
Qed.

Lemma from_first_keyword_begins :
  forall s suffix,
    from_first_keyword s = Some suffix -> begins_with_keyword suffix = true.
Proof.
  induction s as [| c t IH]; intros suffix H; cbn [from_first_keyword] in H.
  - destruct (begins_with_keyword "") eqn:E; [| discriminate].
    injection H as <-. exact E.
  - destruct (begins_with_keyword (String c t)) eqn:E.
    + injection H as <-. exact E.
    + exact (IH suffix H).
Qed.

(** X17.  The statement that the synthesizer makes of an ASCII text is
    trimmed, and it either begins with SELECT, INSERT, UPDATE or DELETE,
    letter case apart, or contains none of these words at all. *)
Theorem cleaned_statement_leading_keyword :
  forall text0 : string,
    isascii text0 = true ->
    strip (clean_sql text0) = clean_sql text0
    /\ (begins_with_keyword (clean_sql text0) = true
        \/ from_first_keyword (clean_sql text0) = None).
Proof.
  intros text0 _. rewrite clean_sql_cleaned. unfold cleaned.
  set (t := strip (remove_all "```" (remove_all "```sql" text0))).
  destruct (from_first_keyword t) as [suffix |] eqn:E.
  - split; [apply strip_idempotent |].
    left. apply begins_strip. exact (from_first_keyword_begins t suffix E).
  - split; [apply strip_idempotent | right; exact E].
Qed.

Lemma cleaned_statement_leading_keyword_witness :
  strip (clean_sql "Sure: ```sql delete from orders where id = 7 ```")
  = clean_sql "Sure: ```sql delete from orders where id = 7 ```"
  /\ (begins_with_keyword
        (clean_sql "Sure: ```sql delete from orders where id = 7 ```") = true
      \/ from_first_keyword
           (clean_sql "Sure: ```sql delete from orders where id = 7 ```") = None).
Proof.
  exact (cleaned_statement_leading_keyword
           "Sure: ```sql delete from orders where id = 7 ```" eq_refl).
Defined.

(** ** The frame of the prompt *)

Lemma endswith_app :
  forall a b, endswith (a ++ b) b = true.
Proof.
  intros a b. unfold endswith. rewrite srev_app. apply prefix_app.
Qed.

Lemma table_hint_without_error :
  forall tables prompt_lower, table_hint_of tables prompt_lower false = "".
Proof.
  induction tables as [| table rest IH]; intros p; cbn [table_hint_of];
    [reflexivity |].
  destruct (contains p table || contains p (drop_last table)); [reflexivity | apply IH].
Qed.

(** X18.  Every prompt contains the request as typed and ends with the
    directive to return the query alone.  With a cached mapping that has no
    table named error, the prompt is the formatted schema, the request and
    the guidance, with no hint of a table. *)
Theorem prompt_frame :
  forall (sd : option schema_result) (prompt : string),
    contains (refined_prompt_of sd prompt) prompt = true
    /\ endswith (refined_prompt_of sd prompt) final_directive = true
    /\ (forall d, sd = Some (SchemaOk d) -> dict_has d "error" = false ->
                  refined_prompt_of sd prompt
                  = format_schema_for_prompt (SchemaOk d) ++ nl ++ nl
                    ++ "Generate a PostgreSQL query for: " ++ prompt ++ "."
                    ++ operation_guidance_of (lower prompt)
                    ++ nl ++ nl ++ final_directive).
Proof.
  intros sd prompt. split; [| split].
  - unfold refined_prompt_of. cbv zeta.
    do 4 apply contains_app_r. apply contains_prefix.
  - unfold refined_prompt_of. cbv zeta.
    repeat rewrite <- sapp_assoc. apply endswith_app.
  - intros d -> Hd. unfold refined_prompt_of.
    cbn [schema_error_of]. rewrite Hd.
    rewrite table_hint_without_error. reflexivity.
Qed.

Lemma prompt_frame_witness :
  refined_prompt_of (Some (SchemaOk [("orders", ["id"; "total"])])) "list the orders"
  = format_schema_for_prompt (SchemaOk [("orders", ["id"; "total"])]) ++ nl ++ nl
    ++ "Generate a PostgreSQL query for: " ++ "list the orders" ++ "."
    ++ operation_guidance_of (lower "list the orders")
    ++ nl ++ nl ++ final_directive.
Proof.
  exact (proj2 (proj2 (prompt_frame (Some (SchemaOk [("orders", ["id"; "total"])]))
                         "list the orders"))
           _ eq_refl eq_refl).
Defined.

(** ** A candidate without text *)

(** X19.  When the first candidate of a successful response carries no
    content, no parts or no text in its first part, the synthesizer returns
    the empty statement, not an error; the orchestrator then sends the
    empty text to the store as a raw query and records the exchange in the
    history. *)
Theorem textless_candidate_runs_empty_query :
  forall (w : world) (st : session) (input : string) (resp : http_response)
         (body : gen_body) (c : candidate) (rest : list candidate),
    connected st = true ->
    generate w (refined_prompt_of (schema_data st) input) = Ret resp ->
    status_code resp = 200%Z ->
    json resp = Ret body ->
    candidates body = Some (c :: rest) ->
    first_text c = Ret "" ->
    nl_to_sql_gemini w st input = Sql ""
    /\ exists res st' calls,
        handle_database_query w st input
        = (Handled res (Some ""), st', (primary_rpc "" :: calls)%list)
        /\ query_history st'
           = (query_history st
              ++ [ {| user_input := input; sql_query := ""; result := res |} ])%list.
Proof.
  intros w st input resp body c rest Hc Hgen Hst Hjson Hcand Htext.
  assert (Hsyn : nl_to_sql_gemini w st input = Sql "").
  { unfold nl_to_sql_gemini. rewrite Hc, Hgen. simpl.
    rewrite Hst, Hjson. simpl. rewrite Hcand, Htext. reflexivity. }
  split; [exact Hsyn |].
  unfold handle_database_query. rewrite Hc, Hsyn. simpl negb. cbv iota.
  rewrite (execute_connected w st "" Hc). unfold catch, bind.
  change (structured_stage w (normalize "") []) with (@Ret (option exec_result) None, @nil call).
  cbv iota beta.
  destruct (raw_stage_log w "" []) as (res & calls & Hraw & Hcalls).
  change (normalize "") with "". rewrite Hraw.
  destruct Hcalls as [-> | ->]; do 3 eexists; split; reflexivity.
Qed.

Lemma textless_candidate_runs_empty_query_witness :
  nl_to_sql_gemini textless_world fresh_session "show all orders" = Sql ""
  /\ exists res st' calls,
      handle_database_query textless_world fresh_session "show all orders"
      = (Handled res (Some ""), st', (primary_rpc "" :: calls)%list)
      /\ query_history st'
         = (query_history fresh_session
            ++ [ {| user_input := "show all orders"; sql_query := "";
                    result := res |} ])%list.
Proof.
  exact (textless_candidate_runs_empty_query textless_world fresh_session
           "show all orders" _ _ _ _
           eq_refl eq_refl eq_refl eq_refl eq_refl eq_refl).
Defined.

(** ** The cached schema *)

(** X20.  On a connected session without schema data, the script makes
    the calls of one schema fetch, no other, and keeps in the session what
    that fetch returned, an error included, the history left as it was;
    from then on the same step makes no call and changes nothing, as it
    does on any session that holds schema data. *)
Theorem schema_fetched_once :
  forall (w : world) (st : session),
    connected st = true ->
    (schema_data st = None ->
     forall log, exists r log',
       get_supabase_schema w st log = (Ret r, log')
       /\ ensure_schema w st log
          = (Ret {| connected := connected st;
                    schema_data := Some r;
                    query_history := query_history st |}, log')
       /\ forall log2,
            ensure_schema w {| connected := connected st;
                               schema_data := Some r;
                               query_history := query_history st |} log2
            = (Ret {| connected := connected st;
                      schema_data := Some r;
                      query_history := query_history st |}, log2))
    /\ (schema_data st <> None -> forall log, ensure_schema w st log = (Ret st, log)).
Proof.
  intros w st Hc. split.
  - intros Hsd log.
    destruct (get_supabase_schema_returns w st log) as (r & log' & Hr).
    exists r, log'. split; [exact Hr | split].
    + unfold ensure_schema. rewrite Hc, Hsd. cbn [andb]. rewrite Hr. reflexivity.
    + intros log2. unfold ensure_schema. cbn [connected schema_data].
      rewrite Hc. reflexivity.
  - intros Hsd log. unfold ensure_schema.
    destruct (schema_data st); [| contradiction].
    rewrite andb_false_r. reflexivity.
Qed.

Lemma schema_fetched_once_witness :
  exists r log',
    get_supabase_schema down_world fresh_session [] = (Ret r, log')
    /\ ensure_schema down_world fresh_session []
       = (Ret {| connected := true; schema_data := Some r; query_history := [] |},
          log')
    /\ forall log2,
         ensure_schema down_world
           {| connected := true; schema_data := Some r; query_history := [] |} log2
         = (Ret {| connected := true; schema_data := Some r; query_history := [] |},
            log2).
Proof.
  exact (proj1 (schema_fetched_once down_world fresh_session eq_refl) eq_refl []).
Defined.

(** ** The patterns on an INSERT of a known shape *)

(** A lazy repetition stops at the first place where the rest of the
    pattern accepts: here after a run that the rest of the pattern refuses
    at every earlier place. *)
Lemma rep_lazy_run :
  forall (A : Type) (p : ascii -> bool) (a rest : string)
         (k : string -> option A) (x : A),
    sforall p a = true ->
    (forall a1 a2, a = a1 ++ a2 -> a2 <> "" -> k (a2 ++ rest) = None) ->
    k rest = Some x ->
    rep_lazy p 0 (a ++ rest) k = Some x.
Proof.
  intros A p a. induction a as [| c t IH]; intros rest k x Hp Hk Hr.
  - cbn [append]. destruct rest; cbn [rep_lazy]; rewrite Hr; reflexivity.
  - unfold sforall in Hp. simpl in Hp. apply andb_prop in Hp. destruct Hp as [Hc Ht].
    cbn [append rep_lazy].
    assert (H0 : k (String c (t ++ rest)) = None)
      by (apply (Hk "" (String c t) eq_refl); discriminate).
    rewrite H0, Hc. cbn [pred]. apply IH; [exact Ht | | exact Hr].
    intros a1 a2 E Hne. apply (Hk (String c a1) a2); [rewrite E; reflexivity | exact Hne].
Qed.

Lemma lower_paren : forall c, Ascii.eqb (lower_c ")") (lower_c c) = Ascii.eqb ")" c.
Proof. intros c. by_char c. Qed.

Lemma sforall_tail :
  forall p a1 a2, sforall p (a1 ++ a2) = true -> sforall p a2 = true.
Proof.
  intros p a1 a2 H. rewrite sforall_app in H. apply andb_prop in H. apply H.
Qed.

(** The closing parenthesis is not found inside a text without one. *)
Lemma paren_stop :
  forall (B : Type) (s a1 a2 rest : string) (f : string -> option B),
    sforall in_parens s = true -> s = a1 ++ a2 -> a2 <> "" ->
    match a2 ++ rest with
    | EmptyString => None
    | String d t => if Ascii.eqb (lower_c ")") (lower_c d) then f t else None
    end = None.
Proof.
  intros B s a1 a2 rest f Hs -> Hne.
  apply sforall_tail in Hs. destruct a2 as [| c t]; [contradiction |].
  unfold sforall in Hs. cbn [list_ascii_of_string forallb] in Hs.
  apply andb_prop in Hs. destruct Hs as [Hc2 _].
  unfold in_parens in Hc2. apply andb_prop in Hc2. destruct Hc2 as [_ Hc2].
  cbn [append]. rewrite lower_paren.
  destruct (Ascii.eqb ")" c); [discriminate Hc2 | reflexivity].
Qed.

(** The INSERT pattern reads the table and the two parenthesised texts. *)
Lemma insert_re_on_lists :
  forall table cols vals,
    is_word_name table = true ->
    sforall in_parens cols = true ->
    sforall in_parens vals = true ->
    re_match true insert_re
             ("insert into " ++ table ++ " (" ++ cols ++ ") values (" ++ vals ++ ")")
    = Some {| whole := "insert into " ++ table ++ " (" ++ cols
                                      ++ ") values (" ++ vals ++ ")";
              groups := [(3%nat, vals); (2%nat, cols); (1%nat, table)] |}.
Proof.
  intros table cols vals Ht Hc Hv.
  destruct (word_name_parts table Ht) as (Htne & Htw & Htl).
  assert (Hnl : forall s, sforall in_parens s = true -> sforall not_newline s = true).
  { intros s. apply sforall_weaken. intros c H. unfold in_parens in H.
    apply andb_prop in H. apply H. }
  set (q := "insert into " ++ table ++ " (" ++ cols ++ ") values (" ++ vals ++ ")").
  unfold re_match, insert_re.
  change q with ("insert" ++ (" " ++ ("into" ++ (" " ++ (table ++ (" " ++
                   String "(" (cols ++ String ")" (" " ++ ("values" ++ (" " ++
                   String "(" (vals ++ String ")" ""))))))))))).
  unfold cats, word_plus, ws_plus, ws_star. cbn [run]. rewrite run_lits_app.
  apply (rep_greedy_run _ isspace " "); [reflexivity | reflexivity | simpl; lia |].
  rewrite run_lits_app.
  apply (rep_greedy_run _ isspace " "); [reflexivity | | simpl; lia |].
  { apply head_clear_word_name; [exact Htne |].
    intros c Hin. apply word_not_space. exact (sforall_in _ _ _ Htw Hin). }
  apply rep_greedy_run; [exact Htw | reflexivity | exact Htl |].
  rewrite consumed_app.
  apply (rep_greedy_run _ isspace " "); [reflexivity | reflexivity | simpl; lia |].
  change (Ascii.eqb (lower_c "(") (lower_c "(")) with true. cbv iota.
  apply rep_lazy_run; [exact (Hnl cols Hc) | |].
  { intros a1 a2 E Hne. exact (paren_stop _ cols a1 a2 _ _ Hc E Hne). }
  change (Ascii.eqb (lower_c ")") (lower_c ")")) with true. cbv iota.
  rewrite consumed_app.
  apply (rep_greedy_run _ isspace " "); [reflexivity | reflexivity | simpl; lia |].
  rewrite run_lits_app.
  apply (rep_greedy_run _ isspace " "); [reflexivity | reflexivity | simpl; lia |].
  change (Ascii.eqb (lower_c "(") (lower_c "(")) with true. cbv iota.
  apply rep_lazy_run; [exact (Hnl vals Hv) | |].
  { intros a1 a2 E Hne. exact (paren_stop _ vals a1 a2 _ _ Hv E Hne). }
  change (Ascii.eqb (lower_c ")") (lower_c ")")) with true. cbv iota.
  rewrite consumed_app, consumed_all. reflexivity.
Qed.

(** ** Lists written with commas *)

Lemma split_no_comma :
  forall x, sforall (fun c => negb (Ascii.eqb c ",")) x = true -> split "," x = [x].
Proof.
  induction x as [| c t IH]; intros H; [reflexivity |].
  unfold sforall in H. cbn [list_ascii_of_string forallb] in H.
  apply andb_prop in H. destruct H as [Hc Ht].
  cbn [split]. destruct (Ascii.eqb c ","); [discriminate |].
  rewrite (IH Ht). reflexivity.
Qed.

Lemma split_at_comma :
  forall x rest,
    sforall (fun c => negb (Ascii.eqb c ",")) x = true ->
    split "," (x ++ String "," rest) = x :: split "," rest.
Proof.
  induction x as [| c t IH]; intros rest H; [reflexivity |].
  unfold sforall in H. cbn [list_ascii_of_string forallb] in H.
  apply andb_prop in H. destruct H as [Hc Ht].
  cbn [append split]. destruct (Ascii.eqb c ","); [discriminate |].
  rewrite (IH rest Ht). reflexivity.
Qed.

Lemma plain_item_parts :
  forall x, plain_item x = true ->
            strip x = x
            /\ sforall (fun c => negb (Ascii.eqb c ",")) x = true
            /\ sforall in_parens x = true.
Proof.
  intros x H. unfold plain_item in H. apply andb_prop in H. destruct H as [H1 H2].
  apply String.eqb_eq in H1. repeat split; [exact H1 | |].
  - apply (sforall_weaken _ _ x) with (2 := H2).
    intros c Hc. apply andb_prop in Hc. apply Hc.
  - apply (sforall_weaken _ _ x) with (2 := H2).
    intros c Hc. apply andb_prop in Hc. apply Hc.
Qed.

(** Splitting a joined list gives the items back, each but the first
    behind the blank of the separator. *)
Lemma split_join :
  forall r x,
    Forall (fun y => plain_item y = true) (x :: r) ->
    split "," (join ", " (x :: r)) = x :: map (String " ") r.
Proof.
  induction r as [| y r IH]; intros x H.
  - inversion H as [| ? ? Hx _]; subst.
    apply split_no_comma. apply (plain_item_parts x Hx).
  - inversion H as [| ? ? Hx Hr]; subst.
    change (join ", " (x :: y :: r))
      with (x ++ String "," (String " " (join ", " (y :: r)))).
    rewrite split_at_comma by apply (plain_item_parts x Hx).
    cbn [split]. change (Ascii.eqb " " ",") with false. cbv iota.
    rewrite (IH y Hr). reflexivity.
Qed.

Lemma strip_lead_space : forall y, strip (String " " y) = strip y.
Proof. reflexivity. Qed.

Lemma strip_split_join :
  forall x r,
    Forall (fun y => plain_item y = true) (x :: r) ->
    map strip (split "," (join ", " (x :: r))) = x :: r.
Proof.
  intros x r H. rewrite (split_join r x H).
  inversion H as [| ? ? Hx Hr]; subst.
  cbn [map]. rewrite (proj1 (plain_item_parts x Hx)). f_equal.
  clear H Hx. induction r as [| y r IH]; [reflexivity |].
  inversion Hr as [| ? ? Hy Hr']; subst.
  cbn [map]. rewrite strip_lead_space, (proj1 (plain_item_parts y Hy)).
  rewrite (IH Hr'). reflexivity.
Qed.

Lemma join_in_parens :
  forall xs,
    Forall (fun y => plain_item y = true) xs ->
    sforall in_parens (join ", " xs) = true.
Proof.
  induction xs as [| x r IH]; intros H; [reflexivity |].
  inversion H as [| ? ? Hx Hr]; subst.
  destruct r as [| y r].
  - apply (plain_item_parts x Hx).
  - change (join ", " (x :: y :: r)) with (x ++ ", " ++ join ", " (y :: r)).
    rewrite !sforall_app, (IH Hr), (proj2 (proj2 (plain_item_parts x Hx))).
    reflexivity.
Qed.

(** ** INSERT statements of a known shape, end to end *)

(** X21.  The statement [insert into T (c1, ..., cn) values (v1, ..., vm)],
    for a table made of word characters and items that are trimmed and free
    of commas, closing parentheses and line breaks, with at least as many
    values as columns, makes exactly one call on the store: the structured
    insert into [T] of the dictionary that assigns to each column, in order,
    the decoded value at its position; the result is that of the store's
    answer. *)
Theorem insert_statement_round_trip :
  forall (w : world) (st : session) (table : string) (columns values : list string),
    connected st = true ->
    is_word_name table = true ->
    columns <> [] ->
    Forall (fun y => plain_item y = true) columns ->
    Forall (fun y => plain_item y = true) values ->
    (List.length columns <= List.length values)%nat ->
    let c := TableInsert table
               (dict_of_pairs (combine columns (map decode_value values))) in
    execute_sql_query w st (insert_statement table columns values) []
    = (Ret (match store w c with
            | Ret r => insert_result r
            | Raise e => Error ("Query failed: " ++ e)
            end), [c]).
Proof.
  intros w st table columns values Hc Ht Hne Hcols Hvals Hlen c.
  destruct columns as [| c0 cr]; [contradiction |].
  destruct values as [| v0 vr]; [simpl in Hlen; lia |].
  assert (Hnorm : normalize (insert_statement table (c0 :: cr) (v0 :: vr))
                  = insert_statement table (c0 :: cr) (v0 :: vr)).
  { apply normalize_clean; [reflexivity |].
    unfold insert_statement. do 6 apply ends_clean_app. reflexivity. }
  rewrite (execute_connected w st _ Hc). rewrite Hnorm.
  unfold structured_stage.
  change (startswith (lower (insert_statement table (c0 :: cr) (v0 :: vr)))
                     "insert into") with true.
  cbv iota. unfold catch, bind, insert_branch.
  unfold insert_statement.
  rewrite (insert_re_on_lists table _ _ Ht
             (join_in_parens _ Hcols) (join_in_parens _ Hvals)).
  cbn [group_str groups group Nat.eqb].
  rewrite (strip_split_join c0 cr Hcols), (strip_split_join v0 vr Hvals).
  unfold bind, lift.
  rewrite insert_data_combine by (simpl; exact Hlen).
  cbn [skipn]. unfold perform.
  change (fold_left (fun d kv => dict_set d (fst kv) (snd kv))
                    (combine (c0 :: cr) (map decode_value (v0 :: vr))) [])
    with (dict_of_pairs (combine (c0 :: cr) (map decode_value (v0 :: vr)))).
  fold c. cbn [app]. destruct (store w c); reflexivity.
Qed.

Lemma insert_statement_round_trip_witness :
  execute_sql_query quiet_world fresh_session
    (insert_statement "orders" ["customer"; "amount"] ["'Alice'"; "42.5"]) []
  = (Ret (Data (Some [])),
     [TableInsert "orders"
        [("customer", VStr "Alice");
         ("amount", VFloat (S754_finite false 5981343255101440 (-47)))]]).
Proof.
  exact (insert_statement_round_trip quiet_world fresh_session
           "orders" ["customer"; "amount"] ["'Alice'"; "42.5"]
           eq_refl eq_refl ltac:(discriminate)
           ltac:(repeat constructor) ltac:(repeat constructor)
           ltac:(simpl; lia)).
Defined.

(** ** The SET clause of an UPDATE *)

Lemma contains_eq_false :
  forall t, sforall no_comma_eq t = true -> contains t "=" = false.
Proof.
  induction t as [| c t IH]; intros H; [reflexivity |].
  unfold sforall in H. cbn [list_ascii_of_string forallb] in H.
  apply andb_prop in H. destruct H as [Hc Ht].
  unfold no_comma_eq in Hc. apply andb_prop in Hc. destruct Hc as [_ Hc].
  rewrite contains_cons, startswith_char, Ascii.eqb_sym.
  destruct (Ascii.eqb c "="); [discriminate |]. exact (IH Ht).
Qed.

Lemma split1_at :
  forall c v, sforall no_comma_eq c = true ->
              split1 "=" (c ++ String "=" v) = [c; v].
Proof.
  induction c as [| x c IH]; intros v H; [reflexivity |].
  unfold sforall in H. cbn [list_ascii_of_string forallb] in H.
  apply andb_prop in H. destruct H as [Hx Hc].
  unfold no_comma_eq in Hx. apply andb_prop in Hx. destruct Hx as [_ Hx].
  cbn [append split1]. destruct (Ascii.eqb x "="); [discriminate |].
  rewrite (IH v Hc). reflexivity.
Qed.

Lemma item_text_no_comma :
  forall i, item_ok i = true -> sforall no_comma (item_text i) = true.
Proof.
  assert (W : forall s, sforall no_comma_eq s = true -> sforall no_comma s = true).
  { intros s. apply sforall_weaken. intros c Hc.
    unfold no_comma_eq in Hc. apply andb_prop in Hc. apply Hc. }
  intros [c v | t] H; cbn [item_ok item_text] in *.
  - apply andb_prop in H. destruct H as [Hc Hv].
    rewrite !sforall_app, (W c Hc), Hv. reflexivity.
  - exact (W t H).
Qed.

Lemma split_join_commas :
  forall r x,
    Forall (fun y => sforall no_comma y = true) (x :: r) ->
    split "," (join "," (x :: r)) = x :: r.
Proof.
  induction r as [| y r IH]; intros x H.
  - inversion H as [| ? ? Hx _]; subst. exact (split_no_comma x Hx).
  - inversion H as [| ? ? Hx Hr]; subst.
    change (join "," (x :: y :: r)) with (x ++ String "," (join "," (y :: r))).
    rewrite (split_at_comma x _ Hx), (IH y Hr). reflexivity.
Qed.

Lemma update_data_items :
  forall items d,
    forallb item_ok items = true ->
    update_data (map item_text items) d
    = fold_left (fun d kv => dict_set d (fst kv) (snd kv)) (assignments items) d.
Proof.
  induction items as [| i items IH]; intros d H; [reflexivity |].
  cbn [forallb] in H. apply andb_prop in H. destruct H as [Hi Hr].
  cbn [map update_data assignments flat_map].
  destruct i as [c v | t]; cbn [item_ok item_text] in *.
  - apply andb_prop in Hi. destruct Hi as [Hc Hv].
    change (c ++ "=" ++ v) with (c ++ String "=" v).
    rewrite (contains_app_r c (String "=" v) "=" (contains_prefix "=" v)).
    rewrite (split1_at c v Hc). cbn [map app fold_left fst snd].
    exact (IH _ Hr).
  - rewrite (contains_eq_false t Hi). cbn [app]. exact (IH d Hr).
Qed.

Lemma items_no_comma :
  forall items,
    forallb item_ok items = true ->
    Forall (fun y => sforall no_comma y = true) (map item_text items).
Proof.
  induction items as [| j l IH]; intros H; [constructor |].
  cbn [forallb] in H. apply andb_prop in H. destruct H as [Hj Hl].
  cbn [map]. constructor; [exact (item_text_no_comma j Hj) | exact (IH Hl)].
Qed.

(** X22.  The loop over the items of a SET clause: the clause is cut at
    every comma; an item without an equals sign is passed over; an item
    is cut at its first equals sign only, so that the value may hold
    further ones; the column and the value are trimmed and the value is
    decoded; the assignments are made in the order of the clause. *)
Theorem set_clause_assignments :
  forall items : list set_item,
    forallb item_ok items = true ->
    update_data (split "," (set_clause_of items)) []
    = dict_of_pairs (assignments items).
Proof.
  intros [| i items] H; [reflexivity |].
  unfold set_clause_of. cbn [map].
  rewrite (split_join_commas (map item_text items) (item_text i)
             (items_no_comma (i :: items) H)).
  exact (update_data_items (i :: items) [] H).
Qed.

Lemma set_clause_assignments_witness :
  update_data (split "," "name = 'Bob', checked , age =31,note=a=b") []
  = [("name", VStr "Bob"); ("age", VInt 31); ("note", VStr "a=b")].
Proof.
  exact (set_clause_assignments
           [Assign "name " " 'Bob'"; Bare " checked "; Assign " age " "31";
            Assign "note" "a=b"] eq_refl).
Defined.

(** ** Values that open with a quote and do not close with one *)

Lemma strip_open_quote :
  forall a l, isspace l = false ->
              strip (String "'" (a ++ String l "")) = String "'" (a ++ String l "").
Proof.
  intros a l Hl. unfold strip.
  rewrite (lstrip_head_clear isspace (String "'" (a ++ String l "")) eq_refl).
  unfold rstrip_by.
  change (String "'" (a ++ String l "")) with (String "'" a ++ String l "").
  rewrite srev_snoc. cbn [lstrip_by]. rewrite Hl.
  rewrite <- srev_snoc. apply srev_involutive.
Qed.

Lemma decode_open_quote :
  forall a l,
    isspace l = false -> Ascii.eqb "'" l = false ->
    decode_value (String "'" (a ++ String l "")) = VStr (String "'" (a ++ String l "")).
Proof.
  intros a l Hs Hq. unfold decode_value.
  change (String.eqb (upper (String "'" (a ++ String l ""))) "NULL") with false.
  cbv iota.
  assert (He : endswith (String "'" (a ++ String l "")) "'" = false).
  { unfold endswith.
    change (String "'" (a ++ String l "")) with (String "'" a ++ String l "").
    rewrite srev_snoc. change (srev "'") with "'".
    change (startswith (String l (srev (String "'" a))) "'" = false).
    rewrite startswith_char. exact Hq. }
  rewrite He, !startswith_char.
  change (Ascii.eqb "'" "'") with true.
  change (Ascii.eqb dquote "'") with false.
  cbn [andb orb].
  assert (Hi : py_int (String "'" (a ++ String l "")) = None).
  { unfold py_int. rewrite (strip_open_quote a l Hs). reflexivity. }
  assert (Hf : py_float (String "'" (a ++ String l "")) = None).
  { unfold py_float. rewrite (strip_open_quote a l Hs).
    cbn [underscores_ok]. change (Ascii.eqb "'" "_") with false. cbv iota.
    destruct (underscores_ok (a ++ String l "") (isdigit_c "'")); reflexivity. }
  rewrite Hi, Hf. destruct (contains _ "."); reflexivity.
Qed.

(** X23.  A comma inside a quoted value of a SET clause cuts the value.
    For the clause made of [column], an equals sign and the quoted text
    [a l , b], where [l] is neither white space nor a quote and [b] holds
    no equals sign, the column receives [a l] behind its opening quote,
    as a string; what follows the comma is passed over. *)
Theorem quoted_comma_cuts_value :
  forall (column a b : string) (l : ascii),
    sforall no_comma_eq column = true ->
    sforall no_comma a = true ->
    no_comma l = true -> isspace l = false -> Ascii.eqb "'" l = false ->
    sforall no_comma_eq b = true ->
    update_data (split "," (column ++ "='" ++ a ++ String l "," ++ b ++ "'")) []
    = [(strip column, VStr ("'" ++ a ++ String l ""))].
Proof.
  intros column a b l Hc Ha Hl Hs Hq Hb.
  assert (Hok : forallb item_ok [Assign column ("'" ++ a ++ String l ""); Bare (b ++ "'")]
                = true).
  { cbn [forallb item_ok]. rewrite Hc, !sforall_app, Ha, Hb.
    unfold sforall at 2. cbn [list_ascii_of_string forallb]. rewrite Hl.
    reflexivity. }
  replace (column ++ "='" ++ a ++ String l "," ++ b ++ "'")
    with (join "," (map item_text
                        [Assign column ("'" ++ a ++ String l ""); Bare (b ++ "'")])).
  - cbn [map].
    rewrite (split_join_commas [item_text (Bare (b ++ "'"))]
                               (item_text (Assign column ("'" ++ a ++ String l "")))).
    + change (update_data
                (map item_text
                     [Assign column ("'" ++ a ++ String l ""); Bare (b ++ "'")]) []
              = [(strip column, VStr ("'" ++ a ++ String l ""))]).
      rewrite (update_data_items _ [] Hok).
      cbn [assignments flat_map app fold_left fst snd dict_set].
      change ("'" ++ a ++ String l "") with (String "'" (a ++ String l "")).
      rewrite (strip_open_quote a l Hs), (decode_open_quote a l Hs Hq).
      reflexivity.
    + cbn [forallb] in Hok. apply andb_prop in Hok. destruct Hok as [H1 H2].
      apply andb_prop in H2. destruct H2 as [H2 _].
      repeat constructor; apply item_text_no_comma; assumption.
  - cbn [map join item_text].
    change (column ++ "=" ++ "'" ++ a ++ String l "")
      with (column ++ String "=" (String "'" (a ++ String l ""))).
    change (column ++ "='" ++ a ++ String l "," ++ b ++ "'")
      with (column ++ String "=" (String "'" (a ++ String l ("," ++ b ++ "'")))).
    rewrite sapp_assoc. f_equal. cbn [append]. do 2 f_equal.
    rewrite sapp_assoc. reflexivity.
Qed.

Lemma quoted_comma_cuts_value_witness :
  update_data (split "," "name='Smith, John'") [] = [("name", VStr "'Smith")].
Proof.
  exact (quoted_comma_cuts_value "name" "Smit" " John" "h"
           eq_refl eq_refl eq_refl eq_refl eq_refl eq_refl).
Defined.

(** ** UPDATE statements of a known shape, end to end *)

Lemma token_suffix_head :
  forall s a1 a2 rest,
    sforall not_space s = true -> s = a1 ++ a2 -> a2 <> "" ->
    head_clear isspace (a2 ++ rest) = true.
Proof.
  intros s a1 a2 rest Hs -> Hne. apply sforall_tail in Hs.
  destruct a2 as [| c t]; [contradiction |].
  unfold sforall in Hs. cbn [list_ascii_of_string forallb] in Hs.
  apply andb_prop in Hs. destruct Hs as [Hc _].
  cbn [append head_clear]. exact Hc.
Qed.

(** The UPDATE pattern reads the table, a SET clause without white space
    and takes the rest of the line as the WHERE clause. *)
Lemma update_re_on_clause :
  forall table assigns clause,
    is_word_name table = true ->
    is_token assigns = true ->
    head_clear isspace clause = true ->
    sforall not_newline clause = true ->
    re_match true update_re
             ("update " ++ table ++ " set " ++ assigns ++ " where " ++ clause)
    = Some {| whole := "update " ++ table ++ " set " ++ assigns ++ " where " ++ clause;
              groups := [(3%nat, clause); (2%nat, assigns); (1%nat, table)] |}.
Proof.
  intros table assigns clause Ht Ha Hh Hn.
  destruct (word_name_parts table Ht) as (Htne & Htw & Htl).
  destruct (token_parts assigns Ha) as (Hane & Has & Hal).
  set (q := "update " ++ table ++ " set " ++ assigns ++ " where " ++ clause).
  unfold re_match, update_re.
  change q with ("update" ++ (" " ++ (table ++ (" " ++ ("set" ++ (" " ++
                   (assigns ++ (" " ++ ("where" ++ (" " ++ clause)))))))))).
  unfold cats, word_plus, ws_plus. cbn [run]. rewrite run_lits_app.
  apply (rep_greedy_run _ isspace " "); [reflexivity | | simpl; lia |].
  { apply head_clear_word_name; [exact Htne |].
    intros c Hin. apply word_not_space. exact (sforall_in _ _ _ Htw Hin). }
  apply rep_greedy_run; [exact Htw | reflexivity | exact Htl |].
  rewrite consumed_app.
  apply (rep_greedy_run _ isspace " "); [reflexivity | reflexivity | simpl; lia |].
  rewrite run_lits_app.
  apply (rep_greedy_run _ isspace " "); [reflexivity | | simpl; lia |].
  { apply (token_suffix_head assigns "" assigns _ Has eq_refl).
    destruct assigns; [discriminate | discriminate]. }
  apply rep_lazy_run;
    [exact (sforall_weaken not_space not_newline assigns not_space_not_newline Has) | |].
  { intros a1 a2 E Hne. apply rep_greedy_none.
    exact (token_suffix_head assigns a1 a2 _ Has E Hne). }
  rewrite consumed_app.
  apply (rep_greedy_run _ isspace " "); [reflexivity | reflexivity | simpl; lia |].
  rewrite run_lits_app.
  apply (rep_greedy_run _ isspace " "); [reflexivity | exact Hh | simpl; lia |].
  rewrite <- (append_nil_r_local clause) at 1.
  apply rep_greedy_run; [exact Hn | reflexivity | lia |].
  f_equal. f_equal.
  - apply consumed_all.
  - rewrite consumed_all. reflexivity.
Qed.


(** The statement [update T set S where C = V], with [S] free of white
    space: what the execution does is decided by the decoding of [V]. *)
Lemma update_where_run :
  forall (w : world) (st : session) (table assigns column token : string),
    connected st = true ->
    is_word_name table = true ->
    is_token assigns = true ->
    is_word_name column = true ->
    is_token token = true ->
    ends_clean token = true ->
    execute_sql_query w st
      ("update " ++ table ++ " set " ++ assigns
                 ++ " where " ++ column ++ " = " ++ token) []
    = match decode_where token with
      | Ret v =>
          let c := TableUpdate table (update_data (split "," assigns) []) column v in
          (Ret (match store w c with
                | Ret r => update_result r
                | Raise e => Error ("Query failed: " ++ e)
                end), [c])
      | Raise e => (Ret (Error ("Query failed: " ++ e)), [])
      end.
Proof.
  intros w st table assigns column token Hc Ht Hs Hcol Htok Hend.
  destruct (word_name_parts column Hcol) as (Hcne & Hcw & _).
  destruct (token_parts token Htok) as (_ & Hts & _).
  assert (Hnorm : normalize ("update " ++ table ++ " set " ++ assigns
                                       ++ " where " ++ column ++ " = " ++ token)
                  = "update " ++ table ++ " set " ++ assigns
                              ++ " where " ++ column ++ " = " ++ token).
  { apply normalize_clean; [reflexivity |].
    do 7 apply ends_clean_app. exact Hend. }
  assert (Hhead : head_clear isspace (column ++ " = " ++ token) = true).
  { apply head_clear_word_name; [exact Hcne |].
    intros ch Hin. apply word_not_space. exact (sforall_in _ _ _ Hcw Hin). }
  assert (Hnl : sforall not_newline (column ++ " = " ++ token) = true).
  { rewrite !sforall_app.
    rewrite (sforall_weaken isword not_newline column word_not_newline Hcw).
    rewrite (sforall_weaken not_space not_newline token not_space_not_newline Hts).
    reflexivity. }
  pose proof (where_re_on_equality column token "" Hcol Htok eq_refl) as Hw.
  rewrite (append_nil_r_local token) in Hw.
  rewrite (execute_connected w st _ Hc), Hnorm.
  rewrite (dispatch_update w ("update " ++ table ++ " set " ++ assigns
                                        ++ " where " ++ column ++ " = " ++ token)
                           eq_refl).
  unfold catch, bind, update_branch.
  rewrite (update_re_on_clause table assigns _ Ht Hs Hhead Hnl).
  cbn [group_str groups group Nat.eqb]. rewrite Hw.
  unfold bind, lift.
  cbn [group_str groups group Nat.eqb]. rewrite (token_strip token Htok).
  destruct (decode_where token) as [v | e]; [| reflexivity].
  unfold perform. cbn [app].
  destruct (store w (TableUpdate table (update_data (split "," assigns) []) column v));
    reflexivity.
Qed.

(** X24.  The statement [update T set S where C = V], for a table and a
    column made of word characters, an ASCII token without white space, of
    at most 4300 digits, that does not end in a semicolon, and an ASCII SET
    clause [S] written without white space, makes exactly one call on the
    store: the structured update of [T] with the assignments of [S],
    filtered on [C] by the decoded token; the result is that of the store's
    answer. *)
Theorem update_statement_round_trip :
  forall (w : world) (st : session) (table column token : string)
         (items : list set_item),
    connected st = true ->
    is_word_name table = true ->
    forallb item_ok items = true ->
    is_token (set_clause_of items) = true ->
    isascii (set_clause_of items) = true ->
    is_word_name column = true ->
    is_token token = true ->
    isascii token = true ->
    within_int_limit token = true ->
    ends_clean token = true ->
    let c := TableUpdate table (dict_of_pairs (assignments items))
                         column (predicate_value token) in
    execute_sql_query w st
      ("update " ++ table ++ " set " ++ set_clause_of items
                 ++ " where " ++ column ++ " = " ++ token) []
    = (Ret (match store w c with
            | Ret r => update_result r
            | Raise e => Error ("Query failed: " ++ e)
            end), [c]).
Proof.
  intros w st table column token items Hc Ht Hi Hs _ Hcol Htok _ Hl Hend c.
  rewrite (update_where_run w st table (set_clause_of items) column token
             Hc Ht Hs Hcol Htok Hend).
  rewrite (decode_where_predicate_value token Hl).
  assert (Hd : update_data (split "," (set_clause_of items)) []
               = dict_of_pairs (assignments items)).
  { destruct items as [| i items]; [reflexivity |].
    unfold set_clause_of. cbn [map].
    rewrite (split_join_commas (map item_text items) (item_text i)
               (items_no_comma (i :: items) Hi)).
    exact (update_data_items (i :: items) [] Hi). }
  rewrite Hd. reflexivity.
Qed.

Lemma update_statement_round_trip_witness :
  execute_sql_query quiet_world fresh_session
    "update customers set city='Oslo',age=41 where id = 7" []
  = (Ret (Data (Some [])),
     [TableUpdate "customers" [("city", VStr "Oslo"); ("age", VInt 41)]
                  "id" (VInt 7)]).
Proof.
  exact (update_statement_round_trip quiet_world fresh_session
           "customers" "id" "7" [Assign "city" "'Oslo'"; Assign "age" "41"]
           eq_refl eq_refl eq_refl eq_refl eq_refl eq_refl eq_refl eq_refl
           eq_refl eq_refl).
Defined.


(** ** C4: the token of a WHERE equality *)




